(** * Client-side synchronisation layer of the trading dashboard

    A shallow embedding of the browser scripts of the dashboard
    ([static/js/scripts.js], [static/js/modules/bot_control.js],
    [static/js/modules/market_data.js], [static/js/modules/notifications.js]
    and the profit-ledger module) together with the properties of its
    run-state controller, price cache, profit tables, notification
    de-duplication and pagination controls.

    Conventions of the embedding:
    - JavaScript numbers are exact rationals ([Q]): the binary rounding of
      IEEE doubles and the infinities are outside the model, and NaN is the
      failure ([None]) of a conversion to a number;
    - strings are byte strings, white space is ASCII white space; JSON
      objects are association lists in enumeration order; the bodies of
      responses have the shape the endpoint documents;
    - an asynchronous operation is a [task]: a finite tree whose nodes are the
      requests it waits for; every continuation runs atomically on the
      browser state current at the time the response arrives. *)

From Stdlib Require Import ZArith QArith Qround String Ascii List Lia.
From Stdlib Require Import Qabs Lqa.
From stdpp Require Import base strings gmap list pretty.

Local Open Scope string_scope.

(** ** JavaScript values and the built-ins the scripts use *)

Module Js.

Inductive value : Type :=
| Undefined
| Null
| Bool (b : bool)
| Num (q : Q)
| Str (s : string).

(** [ToBoolean]: what [if (v)], [!v], [v || w] and [v && w] test. *)
Definition truthy (v : value) : bool :=
  match v with
  | Undefined | Null => false
  | Bool b => b
  | Num q => negb (Qeq_bool q 0)
  | Str s => negb (String.eqb s "")
  end.

(** [typeof v === 'number'] *)
Definition is_number (v : value) : bool :=
  match v with Num _ => true | _ => false end.

(** [v === s] for a string literal [s] *)
Definition is_str (s : string) (v : value) : bool :=
  match v with Str t => String.eqb t s | _ => false end.

(** [v === n] for an integer literal [n] *)
Definition is_int (n : Z) (v : value) : bool :=
  match v with Num q => Qeq_bool q (inject_Z n) | _ => false end.

(** A JSON object: its own enumerable properties in enumeration order. *)
Definition object : Type := list (string * value).

(** [o[k]]: the property, [undefined] when absent. *)
Fixpoint get (o : object) (k : string) : value :=
  match o with
  | [] => Undefined
  | (k', v) :: o' => if String.eqb k' k then v else get o' k
  end.

Definition keys (o : object) : list string := map fst o.

(** *** Strings *)

Definition is_space (c : ascii) : bool :=
  match N_of_ascii c with
  | 9%N | 10%N | 11%N | 12%N | 13%N | 32%N => true
  | _ => false
  end.

Fixpoint trim_start (s : string) : string :=
  match s with
  | EmptyString => EmptyString
  | String c s' => if is_space c then trim_start s' else s
  end.

Fixpoint trim_end (s : string) : string :=
  match s with
  | EmptyString => EmptyString
  | String c s' =>
      match trim_end s' with
      | EmptyString => if is_space c then EmptyString else String c EmptyString
      | t => String c t
      end
  end.

(** [s.trim()] *)
Definition trim (s : string) : string := trim_end (trim_start s).

Definition lower_char (c : ascii) : ascii :=
  let n := N_of_ascii c in
  if (65 <=? n)%N && (n <=? 90)%N then ascii_of_N (n + 32) else c.

(** [s.toLowerCase()] *)
Fixpoint toLowerCase (s : string) : string :=
  match s with
  | EmptyString => EmptyString
  | String c s' => String (lower_char c) (toLowerCase s')
  end.

(** [s.includes(sub)] *)
Fixpoint includes (s sub : string) : bool :=
  String.prefix sub s ||
  match s with
  | EmptyString => false
  | String _ s' => includes s' sub
  end.

(** *** Numbers *)

(** The [f] low-order decimal digits of [n], most significant first. *)
Fixpoint fixed_digits (f : nat) (n : N) : string :=
  match f with
  | O => EmptyString
  | S f' => fixed_digits f' (n / 10)%N +:+ String (pretty_N_char (n mod 10)%N) EmptyString
  end.

(** The integer [n] with [n / 10^f] nearest to [a], the larger one on a
    tie ([a] is not negative). *)
Definition scaled (a : Q) (f : nat) : N :=
  Z.to_N (Qfloor (a * inject_Z (10 ^ Z.of_nat f) + (1 # 2))).

(** [x.toFixed(f)], below the magnitude at which JavaScript switches to
    exponent notation. *)
Definition toFixed (x : Q) (f : nat) : string :=
  let neg := negb (Qle_bool 0 x) in
  let n := scaled (if neg then Qopp x else x) f in
  let p := (10 ^ N.of_nat f)%N in
  (if neg then "-" else "") +:+ pretty (n / p)%N +:+
  match f with
  | O => ""
  | S _ => "." +:+ fixed_digits f (n mod p)%N
  end.

Definition digit_of (c : ascii) : option N :=
  let n := N_of_ascii c in
  if (48 <=? n)%N && (n <=? 57)%N then Some (n - 48)%N else None.

(** Reads the decimal digits at the head of [s]: the number they denote
    after [acc], how many were read after [len], and the rest. *)
Fixpoint read_digits (s : string) (acc : N) (len : nat) : N * nat * string :=
  match s with
  | String c s' =>
      match digit_of c with
      | Some d => read_digits s' (acc * 10 + d)%N (S len)
      | None => (acc, len, s)
      end
  | EmptyString => (acc, len, s)
  end.

Definition read_sign (s : string) : bool * string :=
  match s with
  | String "-" s' => (true, s')
  | String "+" s' => (false, s')
  | _ => (false, s)
  end.

(** An exponent part [e], [e+] or [e-] followed by digits, if [s] starts
    with one. *)
Definition read_exponent (s : string) : Z * string :=
  match s with
  | String c s1 =>
      if Ascii.eqb c "e" || Ascii.eqb c "E" then
        match read_sign s1 with
        | (neg, s2) =>
            match read_digits s2 0 0 with
            | (_, O, _) => (0%Z, s)
            | (e, _, s3) => (if neg then (- Z.of_N e)%Z else Z.of_N e, s3)
            end
        end
      else (0%Z, s)
  | EmptyString => (0%Z, s)
  end.

(** The longest unsigned decimal literal at the head of [s] (digits,
    fraction, exponent) with the rest of [s]; [None] when [s] starts with
    none. *)
Definition read_unsigned (s : string) : option (Q * string) :=
  match read_digits s 0 0 with
  | (ip, ilen, s2) =>
      match (match s2 with
             | String "." s' => read_digits s' 0 0
             | _ => (0%N, O, s2)
             end) with
      | (fp, flen, s3) =>
          match ilen, flen with
          | O, O => None
          | _, _ =>
              match read_exponent s3 with
              | (e, s4) =>
                  Some (((inject_Z (Z.of_N ip)
                          + inject_Z (Z.of_N fp) / inject_Z (10 ^ Z.of_nat flen))
                         * Qpower (inject_Z 10) e)%Q, s4)
              end
          end
      end
  end.

(** The longest decimal literal at the head of [s], with its sign. *)
Definition read_decimal (s : string) : option (Q * string) :=
  match read_sign s with
  | (neg, s1) =>
      match read_unsigned s1 with
      | Some (m, rest) => Some (if neg then (- m)%Q else m, rest)
      | None => None
      end
  end.

(** [parseFloat(s)]; [None] is NaN. *)
Definition parseFloat (s : string) : option Q :=
  fst <$> read_decimal (trim_start s).

(** [ToNumber(v)], decimal literals only; [None] is NaN. *)
Definition to_number (v : value) : option Q :=
  match v with
  | Undefined => None
  | Null => Some 0%Q
  | Bool b => Some (if b then 1%Q else 0%Q)
  | Num q => Some q
  | Str s =>
      let t := trim s in
      if String.eqb t "" then Some 0%Q
      else match read_decimal t with
           | Some (q, EmptyString) => Some q
           | _ => None
           end
  end.

(** [a <= b] where [b] is a number. *)
Definition le_num (a : value) (b : Q) : bool :=
  match to_number a with
  | Some q => Qle_bool q b
  | None => false
  end.

(** [a === b] *)
Definition strict_eq (a b : value) : bool :=
  match a, b with
  | Undefined, Undefined | Null, Null => true
  | Bool x, Bool y => Bool.eqb x y
  | Num x, Num y => Qeq_bool x y
  | Str x, Str y => String.eqb x y
  | _, _ => false
  end.

End Js.

(** ** Asynchronous operations *)

Module Async.

(** How a [fetch] followed by [response.json()] ends: the request is
    rejected (network failure), or a response arrives whose body is JSON
    ([Some]) or not ([None], [response.json()] rejects). *)
Inductive fetched (B : Type) : Type :=
| Rejected (reason : string)
| Responded (ok : bool) (statusText : string) (body : option B).
Arguments Rejected {B} reason.
Arguments Responded {B} ok statusText body.

(** What the scripts do besides changing the page. *)
Inductive effect : Type :=
| Alert (msg : string)
| ConsoleError (msg : string)
| ConsoleWarn (msg : string)
| Refresh.                      (* a call of [updateData()] *)

Section Task.
Context {Rq : Type -> Type} {S A : Type}.

(** A promise chain. [Await req k] has issued [req]; when its outcome [r]
    arrives, [k r] runs on the state of that moment, returns the new state
    and the rest of the chain. *)
#[warnings="-register-all"] Inductive task : Type :=
| Fulfilled (a : A)
| Failed (message : string)
| Await {B : Type} (req : Rq B) (k : fetched B -> S -> S * task).

(** The answers of the server. *)
Definition server : Type := forall B, Rq B -> fetched B.

(** Runs a chain to its end against a server when nothing else touches the
    state in between: the requests in the order of issue, each with the state
    that is current while it is in flight, the final state and how the promise
    settles. *)
Fixpoint run (srv : server) (t : task) (s : S)
  : list ({B : Type & Rq B} * S) * S * (string + A) :=
  match t with
  | Fulfilled a => ([], s, inr a)
  | Failed e => ([], s, inl e)
  | Await req k =>
      match k (srv _ req) s with
      | (s', t') =>
          match run srv t' s' with
          | (tr, sf, r) => ((existT _ req, s) :: tr, sf, r)
          end
      end
  end.

(** The requests a run issues, in order. *)
Definition requests (srv : server) (t : task) (s : S) : list {B : Type & Rq B} :=
  (run srv t s).1.1.*1.

(** The states a run goes through while it waits for a response. *)
Definition waiting_states (srv : server) (t : task) (s : S) : list S :=
  (run srv t s).1.1.*2.

(** The state in which a run ends. *)
Definition final (srv : server) (t : task) (s : S) : S := (run srv t s).1.2.

(** How the promise of a run settles. *)
Definition settled (srv : server) (t : task) (s : S) : string + A := (run srv t s).2.
End Task.
Arguments task : clear implicits.
Arguments server : clear implicits.

(** [t.then(f)] for a callback [f] that returns a plain value. *)
Fixpoint then_value {Rq : Type -> Type} {S A A' : Type}
    (t : task Rq S A) (f : A -> A') : task Rq S A' :=
  match t with
  | Fulfilled a => Fulfilled (f a)
  | Failed e => Failed e
  | Await req k =>
      Await req (fun r s => match k r s with (s', t') => (s', then_value t' f) end)
  end.

End Async.

(** ** The page *)

Module Dom.

Record element : Type := { innerText : string; classList : gset string }.

Definition set_innerText (t : string) (e : element) : element :=
  {| innerText := t; classList := classList e |}.

Definition classList_add (c : string) (e : element) : element :=
  {| innerText := innerText e; classList := {[c]} ∪ classList e |}.

Definition classList_remove (c : string) (e : element) : element :=
  {| innerText := innerText e; classList := classList e ∖ {[c]} |}.

Definition classList_contains (c : string) (e : element) : bool :=
  bool_decide (c ∈ classList e).

(** [classList.toggle(c, force)]: an [undefined] second argument counts as
    absent and flips the class. *)
Definition classList_toggle (c : string) (force : Js.value) (e : element) : element :=
  match force with
  | Js.Undefined => if classList_contains c e then classList_remove c e else classList_add c e
  | _ => if Js.truthy force then classList_add c e else classList_remove c e
  end.

(** A table row that carries [data-symbol]; [data_id] is its [data-id]
    attribute ([None] when the attribute is missing). *)
Record tr : Type := { data_symbol : string; data_id : option string }.

(** [document.querySelector(`tr[data-symbol='${symbol}']`)] *)
Definition query_row (symbol : string) (rows : list tr) : option tr :=
  find (fun r => String.eqb (data_symbol r) symbol) rows.

End Dom.

(** ** The dashboard: run-state buttons, prices ([bot_control.js], [scripts.js]) *)

Module Dashboard.
Import Js Dom Async.

(** The requests of these scripts, indexed by the JSON body of the response. *)
Inductive request : Type -> Type :=
| ClearOpenPositions (symbol exchange trading_mode : string) : request object
| Control (action : string) (pair_id : Z) : request object
| BotStatuses : request object.

(** The browser state the scripts read and write: the elements that have an
    [id], the rows that carry [data-symbol] in document order, the rows
    (symbol, price text) of the market overview table when the page has one, the
    script-level [priceCache], and what was alerted and logged. *)
Record page : Type := {
  elements : gmap string element;
  rows : list tr;
  market : option (list (string * string));
  priceCache : gmap string value;
  log : list effect }.

Definition getElementById (id : string) (p : page) : option element :=
  elements p !! id.

(** Applies [f] to the element with this id, if the document has it. *)
Definition update (id : string) (f : element -> element) (p : page) : page :=
  {| elements := alter f id (elements p); rows := rows p; market := market p;
     priceCache := priceCache p; log := log p |}.

Definition emit (e : effect) (p : page) : page :=
  {| elements := elements p; rows := rows p; market := market p;
     priceCache := priceCache p; log := log p ++ [e] |}.

(** The three statements every path uses to show a run state on a button:
    [btn.innerText = isRunning ? 'Stop' : 'Start';
     btn.classList.toggle('btn-success', !isRunning);
     btn.classList.toggle('btn-danger', isRunning)]. *)
Definition show_running (isRunning : value) (btn : element) : element :=
  classList_toggle "btn-danger" isRunning
    (classList_toggle "btn-success" (Bool (negb (truthy isRunning)))
       (set_innerText (if truthy isRunning then "Stop" else "Start") btn)).

(** [if (isRunning) edit.classList.add("disabled") else edit.classList.remove("disabled")] *)
Definition set_disabled (isRunning : value) (edit : element) : element :=
  if truthy isRunning then classList_add "disabled" edit
  else classList_remove "disabled" edit.

(** *** [toggleBot] *)

(** [btnId] when it is truthy. *)
Definition given (btnId : option string) : option string :=
  match btnId with
  | Some b => if String.eqb b "" then None else Some b
  | None => None
  end.

(** [btnId || `control-btn-${pairId}`] *)
Definition button_id (btnId : option string) (pairId : Z) : string :=
  match given btnId with
  | Some b => b
  | None => "control-btn-" +:+ pretty pairId
  end.

(** The [.catch] of [toggleBot]: re-enables the edit control, alerts, logs
    and rethrows. *)
Definition toggle_catch (btnId : option string) (message : string) (p : page)
  : page * task request page object :=
  let p1 := match given btnId with
            | Some b => update ("edit-" +:+ b) (classList_remove "disabled") p
            | None => p
            end in
  (emit (ConsoleError ("Error toggling bot: " +:+ message))
     (emit (Alert ("Trade error: " +:+ message)) p1),
   Failed message).

(** The [.then(data => ...)] of [toggleBot] once the body is parsed. *)
Definition toggle_resolved (id : string) (btnId : option string) (data : object) (p : page)
  : page * task request page object :=
  let isRunning := get data "bot_is_running" in
  let p1 := update id (show_running isRunning) p in
  let p2 := match given btnId with
            | Some b => update ("edit-" +:+ b) (set_disabled isRunning) p1
            | None => p1
            end in
  (p2, Fulfilled data).

(** What [toggleBot] does with the outcome of the control request. *)
Definition on_control (id : string) (btnId : option string)
    (r : fetched object) (p : page) : page * task request page object :=
  match r with
  | Rejected reason => toggle_catch btnId reason p
  | Responded ok statusText body =>
      if negb ok then toggle_catch btnId ("Control API error: " +:+ statusText) p
      else
        match body with
        | None => toggle_catch btnId "Unexpected token in JSON" p
        | Some data =>
            let status := get data "status" in
            if truthy status then
              match status with
              | Str s =>
                  if includes (toLowerCase s) "invalid"
                  then toggle_catch btnId s (emit (Alert s) p)
                  else toggle_resolved id btnId data p
              | _ => toggle_catch btnId "data.status.toLowerCase is not a function" p
              end
            else toggle_resolved id btnId data p
        end
  end.

(** [toggleBot(pairId, symbol, exchange, mode, btnId)]: the page as the call
    leaves it, with the promise it returns. [inl]: the call itself throws (no
    button with that id). *)
Definition toggleBot (pairId : Z) (symbol exchange mode : string)
    (btnId : option string) (p : page) : string + page * task request page object :=
  let id := button_id btnId pairId in
  match getElementById id p with
  | None => inl "Cannot read properties of null (reading 'innerText')"
  | Some btn =>
      let label := trim (innerText btn) in
      let action := if String.eqb label "Start" then "start" else "stop" in
      let control := Await (Control action pairId) (on_control id btnId) in
      inr (p,
           if String.eqb action "start"
           then Await (ClearOpenPositions symbol exchange mode)
                  (fun r p' =>
                     match r with
                     | Rejected reason => toggle_catch btnId reason p'
                     | Responded _ _ _ => (p', control)
                     end)
           else control)
  end.

(** *** [updateAllBotStatuses] *)

(** The body of the [for (const pairId in statuses)] loop. *)
Definition poll_pair (statuses : object) (p : page) (pairId : string) : page :=
  match getElementById ("action-" +:+ pairId) p with
  | None => p
  | Some _ =>
      let isRunning := get statuses pairId in
      update ("edit-action-" +:+ pairId) (set_disabled isRunning)
        (update ("action-" +:+ pairId) (show_running isRunning) p)
  end.

Definition poll_catch (message : string) (p : page) : page * task request page unit :=
  (emit (ConsoleError ("Error updating bot statuses: " +:+ message)) p, Fulfilled tt).

Definition on_bot_statuses (r : fetched object) (p : page) : page * task request page unit :=
  match r with
  | Rejected reason => poll_catch reason p
  | Responded ok statusText body =>
      if negb ok then poll_catch ("Failed to fetch bot statuses: " +:+ statusText) p
      else
        match body with
        | None => poll_catch "Unexpected token in JSON" p
        | Some statuses => (foldl (poll_pair statuses) p (keys statuses), Fulfilled tt)
        end
  end.

Definition updateAllBotStatuses : task request page unit :=
  Await BotStatuses on_bot_statuses.

(** *** The [price_update] message *)

(** [{ ...base, ...o }] *)
Definition spread (base : gmap string value) (o : object) : gmap string value :=
  foldl (fun m kv => <[kv.1 := kv.2]> m) base o.

(** The text written into a price cell of the dashboard:
    [v !== 'N/A' && typeof v === 'number' ? v.toFixed(4) : (v || 'N/A')],
    the second branch converted to a string by the assignment to
    [innerText]. *)
Definition price_text (v : value) : string :=
  match v with
  | Num q => toFixed q 4
  | Str s => if truthy v then s else "N/A"
  | Bool b => if truthy v then "true" else "N/A"
  | Undefined | Null => "N/A"
  end.

(** The text [updateMarketTable] computes for a row:
    [v && v !== 'N/A' ? `$${v.toFixed(4)}` : 'N/A'] with [v = priceCache[symbol]];
    [inl]: the expression throws. *)
Definition market_price_text (v : value) : string + string :=
  if truthy v && negb (is_str "N/A" v) then
    match v with
    | Num q => inr ("$" +:+ toFixed q 4)
    | _ => inl "priceCache[symbol].toFixed is not a function"
    end
  else inr "N/A".

(** [updateMarketTable(prices, priceCache)] on the rows of the table: the new
    rows, and the exception that stopped the iteration if there was one. *)
Fixpoint updateMarketTable (cache : gmap string value) (table : list (string * string))
  : list (string * string) * option string :=
  match table with
  | [] => ([], None)
  | (symbol, old) :: rest =>
      match market_price_text (default Undefined (cache !! symbol)) with
      | inl e => (table, Some e)
      | inr t =>
          match updateMarketTable cache rest with
          | (rest', r) => ((symbol, t) :: rest', r)
          end
      end
  end.

(** The price text [initializeMarketTable] computes for a pair:
    [priceCache[pair] ? `$${priceCache[pair].toFixed(4)}` : 'Loading...'];
    [inl]: the expression throws. *)
Definition initial_price_text (v : value) : string + string :=
  if truthy v then
    match v with
    | Num q => inr ("$" +:+ toFixed q 4)
    | _ => inl "priceCache[pair].toFixed is not a function"
    end
  else inr "Loading...".

(** The rows [pairs.map(pair => [pair, ...])] of the new table. *)
Fixpoint initial_rows (cache : gmap string value) (pairs : list string)
  : string + list (string * string) :=
  match pairs with
  | [] => inr []
  | symbol :: rest =>
      match initial_price_text (default Undefined (cache !! symbol)) with
      | inl e => inl e
      | inr t =>
          match initial_rows cache rest with
          | inl e => inl e
          | inr table => inr ((symbol, t) :: table)
          end
      end
  end.

(** [initializeMarketTable(pairs, priceCache)]: the table, if it got
    created, and the exception, if one was thrown. *)
Definition initializeMarketTable (pairs : list string) (cache : gmap string value)
  : option (list (string * string)) * option string :=
  match initial_rows cache pairs with
  | inl e => (None, Some e)
  | inr t =>
      match updateMarketTable cache t with
      | (t', r) => (Some t', r)
      end
  end.

(** The body of the [for (const symbol in prices)] loop of the handler. *)
Definition push_symbol (prices trade_status : object) (p : page) (symbol : string) : page :=
  match query_row symbol (rows p) with
  | None =>
      emit (ConsoleWarn ("Price update for symbol '" +:+ symbol +:+
                         "' but no matching row found in the table.")) p
  | Some row =>
      match given (data_id row) with
      | None =>
          emit (ConsoleWarn ("Row found for symbol '" +:+ symbol +:+
                             "' but it's missing a 'data-id' attribute.")) p
      | Some id =>
          let p1 :=
            match getElementById ("price-" +:+ id) p with
            | Some _ => update ("price-" +:+ id) (set_innerText (price_text (get prices symbol))) p
            | None =>
                emit (ConsoleWarn ("Price cell with id 'price-" +:+ id +:+
                                   "' not found for symbol '" +:+ symbol +:+ "'.")) p
            end in
          match getElementById ("action-" +:+ id) p1 with
          | None => p1
          | Some _ =>
              let running := get trade_status symbol in
              update ("edit-" +:+ id) (set_disabled running)
                (update ("action-" +:+ id) (show_running running) p1)
          end
      end
  end.

(** The redraw of the market overview that the handler schedules on a page
    that has one: [import('./modules/market_data.js').then(({ updateMarketTable })
    => updateMarketTable(prices, priceCache))]. An exception in it is an
    unhandled rejection. *)
Definition redraw_market (p : page) : page :=
  match market p with
  | None => p
  | Some t =>
      match updateMarketTable (priceCache p) t with
      | (t', r) =>
          let p1 := {| elements := elements p; rows := rows p; market := Some t';
                       priceCache := priceCache p; log := log p |} in
          match r with
          | Some e => emit (ConsoleError ("Uncaught (in promise) " +:+ e)) p1
          | None => p1
          end
      end
  end.

(** [socket.on('price_update', data => ...)] with [data.prices] and
    [data.trade_status] ([None] when the message has none). *)
Definition on_price_update (prices : object) (trade_status : option object) (p : page) : page :=
  let p1 := {| elements := elements p; rows := rows p; market := market p;
               priceCache := spread (priceCache p) prices; log := log p |} in
  redraw_market (foldl (push_symbol prices (default [] trade_status)) p1 (keys prices)).

(** *** What the price cells are meant to show *)

(** The values the server sends as a price: a number or the string "N/A";
    a price that is missing reads as [null] or [undefined]. *)
Definition in_contract (v : value) : Prop :=
  match v with
  | Num _ | Null | Undefined => True
  | Str s => s = "N/A"
  | Bool _ => False
  end.

(** The rendering the specification asks for: the number formatted to four
    decimal places, "N/A" for everything else. *)
Definition rendered_as_specified (v : value) (text : string) : Prop :=
  match v with
  | Num q => text = toFixed q 4
  | _ => text = "N/A"
  end.

(** A [price_update] message renders every price it carries as specified:
    the price cell of the row of each of its symbols. *)
Definition renders_as_specified (prices : object) (trade_status : option object)
    (p : page) : Prop :=
  forall symbol row id cell,
    symbol ∈ keys prices ->
    query_row symbol (rows p) = Some row ->
    given (data_id row) = Some id ->
    getElementById ("price-" +:+ id) (on_price_update prices trade_status p) = Some cell ->
    rendered_as_specified (get prices symbol) (innerText cell).

(** What a row of the market overview shows for a price in contract: a
    price of 0 is shown like a missing one. *)
Definition market_text (v : value) : string :=
  match v with
  | Num q => if Qeq_bool q 0 then "N/A" else "$" +:+ toFixed q 4
  | _ => "N/A"
  end.

(** The price cell [price-<id>] shows the price the message carries for
    [symbol]. *)
Definition price_shown (prices : object) (symbol id : string) (p : page) : Prop :=
  exists cell,
    getElementById ("price-" +:+ id) p = Some cell /\
    innerText cell = price_text (get prices symbol).

(** Rows with different symbols carry different ids. *)
Definition distinct_ids (rs : list tr) : Prop :=
  forall r1 r2 id,
    r1 ∈ rs -> r2 ∈ rs ->
    given (data_id r1) = Some id -> given (data_id r2) = Some id ->
    data_symbol r1 = data_symbol r2.

(** *** The edit-while-running invariant *)

(** The run state a pair displays is the label of its button [action-<id>]:
    "Stop" while running, "Start" while stopped. The configuration-edit
    control of the pair is [edit-action-<id>]; it is disabled when it carries
    the class [disabled]. *)
Definition edit_consistent (p : page) (id : string) : Prop :=
  forall btn edit,
    getElementById ("action-" +:+ id) p = Some btn ->
    getElementById ("edit-action-" +:+ id) p = Some edit ->
    (innerText btn = "Stop" -> "disabled" ∈ classList edit) /\
    (innerText btn = "Start" -> "disabled" ∉ classList edit).

(** The label a button shows, if the page has the button. *)
Definition label (id : string) (p : page) : option string :=
  innerText <$> getElementById id p.

(** The label opposite to the one shown. *)
Definition flipped (l : string) : string :=
  if String.eqb l "Start" then "Stop" else "Start".

(** An optimistic toggle: when the call returns, with its first request in
    flight, the button already shows the opposite label. *)
Definition flips_at_once (pairId : Z) (symbol exchange mode : string)
    (btnId : option string) (p : page) : Prop :=
  forall p' t l,
    toggleBot pairId symbol exchange mode btnId p = inr (p', t) ->
    label (button_id btnId pairId) p = Some l ->
    label (button_id btnId pairId) p' = Some (flipped l).

End Dashboard.

(** ** Notifications ([notifications.js]) *)

Module Notifications.
Import Js Async.

(** One entry of the notification log of a symbol. *)
Record msg : Type := { timestamp : string; type : string; message : string }.

(** The body of [/api/notifications]: the log of every symbol, in the order
    [Object.entries] enumerates them. *)
Definition notifications : Type := list (string * list msg).

Inductive request : Type -> Type :=
| GetNotifications : request notifications
| PostClearNotifications : request object.

(** A child of [#notification-list]. *)
Inductive item : Type :=
| Entry (class text : string)       (* <a class="dropdown-item {class}">{text}</a> *)
| Divider
| ClearAll.

(** An alert, recorded with the identity of the notification that raised
    it. *)
Record raised : Type := { cause : string; shown : string }.

(** The module-level [seenNotifications], the text of [#notification-count]
    and the children of [#notification-list] ([None] when the page has no
    such element), the alerts raised and the errors logged. *)
Record state : Type := {
  seenNotifications : gset string;
  count : option string;
  list_items : option (list item);
  alerts : list raised;
  console : list string }.

(** The identity of a notification: [`${symbol}-${msg.timestamp}`]. *)
Definition identity (symbol : string) (m : msg) : string :=
  symbol +:+ "-" +:+ timestamp m.

(** The text shown for a notification: [`${symbol}: ${msg.message}`]. *)
Definition line (symbol : string) (m : msg) : string :=
  symbol +:+ ": " +:+ message m.

Definition entry_of (symbol : string) (m : msg) : item :=
  Entry (if String.eqb (type m) "error" then "text-danger" else "text-success")
        (line symbol m).

(** [if (!seenNotifications.has(id)) { seenNotifications.add(id);
    if (msg.type === 'error') alert(...) }] *)
Definition notice (symbol : string) (m : msg) (st : state) : state :=
  let id := identity symbol m in
  if bool_decide (id ∈ seenNotifications st) then st
  else
    {| seenNotifications := {[id]} ∪ seenNotifications st;
       count := count st; list_items := list_items st;
       alerts := if String.eqb (type m) "error"
                 then alerts st ++ [{| cause := id; shown := line symbol m |}]
                 else alerts st;
       console := console st |}.

(** [list.appendChild(li)] *)
Definition append_item (it : item) (st : state) : state :=
  {| seenNotifications := seenNotifications st; count := count st;
     list_items := (fun l => l ++ [it])%list <$> list_items st;
     alerts := alerts st; console := console st |}.

(** The body of [messages.forEach(msg => ...)]. *)
Definition show_message (symbol : string) (st : state) (m : msg) : state :=
  append_item (entry_of symbol m) (notice symbol m st).

(** The body of [for (const [symbol, messages] of Object.entries(data))]. *)
Definition show_symbol (st : state) (e : string * list msg) : state :=
  foldl (show_message e.1) st e.2.

(** The [.then(data => ...)] of [updateNotifications]. *)
Definition on_data (data : notifications) (st : state) : state :=
  let st1 :=
    {| seenNotifications := seenNotifications st;
       count := (fun _ => pretty (length (concat data.*2))) <$> count st;
       list_items := list_items st; alerts := alerts st; console := console st |} in
  match list_items st1 with
  | None => st1
  | Some _ =>
      let cleared :=
        {| seenNotifications := seenNotifications st1; count := count st1;
           list_items := Some []; alerts := alerts st1; console := console st1 |} in
      append_item ClearAll (append_item Divider (foldl show_symbol cleared data))
  end.

Definition log_error (text : string) (st : state) : state :=
  {| seenNotifications := seenNotifications st; count := count st;
     list_items := list_items st; alerts := alerts st;
     console := console st ++ [text] |}.

(** [updateNotifications()]: the promise is fulfilled with the data, or with
    [{}] when the request or the parsing failed. *)
Definition updateNotifications : task request state notifications :=
  Await GetNotifications
    (fun r st =>
       match r with
       | Rejected reason =>
           (log_error ("Error fetching notifications: " +:+ reason) st, Fulfilled [])
       | Responded _ _ None =>
           (log_error "Error fetching notifications: Unexpected token in JSON" st,
            Fulfilled [])
       | Responded _ _ (Some data) => (on_data data st, Fulfilled data)
       end).

(** [seenNotifications.clear()] *)
Definition clear_seen (st : state) : state :=
  {| seenNotifications := ∅; count := count st; list_items := list_items st;
     alerts := alerts st; console := console st |}.

(** [clearNotifications()] *)
Definition clearNotifications : task request state (option notifications) :=
  Await PostClearNotifications
    (fun r st =>
       match r with
       | Rejected reason =>
           (log_error ("Error clearing notifications: " +:+ reason) st, Fulfilled None)
       | Responded _ _ None =>
           (log_error "Error clearing notifications: Unexpected token in JSON" st,
            Fulfilled None)
       | Responded _ _ (Some _) => (clear_seen st, then_value updateNotifications Some)
       end).

(** The state after a series of polls that each deliver their data. *)
Definition polls (ds : list notifications) (st : state) : state :=
  foldl (fun s d => on_data d s) st ds.

(** The alerts raised by the notification with identity [id]. *)
Definition alerts_of (id : string) (st : state) : list raised :=
  filter (fun a => cause a = id) (alerts st).

(** The notification [m] of [symbol] is part of [data]. *)
Definition delivers (symbol : string) (m : msg) (data : notifications) : Prop :=
  exists ms, (symbol, ms) ∈ data /\ m ∈ ms.

(** Every message of [data] with the identity [id] has the type [ty]. *)
Definition typed_as (id ty : string) (data : notifications) : Prop :=
  forall symbol ms m,
    (symbol, ms) ∈ data -> m ∈ ms -> identity symbol m = id -> type m = ty.

(** The server did not clear its log: the request was rejected or the
    response carries an error status. *)
Definition clear_failed (r : fetched object) : Prop :=
  match r with
  | Rejected _ => True
  | Responded ok _ _ => ok = false
  end.

(** The seen-set survives a failed clearing: it is the same in every state
    the operation goes through. *)
Definition keeps_seen_on_failure (srv : server request) (st : state) : Prop :=
  clear_failed (srv object PostClearNotifications) ->
  forall q,
    q ∈ (waiting_states srv clearNotifications st ++ [final srv clearNotifications st])%list ->
    seenNotifications q = seenNotifications st.

(** How many alerts a notification of type [ty] raises when it is first
    seen. *)
Definition due (ty : string) : nat := if String.eqb ty "error" then 1 else 0.

(** The alerts of the notification [id], of type [ty], are [n0] while it is
    unseen and [n0 + due ty] from then on. *)
Definition counted (id ty : string) (n0 : nat) (st : state) : Prop :=
  (id ∉ seenNotifications st -> length (alerts_of id st) = n0) /\
  (id ∈ seenNotifications st -> length (alerts_of id st) = n0 + due ty).

End Notifications.

(** ** The per-account profit tables ([market_data.js]) *)

Module Profit.
Import Js Async.

(** A row of a profit table as [renderPairProfits] builds it: the [tr] with
    its [data-pair-id], and the texts of the cells [profit-usdc-info-<id>]
    and [profit-crypto-info-<id>]. The two buttons of the row are not part of
    the model. *)
Record row : Type := { pair_id : string; symbol : string; usdc : string; crypto : string }.

(** An item of [#account-accordion] as [renderAccountInfo] builds it: the
    heading [heading-<key>] with its spans [.account-pnl-usdc] and
    [.account-pnl-crypto], and the table body [profit-body-<key>]. *)
Record account : Type := {
  key : string; pnl_usdc : string; pnl_crypto : string; rows : list row }.

Record page : Type := { accordion : list account; log : list effect }.

Inductive request : Type -> Type :=
| ResetProfit (pair_id : Z) : request object
| RemovePairProfit (pair_id : Z) : request object.

Definition emit (e : effect) (p : page) : page :=
  {| accordion := accordion p; log := (log p ++ [e])%list |}.

Definition with_accordion (doc : list account) (p : page) : page :=
  {| accordion := doc; log := log p |}.

(** The rows of the document in document order. *)
Definition all_rows (doc : list account) : list row := concat (rows <$> doc).

Definition is_pair (id : string) (r : row) : bool := String.eqb (pair_id r) id.

(** The first row of the document with this pair id: the row that
    [querySelector(`tr[data-pair-id="${id}"]`)] returns and whose cells
    [getElementById(`profit-usdc-info-${id}`)] and
    [getElementById(`profit-crypto-info-${id}`)] return. *)
Definition first_row (id : string) (doc : list account) : option row :=
  find (is_pair id) (all_rows doc).

Definition with_rows (rs : list row) (a : account) : account :=
  {| key := key a; pnl_usdc := pnl_usdc a; pnl_crypto := pnl_crypto a; rows := rs |}.

(** Applies [f] to the first row with this pair id, if there is one. *)
Fixpoint alter_first (id : string) (f : row -> row) (rs : list row) : option (list row) :=
  match rs with
  | [] => None
  | r :: rs' =>
      if is_pair id r then Some (f r :: rs')
      else cons r <$> alter_first id f rs'
  end.

Fixpoint alter_row (id : string) (f : row -> row) (doc : list account) : list account :=
  match doc with
  | [] => []
  | a :: rest =>
      match alter_first id f (rows a) with
      | Some rs => with_rows rs a :: rest
      | None => a :: alter_row id f rest
      end
  end.

Definition set_usdc (t : string) (r : row) : row :=
  {| pair_id := pair_id r; symbol := symbol r; usdc := t; crypto := crypto r |}.

Definition set_crypto (t : string) (r : row) : row :=
  {| pair_id := pair_id r; symbol := symbol r; usdc := usdc r; crypto := t |}.

(** *** [renderPairProfits] *)

(** One record of [/api/pair_profit]: its [pair_id], [symbol], [profit_usdc]
    and [profit_crypto]. *)
Record pair_profit : Type := {
  record_id : Z; record_symbol : string; profit_usdc : value; profit_crypto : value }.

(** [Number(v).toFixed(f)]; the text is "NaN" when [v] is not a number. *)
Definition number_text (v : value) (f : nat) : string :=
  match to_number v with
  | Some q => toFixed q f
  | None => "NaN"
  end.

(** The row built for a record. *)
Definition profit_row (pp : pair_profit) : row :=
  {| pair_id := pretty (record_id pp); symbol := record_symbol pp;
     usdc := number_text (profit_usdc pp) 4;
     crypto := number_text (profit_crypto pp) 6 |}.

(** [total += Number(p.field)] over the records; [None] is NaN. *)
Definition raw_total (field : pair_profit -> value) (l : list pair_profit) : option Q :=
  foldl (fun acc pp =>
           match acc, to_number (field pp) with
           | Some a, Some q => Some (a + q)%Q
           | _, _ => None
           end) (Some 0%Q) l.

Definition total_text (t : option Q) (f : nat) : string :=
  match t with
  | Some q => toFixed q f
  | None => "NaN"
  end.

(** The body of [Object.entries(grouped).forEach(([key, list]) => ...)]:
    fills the table body [profit-body-<key>] and writes the heading. *)
Fixpoint render_group (k : string) (l : list pair_profit) (doc : list account)
  : list account :=
  match doc with
  | [] => []
  | a :: rest =>
      if String.eqb (key a) k
      then {| key := key a;
              pnl_usdc := total_text (raw_total profit_usdc l) 4;
              pnl_crypto := total_text (raw_total profit_crypto l) 6;
              rows := profit_row <$> l |} :: rest
      else a :: render_group k l rest
  end.

(** [renderPairProfits(grouped)] *)
Definition renderPairProfits (grouped : list (string * list pair_profit))
    (doc : list account) : list account :=
  foldl (fun d g => render_group g.1 g.2 d) doc grouped.

(** *** [resetProfit] *)

(** [[`profit-usdc-info-${pairId}`, `profit-crypto-info-${pairId}`].forEach(id =>
    { const el = document.getElementById(id); if (el) el.innerText = '0.0'; })] *)
Definition zero_cells (id : string) (doc : list account) : list account :=
  alter_row id (set_crypto "0.0") (alter_row id (set_usdc "0.0") doc).

Definition on_reset (pairId : Z) (r : fetched object) (p : page) : page :=
  match r with
  | Rejected reason => emit (ConsoleError ("Reset error " +:+ reason)) p
  | Responded _ _ None => emit (ConsoleError "Reset error Unexpected token in JSON") p
  | Responded _ _ (Some resp) =>
      if is_str "success" (get resp "status")
      then with_accordion (zero_cells (pretty pairId) (accordion p)) p
      else emit (Alert "Failed to reset profit") p
  end.

(** [resetProfit(pairId)]; [confirmed] is the answer to the [confirm]
    dialog. *)
Definition resetProfit (confirmed : bool) (pairId : Z) : task request page unit :=
  if confirmed
  then Await (ResetProfit pairId) (fun r p => (on_reset pairId r p, Fulfilled tt))
  else Fulfilled tt.

(** *** [removePairProfit] *)

Definition has_row (id : string) (a : account) : bool := existsb (is_pair id) (rows a).

(** [row.remove()] within the rows of a table body. *)
Fixpoint remove_first (id : string) (rs : list row) : list row :=
  match rs with
  | [] => []
  | r :: rs' => if is_pair id r then rs' else r :: remove_first id rs'
  end.

(** Removes the first row of the document with this pair id: the table body
    it was in (after the removal) and the document (after the removal). *)
Fixpoint remove_row (id : string) (doc : list account) : option (account * list account) :=
  match doc with
  | [] => None
  | a :: rest =>
      if has_row id a then
        let a' := with_rows (remove_first id (rows a)) a in
        Some (a', a' :: rest)
      else
        match remove_row id rest with
        | Some (a', rest') => Some (a', a :: rest')
        | None => None
        end
  end.

(** [parseFloat(t) || 0] *)
Definition number_or_0 (t : string) : Q := default 0%Q (parseFloat t).

(** The loop [tbody.querySelectorAll('tr').forEach(rw => ...)] for one of the
    two totals: each row adds the number its cell shows, the cell being looked
    up in the document by its id. *)
Definition total (cell : row -> string) (doc : list account) (rs : list row) : Q :=
  foldl (fun acc rw =>
           match first_row (pair_id rw) doc with
           | Some r => (acc + number_or_0 (cell r))%Q
           | None => acc
           end) 0%Q rs.

(** Writes the two spans of the heading [#heading-<key>]. *)
Fixpoint set_heading (k u c : string) (doc : list account) : list account :=
  match doc with
  | [] => []
  | a :: rest =>
      if String.eqb (key a) k
      then {| key := key a; pnl_usdc := u; pnl_crypto := c; rows := rows a |} :: rest
      else a :: set_heading k u c rest
  end.

(** The [if (resp.status === 'success') { ... }] of [removePairProfit]. *)
Definition remove_and_recompute (id : string) (doc : list account) : list account :=
  match remove_row id doc with
  | None => doc
  | Some (tbody, doc') =>
      set_heading (key tbody)
        (toFixed (total usdc doc' (rows tbody)) 4)
        (toFixed (total crypto doc' (rows tbody)) 6) doc'
  end.

Definition on_remove (pairId : Z) (r : fetched object) (p : page) : page :=
  match r with
  | Rejected reason => emit (ConsoleError ("Remove error " +:+ reason)) p
  | Responded _ _ None => emit (ConsoleError "Remove error Unexpected token in JSON") p
  | Responded _ _ (Some resp) =>
      emit Refresh
        (if is_str "success" (get resp "status")
         then with_accordion (remove_and_recompute (pretty pairId) (accordion p)) p
         else emit (Alert "Failed to remove profit record") p)
  end.

(** [removePairProfit(pairId)] *)
Definition removePairProfit (confirmed : bool) (pairId : Z) : task request page unit :=
  if confirmed
  then Await (RemovePairProfit pairId) (fun r p => (on_remove pairId r p, Fulfilled tt))
  else Fulfilled tt.

(** The sum of the numbers a list of rows shows in one of its columns. *)
Definition sum_of (cell : row -> string) (rs : list row) : Q :=
  foldl (fun acc r => (acc + number_or_0 (cell r))%Q) 0%Q rs.

(** What the heading of an account shows. *)
Definition heading_of (a : account) : string * string * string :=
  (key a, pnl_usdc a, pnl_crypto a).

(** A row with both profit cells reset. *)
Definition zeroed (r : row) : row :=
  {| pair_id := pair_id r; symbol := symbol r; usdc := "0.0"; crypto := "0.0" |}.

(** The text shows a number that has at most [f] decimals. *)
Definition shows_decimals (f : nat) (t : string) : Prop :=
  exists z : Z, (number_or_0 t == inject_Z z / inject_Z (10 ^ Z.of_nat f))%Q.

(** Element ids are unique: no two rows of the document share a pair id and
    no two accounts share a key. *)
Definition well_formed (doc : list account) : Prop :=
  NoDup (pair_id <$> all_rows doc) /\ NoDup (key <$> doc).

End Profit.

(** ** The profit ledger (the trades module) *)

Module Ledger.
Import Js Async.

(** One trade of the ledger as the server sends it. *)
Record entry : Type := {
  timestamp : value; symbol : value; exchange : value; trading_mode : value;
  buy_price : value; sell_price : value; amount : value; profit_usdt : value }.

(** The body of [/api/profit_log_entries]; [entries] is [None] when the
    field is missing or [null]. *)
Record ledger_page : Type := {
  error : value;
  entries : option (list entry);
  total_pages : value;
  current_page : value }.

Inductive request : Type -> Type :=
| ProfitLogEntries (page : Q) (per_page : Z) (timeframe sort : string) : request ledger_page.

(** A table cell: the value interpolated into it, or a timestamp shown by
    [new Date(...).toLocaleString()] in the locale of the browser. *)
Inductive cell : Type :=
| Text (v : value)
| LocalTime (timestamp : value).

(** A row of [#profit-log-body]. *)
Inductive row : Type :=
| ErrorRow (error : value)              (* Error loading data: {error} *)
| LoadFailed                            (* Error loading data. See console. *)
| NoEntries                             (* No profit/loss entries found. *)
| Trade (cells : list cell) (profit_class : string).

(** An item of [#pagination-controls]: the classes of the [li] and the text
    of its link. The click listeners are not part of the model. *)
Record control : Type := { caption : value; classes : list string }.

(** The module-level cursor, the rows of the table body and the pagination
    controls ([None] when the page lacks the element) and the console. *)
Record view : Type := {
  currentPage : Q;
  currentTimeframe : string;
  currentSort : string;
  tbody : option (list row);
  controls : option (list control);
  console : list string }.

Definition itemsPerPage : Z := 20.

(** [typeof v === 'number' ? v.toFixed(f) : 'N/A'] *)
Definition fixed_or_na (v : value) (f : nat) : string :=
  match v with Num q => toFixed q f | _ => "N/A" end.

(** [v || 'N/A'] *)
Definition or_na (v : value) : value := if truthy v then v else Str "N/A".

(** The row built for one entry. *)
Definition trade_row (e : entry) : row :=
  let profit := fixed_or_na (profit_usdt e) 2 in
  Trade
    [ if truthy (timestamp e) then LocalTime (timestamp e) else Text (Str "N/A");
      Text (or_na (symbol e));
      Text (or_na (exchange e));
      Text (or_na (trading_mode e));
      Text (Str (fixed_or_na (buy_price e) 4));
      Text (Str (fixed_or_na (sell_price e) 4));
      Text (Str (fixed_or_na (amount e) 6));
      Text (Str profit) ]
    (match parseFloat profit with
     | Some q => if Qle_bool 0 q then "text-success" else "text-danger"
     | None => "text-danger"
     end).

Definition disabled_if (b : bool) : list string :=
  if b then ["page-item"; "disabled"] else ["page-item"].

(** [updatePaginationControls(totalPages, currentPage)] on the children of
    [#pagination-controls]. *)
Definition updatePaginationControls (totalPages currentPage : value)
    (old : option (list control)) : option (list control) :=
  match old with
  | None => None
  | Some _ =>
      if le_num totalPages 1 then Some []
      else
        Some
          [ {| caption := Str "Previous";
               classes := disabled_if (negb (truthy currentPage) || is_int 1 currentPage) |};
            {| caption := currentPage; classes := ["page-item"; "active"] |};
            {| caption := Str "Next";
               classes := disabled_if (negb (truthy currentPage)
                                       || strict_eq currentPage totalPages) |} ]
  end.

Definition with_tbody (rows : list row) (v : view) : view :=
  {| currentPage := currentPage v; currentTimeframe := currentTimeframe v;
     currentSort := currentSort v; tbody := (fun _ => rows) <$> tbody v;
     controls := controls v; console := console v |}.

Definition with_controls (cs : option (list control)) (v : view) : view :=
  {| currentPage := currentPage v; currentTimeframe := currentTimeframe v;
     currentSort := currentSort v; tbody := tbody v;
     controls := cs; console := console v |}.

Definition log_error (text : string) (v : view) : view :=
  {| currentPage := currentPage v; currentTimeframe := currentTimeframe v;
     currentSort := currentSort v; tbody := tbody v;
     controls := controls v; console := (console v ++ [text])%list |}.

(** The [.then(data => ...)] of [loadProfitLogData]. *)
Definition on_ledger_page (data : ledger_page) (v : view) : view :=
  if truthy (error data) then
    with_tbody [ErrorRow (error data)] (log_error "Error loading profit log data:" v)
  else
    match tbody v with
    | None => log_error "profit-log-body element not found" v
    | Some _ =>
        match entries data with
        | None | Some [] =>
            with_controls
              (updatePaginationControls
                 (if truthy (total_pages data) then total_pages data else Num 0)
                 (if truthy (current_page data) then current_page data else Num 1)
                 (controls v))
              (with_tbody [NoEntries] v)
        | Some es =>
            with_controls
              (updatePaginationControls (total_pages data) (current_page data) (controls v))
              (with_tbody (map trade_row es) v)
        end
    end.

(** [loadProfitLogData(page)] *)
Definition loadProfitLogData (page : Q) (v : view) : view * task request view unit :=
  ({| currentPage := page; currentTimeframe := currentTimeframe v;
      currentSort := currentSort v; tbody := tbody v;
      controls := controls v; console := console v |},
   Await (ProfitLogEntries page itemsPerPage (currentTimeframe v) (currentSort v))
     (fun r v' =>
        match r with
        | Responded _ _ (Some data) => (on_ledger_page data v', Fulfilled tt)
        | _ => (with_tbody [LoadFailed] (log_error "Error loading P/L data:" v'), Fulfilled tt)
        end)).

(** The view after the page [page] was asked for and the server answered. *)
Definition loaded (srv : server request) (page : Q) (v : view) : view :=
  final srv (loadProfitLogData page v).2 (loadProfitLogData page v).1.

Definition is_disabled (c : control) : Prop := "disabled" ∈ classes c.

(** Controls as the specification words them: Previous, the current page
    and Next, Previous disabled exactly on page 1 and Next exactly on the
    last page. *)
Definition as_specified (totalPages currentPage : value) (cs : option (list control)) : Prop :=
  exists prev cur next,
    cs = Some [prev; cur; next] /\
    caption prev = Str "Previous" /\ caption next = Str "Next" /\
    (is_disabled prev <-> is_int 1 currentPage = true) /\
    (is_disabled next <-> strict_eq currentPage totalPages = true).

End Ledger.

(** ** Sample pages *)

Module Fixtures.
Import Js Dom Async Dashboard.

Definition el (text : string) (classes : list string) : element :=
  {| innerText := text; classList := list_to_set classes |}.

(** Pair 7, BTCUSDC on binance/real, stopped: the button shows "Start" and
    the edit control is enabled. *)
Definition stopped_page : page :=
  {| elements := list_to_map
       [("action-7", el "Start" ["btn"; "btn-success"]);
        ("edit-action-7", el "Edit" ["btn"]);
        ("price-7", el "N/A" [])];
     rows := [{| data_symbol := "BTCUSDC"; data_id := Some "7" |}];
     market := None;
     priceCache := {["ETHUSDC" := Num 3000]};
     log := [] |}.

(** The same pair running: the button shows "Stop" and the edit control is
    disabled. *)
Definition running_page : page :=
  {| elements := list_to_map
       [("action-7", el "Stop" ["btn"; "btn-danger"]);
        ("edit-action-7", el "Edit" ["btn"; "disabled"]);
        ("price-7", el "50000.0000" [])];
     rows := [{| data_symbol := "BTCUSDC"; data_id := Some "7" |}];
     market := None;
     priceCache := {["BTCUSDC" := Num 50000]};
     log := [] |}.

(** A server that answers every request with the same outcome. *)
Definition always (r : forall B, fetched B) : server request :=
  fun B _ => r B.

Definition offline : server request :=
  always (fun B => Rejected "Failed to fetch").

(** A server that acknowledges the clearing of positions and reports the
    given body for everything else. *)
Definition answering (data : object) : server request :=
  fun B req =>
    match req in request B return fetched B with
    | ClearOpenPositions _ _ _ => Responded true "OK" (Some [("status", Str "success")])
    | Control _ _ => Responded true "OK" (Some data)
    | BotStatuses => Responded true "OK" (Some data)
    end.

(** The promise of a click on the button of pair 7 while it is stopped, and
    while it runs. *)
Definition start_7 : task request page object :=
  match toggleBot 7 "BTCUSDC" "binance" "real" (Some "action-7") stopped_page with
  | inr (_, t) => t
  | inl e => Failed e
  end.

Definition stop_7 : task request page object :=
  match toggleBot 7 "BTCUSDC" "binance" "real" (Some "action-7") running_page with
  | inr (_, t) => t
  | inl e => Failed e
  end.

(** A page with the notification dropdown, nothing seen yet. *)
Definition navbar : Notifications.state :=
  {| Notifications.seenNotifications := ∅;
     Notifications.count := Some "0";
     Notifications.list_items := Some [];
     Notifications.alerts := [];
     Notifications.console := [] |}.

Definition order_failed : Notifications.msg :=
  {| Notifications.timestamp := "2024-05-01 10:00:00";
     Notifications.type := "error";
     Notifications.message := "Order failed" |}.

(** The log the server keeps returning. *)
Definition rolling_log : Notifications.notifications :=
  [("BTCUSDC", [order_failed])].

(** A server that keeps returning [rolling_log] and answers the clearing of
    the notifications with an error status and a JSON body. *)
Definition failing_clear : server Notifications.request :=
  fun B req =>
    match req in Notifications.request B return fetched B with
    | Notifications.GetNotifications => Responded true "OK" (Some rolling_log)
    | Notifications.PostClearNotifications =>
        Responded false "INTERNAL SERVER ERROR" (Some [("error", Str "database is locked")])
    end.

(** The trades page before the first load. *)
Definition trades_page : Ledger.view :=
  {| Ledger.currentPage := 1; Ledger.currentTimeframe := "7d";
     Ledger.currentSort := "profit_usdt";
     Ledger.tbody := Some []; Ledger.controls := Some []; Ledger.console := [] |}.

Definition trade : Ledger.entry :=
  {| Ledger.timestamp := Str "2024-05-01T10:00:00"; Ledger.symbol := Str "BTCUSDC";
     Ledger.exchange := Str "binance"; Ledger.trading_mode := Str "real";
     Ledger.buy_price := Num 50000; Ledger.sell_price := Num 50500;
     Ledger.amount := Num (1 # 100); Ledger.profit_usdt := Num 5 |}.

(** A server that answers every request for a ledger page with the same
    body. *)
Definition ledger (data : Ledger.ledger_page) : server Ledger.request :=
  fun B req =>
    match req in Ledger.request B return fetched B with
    | Ledger.ProfitLogEntries _ _ _ _ => Responded true "OK" (Some data)
    end.

(** The second and last page of the ledger, with 18 entries. *)
Definition last_page : Ledger.ledger_page :=
  {| Ledger.error := Undefined; Ledger.entries := Some (replicate 18 trade);
     Ledger.total_pages := Num 2; Ledger.current_page := Num 2 |}.

(** A ledger that fits on one page. *)
Definition only_page : Ledger.ledger_page :=
  {| Ledger.error := Undefined; Ledger.entries := Some [trade];
     Ledger.total_pages := Num 1; Ledger.current_page := Num 1 |}.

(** The account binance/real with the profits of pair 7 and pair 8. *)
Definition accounts_page : Profit.page :=
  {| Profit.accordion :=
       [ {| Profit.key := "binance_real";
            Profit.pnl_usdc := "12.5000"; Profit.pnl_crypto := "0.000300";
            Profit.rows :=
              [ {| Profit.pair_id := "7"; Profit.symbol := "BTCUSDC";
                   Profit.usdc := "10.0000"; Profit.crypto := "0.000100" |};
                {| Profit.pair_id := "8"; Profit.symbol := "ETHUSDC";
                   Profit.usdc := "2.5000"; Profit.crypto := "0.000200" |} ] |};
         {| Profit.key := "bybit_real";
            Profit.pnl_usdc := "1.0000"; Profit.pnl_crypto := "0.000000";
            Profit.rows :=
              [ {| Profit.pair_id := "9"; Profit.symbol := "SOLUSDC";
                   Profit.usdc := "1.0000"; Profit.crypto := "0.000000" |} ] |} ];
     Profit.log := [] |}.

Definition success : object := [("status", Str "success")].

(** A server that confirms every reset and every removal. *)
Definition confirming : server Profit.request :=
  fun B req =>
    match req in Profit.request B return fetched B with
    | Profit.ResetProfit _ => Responded true "OK" (Some success)
    | Profit.RemovePairProfit _ => Responded true "OK" (Some success)
    end.

End Fixtures.

(** ** What the market overview can show *)

Module MarketTable.
Import Js.

(** The cached prices [updateMarketTable] has a text for: a falsy value,
    the string "N/A", a number. *)
Definition showable (v : value) : bool :=
  negb (truthy v) || is_str "N/A" v || is_number v.

End MarketTable.

(** ** What a poll of the notifications may raise *)

Module Alerts.
Import Js Async Notifications.

(** The alert a notification raises when it is seen for the first time. *)
Definition alert_of (symbol : string) (m : msg) : raised :=
  {| cause := identity symbol m; shown := line symbol m |}.

(** The identities of the notifications of a log. *)
Definition identities (data : notifications) : list string :=
  concat (map (fun e => map (identity e.1) e.2) data).

(** The state [st] was reached from [st0] by showing notifications of
    [data]: it has seen what [st0] had seen and identities of [data], and its
    new alerts are alerts of error notifications of [data] that [st0] had not
    seen, no two for the same identity. *)
Definition shown_from (data : notifications) (st0 st : state) : Prop :=
  (forall x, x ∈ seenNotifications st0 -> x ∈ seenNotifications st) /\
  (forall x, x ∈ seenNotifications st ->
             x ∈ seenNotifications st0 \/ x ∈ identities data) /\
  exists new,
    alerts st = (alerts st0 ++ new)%list /\
    NoDup (cause <$> new) /\
    forall a, a ∈ new ->
      (cause a ∈ seenNotifications st) /\
      (cause a ∉ seenNotifications st0) /\
      exists symbol m,
        delivers symbol m data /\ type m = "error" /\ a = alert_of symbol m.

End Alerts.

(** ** What [renderPairProfits] leaves in an account *)

Module Rendered.
Import Js Profit.

(** The account after its table body was filled from the records [l]. *)
Definition rendered (l : list pair_profit) (a : account) : account :=
  {| key := key a;
     pnl_usdc := total_text (raw_total profit_usdc l) 4;
     pnl_crypto := total_text (raw_total profit_crypto l) 6;
     rows := profit_row <$> l |}.

(** The records the response holds for an account key. *)
Definition group_of (k : string) (grouped : list (string * list pair_profit))
  : option (list pair_profit) :=
  snd <$> find (fun g => String.eqb g.1 k) grouped.

Definition render_account (grouped : list (string * list pair_profit)) (a : account)
  : account :=
  match group_of (key a) grouped with
  | Some l => rendered l a
  | None => a
  end.

End Rendered.

(** ** More built-ins: case, [parseInt], comparison *)

Module JsMore.
Import Js.

Definition upper_char (c : ascii) : ascii :=
  let n := N_of_ascii c in
  if (97 <=? n)%N && (n <=? 122)%N then ascii_of_N (n - 32) else c.

(** [s.toUpperCase()] *)
Fixpoint toUpperCase (s : string) : string :=
  match s with
  | EmptyString => EmptyString
  | String c s' => String (upper_char c) (toUpperCase s')
  end.

(** What [parseFloat] returns, the infinities included. *)
Inductive parsed : Type :=
| NaN
| Finite (q : Q)
| Infinite (negative : bool).

(** [parseFloat(s)]: a decimal literal at the head of [s], or [Infinity]
    with its sign. *)
Definition parseFloat_full (s : string) : parsed :=
  match parseFloat s with
  | Some q => Finite q
  | None =>
      match read_sign (trim_start s) with
      | (negative, rest) => if String.prefix "Infinity" rest then Infinite negative else NaN
      end
  end.

(** [isNaN(x)] *)
Definition isNaN (x : parsed) : bool :=
  match x with NaN => true | _ => false end.

(** [x <= 0] *)
Definition le_0 (x : parsed) : bool :=
  match x with
  | NaN => false
  | Finite q => Qle_bool q 0
  | Infinite negative => negative
  end.

Definition hex_digit_of (c : ascii) : option N :=
  let n := N_of_ascii c in
  if (48 <=? n)%N && (n <=? 57)%N then Some (n - 48)%N
  else if (97 <=? n)%N && (n <=? 102)%N then Some (n - 87)%N
  else if (65 <=? n)%N && (n <=? 70)%N then Some (n - 55)%N
  else None.

(** Reads the hexadecimal digits at the head of [s]. *)
Fixpoint read_hex (s : string) (acc : N) (len : nat) : N * nat :=
  match s with
  | String c s' =>
      match hex_digit_of c with
      | Some d => read_hex s' (acc * 16 + d)%N (S len)
      | None => (acc, len)
      end
  | EmptyString => (acc, len)
  end.

(** [parseInt(s)] with no radix: white space, a sign, then decimal digits,
    or hexadecimal digits after [0x]; [None] is NaN. *)
Definition parseInt (s : string) : option Z :=
  match read_sign (trim_start s) with
  | (negative, s1) =>
      let digits :=
        match s1 with
        | String "0" (String c s2) =>
            if Ascii.eqb c "x" || Ascii.eqb c "X" then read_hex s2 0 0
            else (read_digits s1 0 0).1
        | _ => (read_digits s1 0 0).1
        end in
      match digits with
      | (_, O) => None
      | (n, _) => Some (if negative then (- Z.of_N n)%Z else Z.of_N n)
      end
  end.

(** [a < b]: by code units when both are strings, as numbers otherwise. *)
Definition lt (a b : value) : bool :=
  match a, b with
  | Str s, Str t => String.ltb s t
  | _, _ =>
      match to_number a, to_number b with
      | Some x, Some y => negb (Qle_bool y x)
      | _, _ => false
      end
  end.

End JsMore.

(** ** The search box of the pairs table ([scripts.js]) *)

Module PairSearch.
Import Js JsMore.

(** A row of [#pairs-table]: the text of its first cell ([None] when the
    row has no cell) and its [style.display]. *)
Record pair_row : Type := { first_cell : option string; display : string }.

(** [rows.forEach(row => ...)]: the rows as the loop leaves them, and the
    exception that stopped it if there was one. *)
Fixpoint show_matching (query : string) (rows : list pair_row)
  : list pair_row * option string :=
  match rows with
  | [] => ([], None)
  | row :: rest =>
      match first_cell row with
      | None => (rows, Some "Cannot read properties of undefined (reading 'textContent')")
      | Some text =>
          let symbol := toUpperCase text in
          match show_matching query rest with
          | (rest', r) =>
              ({| first_cell := first_cell row;
                  display := if includes symbol query then "" else "none" |} :: rest', r)
          end
      end
  end.

(** [searchPair()]; [input] is the value of [#pair-search] ([None] when the
    page has no such element). *)
Definition searchPair (input : option string) (rows : list pair_row)
  : list pair_row * option string :=
  match input with
  | None => (rows, Some "Cannot read properties of null (reading 'value')")
  | Some v => show_matching (toUpperCase v) rows
  end.

End PairSearch.

(** ** The validation of the settings form (the settings module) *)

Module Settings.
Import Js JsMore.

(** [value <= 0 || isNaN(value)] *)
Definition not_positive (x : parsed) : bool := le_0 x || isNaN x.

(** The [submit] listener [validateSettingsForm] installs. [selected] is the
    number of selected options of [#selected_pairs] ([None] when the page has
    no such element); [buy], [sell] and [amount] are the values of the inputs
    whose names start with [buy_percentage], [sell_percentage] and [amount].
    [inl]: the listener throws; [inr (Some message)]: it alerts and prevents
    the submission; [inr None]: the form is submitted. *)
Definition on_submit (selected : option nat) (buy sell amount : list string)
  : string + option string :=
  match selected with
  | None => inl "Cannot read properties of null (reading 'selectedOptions')"
  | Some n =>
      inr (if Nat.eqb n 0 then Some "Please select at least one trading pair."
           else if existsb (fun s => isNaN (parseFloat_full s)) buy
           then Some "Buy percentage must be a valid number for all pairs."
           else if existsb (fun s => not_positive (parseFloat_full s)) sell
           then Some "Sell percentage must be positive for all pairs."
           else if existsb (fun s => not_positive (parseFloat_full s)) amount
           then Some "Amount must be positive for all pairs."
           else None)
  end.

(** A number above zero. *)
Definition positive (x : parsed) : Prop :=
  match x with
  | Finite q => (0 < q)%Q
  | Infinite negative => negative = false
  | NaN => False
  end.

End Settings.

(** ** The periodic refresh of the dashboard ([updateData]) *)

Module Overview.
Import Js Dom Async Dashboard.

(** The body of the loop [for (const symbol in data.prices)] of
    [updateData]: rows without [data-id] and missing cells are skipped
    silently. *)
Definition refresh_price (prices : object) (p : page) (symbol : string) : page :=
  match query_row symbol (rows p) with
  | None => p
  | Some row =>
      match given (data_id row) with
      | None => p
      | Some id =>
          match getElementById ("price-" +:+ id) p with
          | Some _ =>
              update ("price-" +:+ id) (set_innerText (price_text (get prices symbol))) p
          | None => p
          end
      end
  end.

(** [if (data.prices) { for (const symbol in data.prices) ... }] *)
Definition refresh_prices (prices : option object) (p : page) : page :=
  match prices with
  | Some o => foldl (refresh_price o) p (keys o)
  | None => p
  end.

(** The body of the loop
    [for (const [symbol, running] of Object.entries(data.trade_status))]:
    the [data-id] is not tested, a missing one reads [action-null]. *)
Definition refresh_status (p : page) (entry : string * value) : page :=
  match query_row entry.1 (rows p) with
  | None => p
  | Some row =>
      let id := default "null" (data_id row) in
      match getElementById ("action-" +:+ id) p with
      | None => p
      | Some _ =>
          update ("edit-action-" +:+ id) (set_disabled entry.2)
            (update ("action-" +:+ id) (show_running entry.2) p)
      end
  end.

(** [if (data.trade_status) { ... }] on the page; the assignment to
    [window.currentTradeStatus] is outside this state. *)
Definition refresh_trade_status (trade_status : option object) (p : page) : page :=
  match trade_status with
  | Some o => foldl refresh_status p o
  | None => p
  end.

End Overview.

(** ** The page links of the ledger (the trades module) *)

Module Paging.
Import Js JsMore Async Ledger.

(** The click listener of Previous:
    [if (currentPage > 1) loadProfitLogData(currentPage - 1)]; the page it
    asks for, if it asks. *)
Definition previous_target (currentPage : value) : option Q :=
  match to_number currentPage with
  | Some q => if negb (Qle_bool q 1) then Some (q - 1)%Q else None
  | None => None
  end.

(** The click listener of Next:
    [if (currentPage < totalPages) loadProfitLogData(currentPage + 1)]; the
    argument of the call, if it calls: a string page number is
    concatenated with "1". *)
Definition next_target (totalPages currentPage : value) : option value :=
  if lt currentPage totalPages then
    match currentPage with
    | Str s => Some (Str (s +:+ "1"))
    | _ => (fun q => Num (q + 1)) <$> to_number currentPage
    end
  else None.

End Paging.

(** ** The theme switch ([scripts.js]) *)

Module Theme.
Import Js Async.

(** The body of [/toggle_theme]. *)
Record theme_body : Type := { theme : string }.

Inductive request : Type -> Type :=
| ToggleTheme : request theme_body.

(** The classes of the [html] element, the class name of [#theme-icon]
    and the label next to the icon in [.theme-toggle] ([None] when the page
    lacks the element), and the console. *)
Record chrome : Type := {
  html : gset string;
  icon : option string;
  toggle : option (string * string);
  console : list string }.

Definition icon_class (t : string) : string :=
  "bi " +:+ (if String.eqb t "dark" then "bi-sun-fill" else "bi-moon-fill") +:+ " me-1".

(** ASCII white space as the DOM has it: tab, line feed, form feed,
    carriage return, space. *)
Definition is_ascii_whitespace (c : ascii) : bool :=
  match N_of_ascii c with
  | 9%N | 10%N | 12%N | 13%N | 32%N => true
  | _ => false
  end.

(** A string [classList.add] takes: not empty, no white space. *)
Fixpoint is_token_tail (s : string) : bool :=
  match s with
  | EmptyString => true
  | String c s' => negb (is_ascii_whitespace c) && is_token_tail s'
  end.

Definition is_token (s : string) : bool :=
  negb (String.eqb s "") && is_token_tail s.

(** The [.then(data => ...)] with its [.catch]. *)
Definition on_theme (r : fetched theme_body) (c : chrome) : chrome :=
  match r with
  | Responded _ _ (Some data) =>
      let cleared := html c ∖ {["light"]} ∖ {["dark"]} in
      if is_token (theme data) then
        let with_icon := (fun _ => icon_class (theme data)) <$> icon c in
        {| html := {[theme data]} ∪ cleared;
           icon := match toggle c with
                   | Some _ => Some (icon_class (theme data))
                   | None => with_icon
                   end;
           toggle := (fun _ => (icon_class (theme data),
                                if String.eqb (theme data) "dark" then "Light" else "Dark"))
                     <$> toggle c;
           console := console c |}
      else
        {| html := cleared; icon := icon c; toggle := toggle c;
           console := (console c ++ ["Theme toggle failed"])%list |}
  | _ =>
      {| html := html c; icon := icon c; toggle := toggle c;
         console := (console c ++ ["Theme toggle failed"])%list |}
  end.

(** [toggleTheme()] *)
Definition toggleTheme : task request chrome unit :=
  Await ToggleTheme (fun r c => (on_theme r c, Fulfilled tt)).

End Theme.

(** ** Resetting every pair of an account ([resetExchangeProfit]) *)

Module ExchangeReset.
Import Js JsMore Async Profit.

(** The rows [document.querySelectorAll(`#profit-body-${key} tr`)]
    returns. *)
Definition body_rows (k : string) (doc : list account) : list row :=
  concat (rows <$> filter (fun a => key a = k) doc).

(** The calls [resetProfit(parseInt(pairId))] the loop over these rows makes,
    in order; every call shows a [confirm] dialog, [answers] are the answers
    given to these dialogs in order (a dialog without an answer counts as
    dismissed). A row without a pair id is skipped. [None]: some pair id is
    not an integer, the script then posts [pair_id: null], which is no
    request of this model. *)
Fixpoint reset_calls (answers : list bool) (rs : list row)
  : option (list (task request page unit)) :=
  match rs with
  | [] => Some []
  | r :: rest =>
      if String.eqb (pair_id r) "" then reset_calls answers rest
      else
        match parseInt (pair_id r) with
        | None => None
        | Some pairId =>
            cons (resetProfit (hd false answers) pairId)
              <$> reset_calls (tl answers) rest
        end
  end.

(** [resetExchangeProfit(key)]: the promise chains it starts. *)
Definition resetExchangeProfit (k : string) (answers : list bool) (doc : list account)
  : option (list (task request page unit)) :=
  reset_calls answers (body_rows k doc).

(** The page after the chains have settled in the order [order]. *)
Definition settle_all (srv : server request) (order : list (task request page unit))
    (p : page) : page :=
  foldl (fun q t => final srv t q) p order.

(** The document with every row of the account [k] reset. *)
Definition zero_account (k : string) (doc : list account) : list account :=
  (fun a => if String.eqb (key a) k then with_rows (zeroed <$> rows a) a else a) <$> doc.

End ExchangeReset.

(** ** The table of open positions ([renderOpenPositions]) *)

Module Positions.
Import Js JsMore.

(** One open position of [/api/open_positions]: [current_pnl] is a number
    or [null] ([None]). *)
Record position : Type := {
  symbol : string; exchange : string; trading_mode : string;
  quantity : value; buy_price : value; current_price : value;
  current_pnl : option Q }.

(** [`${pos.symbol}|${pos.exchange}`] *)
Definition position_key (pos : position) : string :=
  symbol pos +:+ "|" +:+ exchange pos.

(** [if (!grouped[key]) grouped[key] = []; grouped[key].push(pos)] on the
    entries of [grouped] in enumeration order. *)
Fixpoint push_group (k : string) (pos : position) (grouped : list (string * list position))
  : list (string * list position) :=
  match grouped with
  | [] => [(k, [pos])]
  | (k', ps) :: rest =>
      if String.eqb k' k then (k', (ps ++ [pos])%list) :: rest
      else (k', ps) :: push_group k pos rest
  end.

(** [Object.entries(grouped)] after [list.forEach(pos => ...)]. *)
Definition group (l : list position) : list (string * list position) :=
  foldl (fun grouped pos => push_group (position_key pos) pos grouped) [] l.

(** [s.split(sep)] for a separator of one character. *)
Fixpoint split (sep : ascii) (s : string) : list string :=
  match s with
  | EmptyString => [EmptyString]
  | String c s' =>
      if Ascii.eqb c sep then EmptyString :: split sep s'
      else
        match split sep s' with
        | w :: ws => String c w :: ws
        | [] => [String c EmptyString]
        end
  end.

Definition is_alnum (c : ascii) : bool :=
  let n := N_of_ascii c in
  ((48 <=? n)%N && (n <=? 57)%N) || ((65 <=? n)%N && (n <=? 90)%N)
  || ((97 <=? n)%N && (n <=? 122)%N).

(** [s.replace(/[^a-zA-Z0-9]/g, '')] *)
Fixpoint keep_alnum (s : string) : string :=
  match s with
  | EmptyString => EmptyString
  | String c s' => if is_alnum c then String c (keep_alnum s') else keep_alnum s'
  end.

(** [const [symbol, exchange] = key.split('|')]; a missing part reads
    "undefined" where it is interpolated. *)
Definition key_parts (k : string) : string * string :=
  match split "|" k with
  | s :: e :: _ => (s, e)
  | [s] => (s, "undefined")
  | [] => ("undefined", "undefined")
  end.

(** [`pos-group-${symbol.replace(/[^a-zA-Z0-9]/g, '')}-${exchange}`]. The
    class of a group is read as one class name: the exchange of a position
    is a name without white space or punctuation. *)
Definition group_class (k : string) : string :=
  "pos-group-" +:+ keep_alnum (key_parts k).1 +:+ "-" +:+ (key_parts k).2.

(** [positions.reduce((s, p) => s + Number(p.quantity), 0)]; [None] is
    NaN. *)
Definition total_quantity (ps : list position) : option Q :=
  foldl (fun s p =>
           match s, to_number (quantity p) with
           | Some a, Some q => Some (a + q)%Q
           | _, _ => None
           end) (Some 0%Q) ps.

(** [positions.reduce((s, p) => s + (p.current_pnl > 0 ? p.current_pnl : 0), 0)] *)
Definition total_profit (ps : list position) : Q :=
  foldl (fun s p =>
           match current_pnl p with
           | Some q => if negb (Qle_bool q 0) then (s + q)%Q else (s + 0)%Q
           | None => (s + 0)%Q
           end) 0%Q ps.

(** [positions.reduce((s, p) => s + (p.current_pnl < 0 ? p.current_pnl : 0), 0)] *)
Definition total_loss (ps : list position) : Q :=
  foldl (fun s p =>
           match current_pnl p with
           | Some q => if negb (Qle_bool 0 q) then (s + q)%Q else (s + 0)%Q
           | None => (s + 0)%Q
           end) 0%Q ps.

(** [modes.length === 1 ? modes[0] : 'mixed'] for the distinct trading
    modes of the group. *)
Definition mode_label (ps : list position) : string :=
  match ps with
  | [] => "mixed"
  | p :: rest =>
      if forallb (fun p' => String.eqb (trading_mode p') (trading_mode p)) rest
      then trading_mode p else "mixed"
  end.

(** [v !== null && v !== undefined ? Number(v).toFixed(4) : 'N/A'] *)
Definition price_cell (v : value) : string :=
  match v with
  | Null | Undefined => "N/A"
  | _ => Profit.number_text v 4
  end.

(** A row of [#open-positions-body]: the header of a group with its
    [data-group-key], the texts of its cells and whether its toggle shows the
    chevron up; or the row of a position with its classes and the texts of
    its cells. *)
Inductive prow : Type :=
| Header (group_key : string) (cells : list string) (chevron_up : bool)
| Detail (classes : list string) (cells : list string).

(** [row.classList.contains(c)] *)
Definition has_class (c : string) (r : prow) : bool :=
  match r with
  | Header _ _ _ => bool_decide (c ∈ ["table-secondary"; "group-header"])
  | Detail classes _ => bool_decide (c ∈ classes)
  end.

(** The groups that are open before the table is drawn again:
    [tbody.querySelectorAll('tr.group-header').forEach(tr => { ... })]. *)
Definition expanded_groups (tbody : list prow) : gset string :=
  foldl (fun expanded tr =>
           match tr with
           | Header k _ _ =>
               match find (has_class k) tbody with
               | Some row => if has_class "show" row then {[k]} ∪ expanded else expanded
               | None => expanded
               end
           | Detail _ _ => expanded
           end) ∅ tbody.

Definition header_row (expanded : gset string) (k : string) (ps : list position) : prow :=
  Header (group_class k)
    [ (key_parts k).1; (key_parts k).2; mode_label ps;
      match total_quantity ps with Some q => toFixed q 6 | None => "NaN" end;
      "-";
      price_cell (default Undefined (current_price <$> head ps));
      toFixed (total_profit ps) 2;
      toFixed (Qabs (total_loss ps)) 2 ]
    (bool_decide (group_class k ∈ expanded)).

Definition detail_row (expanded : gset string) (k : string) (p : position) : prow :=
  Detail
    (["collapse"; group_class k]
     ++ if bool_decide (group_class k ∈ expanded) then ["show"] else [])%list
    [ ""; ""; trading_mode p;
      Profit.number_text (quantity p) 6;
      Profit.number_text (buy_price p) 4;
      price_cell (current_price p);
      match current_pnl p with
      | Some q => if negb (Qle_bool q 0) then toFixed q 2 else "0.00"
      | None => "0.00"
      end;
      match current_pnl p with
      | Some q => if negb (Qle_bool 0 q) then toFixed (Qabs q) 2 else "0.00"
      | None => "0.00"
      end;
      "" ].

(** The rows drawn for one group. *)
Definition group_rows (expanded : gset string) (g : string * list position) : list prow :=
  header_row expanded g.1 g.2 :: (detail_row expanded g.1 <$> g.2).

(** [renderOpenPositions(list)] on the rows of [#open-positions-body]
    ([None] when the page has no such element). *)
Definition renderOpenPositions (l : list position) (tbody : option (list prow))
  : option (list prow) :=
  (fun old => concat (group_rows (expanded_groups old) <$> group l)) <$> tbody.

Definition remove_show (r : prow) : prow :=
  match r with
  | Header k cells _ => Header k cells false
  | Detail classes cells =>
      if bool_decide ("collapse" ∈ classes) && bool_decide ("show" ∈ classes)
      then Detail (filter (fun c => c ≠ "show") classes) cells
      else r
  end.

Definition add_show (k : string) (r : prow) : prow :=
  match r with
  | Detail classes cells =>
      if bool_decide (k ∈ classes) && negb (bool_decide ("show" ∈ classes))
      then Detail (classes ++ ["show"])%list cells
      else r
  | Header _ _ _ => r
  end.

(** The click listener of the toggle button of the header at position [i]
    of the table body. *)
Definition toggle_group (i : nat) (tbody : list prow) : list prow :=
  match tbody !! i with
  | Some (Header k cells _) =>
      let expanded :=
        match filter (fun r => has_class k r = true) tbody with
        | r :: _ => has_class "show" r
        | [] => false
        end in
      let collapsed := remove_show <$> tbody in
      if expanded then collapsed
      else <[i := Header k cells true]> (add_show k <$> collapsed)
  | _ => tbody
  end.

(** A row of a position that is shown open. *)
Definition open_row (r : prow) : bool :=
  match r with
  | Detail classes _ => bool_decide ("show" ∈ classes)
  | Header _ _ _ => false
  end.

Definition row_cells (r : prow) : list string :=
  match r with
  | Header _ cells _ => cells
  | Detail _ cells => cells
  end.

(** The shape of the rows [renderOpenPositions] draws: the key of a header
    and the second class of the row of a position start with "pos-group-",
    and the row of a position has the classes [collapse], that of its group
    and, when open, [show]. *)
Definition drawn_row (r : prow) : Prop :=
  match r with
  | Header k _ _ => exists x, k = "pos-group-" +:+ x
  | Detail classes _ =>
      exists x, classes = ["collapse"; "pos-group-" +:+ x]
                \/ classes = ["collapse"; "pos-group-" +:+ x; "show"]
  end.

(** What a position adds to the profit and to the loss of its group: its
    [current_pnl] when positive, the absolute value of it when negative. *)
Definition gain (p : position) : Q :=
  match current_pnl p with
  | Some q => if negb (Qle_bool q 0) then q else 0%Q
  | None => 0%Q
  end.

Definition loss (p : position) : Q :=
  match current_pnl p with
  | Some q => if negb (Qle_bool 0 q) then Qabs q else 0%Q
  | None => 0%Q
  end.

End Positions.

(** ** More sample pages *)

Module Samples.
Import Js Async.

(** The body a control request of an unknown pair is answered with. *)
Definition invalid_pair : object := [("status", Str "Invalid pair")].

(** A page without the notification dropdown, the badge at 3. *)
Definition bare_page : Notifications.state :=
  {| Notifications.seenNotifications := ∅;
     Notifications.count := Some "3";
     Notifications.list_items := None;
     Notifications.alerts := [];
     Notifications.console := [] |}.

(** The profits of the account binance/real as [/api/data] reports them. *)
Definition binance_profits : list Profit.pair_profit :=
  [ {| Profit.record_id := 7; Profit.record_symbol := "BTCUSDC";
       Profit.profit_usdc := Num 10; Profit.profit_crypto := Num (1 # 10000) |};
    {| Profit.record_id := 8; Profit.record_symbol := "ETHUSDC";
       Profit.profit_usdc := Num (25 # 10); Profit.profit_crypto := Num (2 # 10000) |} ].

(** The rows of the table of pairs. *)
Definition pair_rows : list PairSearch.pair_row :=
  [ {| PairSearch.first_cell := Some "BTCUSDC"; PairSearch.display := "" |};
    {| PairSearch.first_cell := Some "ETHUSDC"; PairSearch.display := "none" |} ].

(** A server that reports the given theme, and a page in the light
    theme. *)
Definition theme_server (t : string) : server Theme.request :=
  fun B req =>
    match req in Theme.request B return fetched B with
    | Theme.ToggleTheme => Responded true "OK" (Some {| Theme.theme := t |})
    end.

Definition light_chrome : Theme.chrome :=
  {| Theme.html := {["light"]};
     Theme.icon := Some "bi bi-moon-fill me-1";
     Theme.toggle := Some ("bi bi-moon-fill me-1", "Dark");
     Theme.console := [] |}.

(** Two positions of BTCUSDC on binance, one of them at a loss, and one
    position of ETHUSDC on bybit. *)
Definition open_positions : list Positions.position :=
  [ {| Positions.symbol := "BTCUSDC"; Positions.exchange := "binance";
       Positions.trading_mode := "real";
       Positions.quantity := Num (1 # 100); Positions.buy_price := Num 50000;
       Positions.current_price := Num 50500; Positions.current_pnl := Some 5%Q |};
    {| Positions.symbol := "ETHUSDC"; Positions.exchange := "bybit";
       Positions.trading_mode := "paper";
       Positions.quantity := Num 1; Positions.buy_price := Num 3000;
       Positions.current_price := Null; Positions.current_pnl := None |};
    {| Positions.symbol := "BTCUSDC"; Positions.exchange := "binance";
       Positions.trading_mode := "real";
       Positions.quantity := Num (2 # 100); Positions.buy_price := Num 51000;
       Positions.current_price := Num 50500; Positions.current_pnl := Some (- (10 # 1))%Q |} ].

(** The table of these positions with the group of ETHUSDC open. *)
Definition positions_table : list Positions.prow :=
  [ Positions.Header "pos-group-BTCUSDC-binance"
      ["BTCUSDC"; "binance"; "real"; "0.030000"; "-"; "50500.0000"; "5.00"; "10.00"] false;
    Positions.Detail ["collapse"; "pos-group-BTCUSDC-binance"]
      [""; ""; "real"; "0.010000"; "50000.0000"; "50500.0000"; "5.00"; "0.00"; ""];
    Positions.Detail ["collapse"; "pos-group-BTCUSDC-binance"]
      [""; ""; "real"; "0.020000"; "51000.0000"; "50500.0000"; "0.00"; "10.00"; ""];
    Positions.Header "pos-group-ETHUSDC-bybit"
      ["ETHUSDC"; "bybit"; "paper"; "1.000000"; "-"; "N/A"; "0.00"; "0.00"] true;
    Positions.Detail ["collapse"; "pos-group-ETHUSDC-bybit"; "show"]
      [""; ""; "paper"; "1.000000"; "3000.0000"; "N/A"; "0.00"; "0.00"; ""] ].

End Samples.

(** * Properties *)

Example toFixed_samples :
Js.toFixed (12345 # 1000) 4 = "12.3450" /\
Js.toFixed (-(1 # 100000)) 4 = "-0.0000" /\
Js.toFixed (5 # 100000) 4 = "0.0001" /\
Js.toFixed 50000 4 = "50000.0000" /\
Js.toFixed (-(314159 # 100000)) 2 = "-3.14".
Proof. vm_compute. repeat split. Qed.

Example parseFloat_samples :
  Js.parseFloat "12.3450" = Some (123450 # 10000) /\
  Js.parseFloat "0.0" = Some (0 # 10) /\
  Js.parseFloat "-.5e1x" = Some (-((5 # 10) * 10))%Q /\
  Js.parseFloat "1." = Some (1 + 0 / 1)%Q /\
  Js.parseFloat "." = None /\
  Js.parseFloat "NaN" = None /\
  Js.parseFloat "  7e" = Some (7 + 0 / 1)%Q.
Proof. vm_compute. repeat split. Qed.

Example trim_samples :
Js.trim "  Start " = "Start" /\ Js.trim "Stop" = "Stop" /\ Js.trim " a b " = "a b".
Proof. vm_compute. repeat split. Qed.

Example includes_samples :
Js.includes (Js.toLowerCase "Invalid pair") "invalid" = true /\
Js.includes "ok" "invalid" = false.
Proof. vm_compute. repeat split. Qed.

(** ** Running a promise chain *)

Section Run.
Import Async.
Context {Rq : Type -> Type} {S A : Type}.
Implicit Types (srv : server Rq) (t : task Rq S A) (s : S).

Lemma requests_Await srv {B} (req : Rq B) (k : fetched B -> S -> S * task Rq S A) s :
  requests srv (Await req k) s
  = existT B req :: requests srv (k (srv B req) s).2 (k (srv B req) s).1.
Proof.
  unfold requests. simpl. destruct (k (srv B req) s) as [s' t']. simpl.
  by destruct (run srv t' s') as [[tr sf] r].
Qed.

Lemma waiting_states_Await srv {B} (req : Rq B) (k : fetched B -> S -> S * task Rq S A) s :
  waiting_states srv (Await req k) s
  = s :: waiting_states srv (k (srv B req) s).2 (k (srv B req) s).1.
Proof.
  unfold waiting_states. simpl. destruct (k (srv B req) s) as [s' t']. simpl.
  by destruct (run srv t' s') as [[tr sf] r].
Qed.

Lemma final_Await srv {B} (req : Rq B) (k : fetched B -> S -> S * task Rq S A) s :
  final srv (Await req k) s = final srv (k (srv B req) s).2 (k (srv B req) s).1.
Proof.
  unfold final. simpl. destruct (k (srv B req) s) as [s' t']. simpl.
  by destruct (run srv t' s') as [[tr sf] r].
Qed.

Lemma settled_Await srv {B} (req : Rq B) (k : fetched B -> S -> S * task Rq S A) s :
  settled srv (Await req k) s = settled srv (k (srv B req) s).2 (k (srv B req) s).1.
Proof.
  unfold settled. simpl. destruct (k (srv B req) s) as [s' t']. simpl.
  by destruct (run srv t' s') as [[tr sf] r].
Qed.

End Run.

(** ** The price cache *)

Section PriceCache.
Import Js Dom Async Dashboard.

Lemma spread_absent (o : object) (base : gmap string value) (symbol : string) :
  symbol ∉ keys o -> spread base o !! symbol = base !! symbol.
Proof.
  unfold spread, keys. revert base.
  induction o as [|[k v] o IH]; intros base Hk; simpl in *; [done|].
  apply not_elem_of_cons in Hk as [Hne Hk].
  rewrite IH by done. by apply lookup_insert_ne.
Qed.

Lemma spread_present (o : object) (base : gmap string value) (symbol : string) (v : value) :
  NoDup (keys o) -> (symbol, v) ∈ o -> spread base o !! symbol = Some v.
Proof.
  unfold spread, keys. revert base.
  induction o as [|[k w] o IH]; intros base Hnd Hin; simpl in *.
  - by apply elem_of_nil in Hin.
  - apply NoDup_cons in Hnd as [Hk Hnd].
    apply elem_of_cons in Hin as [Heq|Hin].
    + injection Heq as -> ->.
      fold (spread (<[k:=w]> base) o). rewrite spread_absent by done.
      apply lookup_insert_eq.
    + by apply IH.
Qed.

Lemma priceCache_push_symbol prices ts (p : page) symbol :
  priceCache (push_symbol prices ts p symbol) = priceCache p.
Proof.
  unfold push_symbol.
  destruct (query_row symbol (rows p)) as [row|]; [|done].
  destruct (given (data_id row)) as [id|]; [|done].
  destruct (getElementById ("price-" +:+ id) p);
    (match goal with |- context [match ?x with Some _ => _ | None => _ end] => destruct x end; done).
Qed.

Lemma priceCache_foldl_push prices ts (l : list string) (p : page) :
  priceCache (foldl (push_symbol prices ts) p l) = priceCache p.
Proof.
  revert p. induction l as [|s l IH]; intros p; simpl; [done|].
  by rewrite IH, priceCache_push_symbol.
Qed.

Lemma priceCache_redraw_market (p : page) : priceCache (redraw_market p) = priceCache p.
Proof.
  unfold redraw_market. destruct (market p) as [t|]; [|done].
  by destruct (updateMarketTable (priceCache p) t) as [t' [e|]].
Qed.

Lemma elements_redraw_market (p : page) : elements (redraw_market p) = elements p.
Proof.
  unfold redraw_market. destruct (market p) as [t|]; [|done].
  by destruct (updateMarketTable (priceCache p) t) as [t' [e|]].
Qed.

Lemma priceCache_on_price_update prices ts (p : page) :
  priceCache (on_price_update prices ts p) = spread (priceCache p) prices.
Proof.
  unfold on_price_update. by rewrite priceCache_redraw_market, priceCache_foldl_push.
Qed.

(** C5. A [price_update] message leaves the cached price of every symbol
    that is not in its [prices] exactly as it was: the cache changes only
    at the symbols the delta carries. *)
Theorem price_update_frame (prices : object) (ts : option object) (p : page) (symbol : string) :
  symbol ∉ keys prices ->
  priceCache (on_price_update prices ts p) !! symbol = priceCache p !! symbol.
Proof.
  intros Hk. rewrite priceCache_on_price_update. by apply spread_absent.
Qed.

(** The symbols of the delta take the value the delta carries. *)
Lemma price_update_present (prices : object) ts (p : page) symbol v :
  NoDup (keys prices) -> (symbol, v) ∈ prices ->
  priceCache (on_price_update prices ts p) !! symbol = Some v.
Proof.
  intros Hnd Hin. rewrite priceCache_on_price_update. by apply spread_present.
Qed.

End PriceCache.

Section PriceCacheWitness.
Import Js Dashboard Fixtures.

Lemma price_update_frame_witness :
  ("ETHUSDC" ∉ keys [("BTCUSDC", Num 50000)]) /\
  priceCache (on_price_update [("BTCUSDC", Num 50000)] None stopped_page) !! "ETHUSDC"
  = priceCache stopped_page !! "ETHUSDC".
Proof.
  assert (H : "ETHUSDC" ∉ keys [("BTCUSDC", Num 50000)]).
  { simpl. intros Hin. apply list_elem_of_In in Hin. simpl in Hin.
    destruct Hin as [Heq|[]]. discriminate Heq. }
  split; [exact H|].
  exact (price_update_frame [("BTCUSDC", Num 50000)] None stopped_page "ETHUSDC" H).
Defined.

End PriceCacheWitness.

(** ** Starting and stopping a bot *)

Section Toggle.
Import Js Dom Async Dashboard.

Lemma length_append (s t : string) :
  String.length (s +:+ t) = String.length s + String.length t.
Proof. induction s as [|c s IH]; [done|]. simpl. by rewrite IH. Qed.

Lemma edit_id_ne (b : string) : "edit-" +:+ b ≠ b.
Proof.
  intros Heq. apply (f_equal String.length) in Heq.
  rewrite length_append in Heq. simpl in Heq. lia.
Qed.

Lemma getElementById_update id f (p : page) id' :
  getElementById id' (update id f p)
  = if decide (id = id') then f <$> getElementById id p else getElementById id' p.
Proof. unfold getElementById, update; simpl. apply lookup_alter. Qed.

Lemma getElementById_update_ne id f (p : page) id' :
  id ≠ id' -> getElementById id' (update id f p) = getElementById id' p.
Proof. intros. rewrite getElementById_update. by case_decide. Qed.

Lemma getElementById_update_eq id f (p : page) :
  getElementById id (update id f p) = f <$> getElementById id p.
Proof. rewrite getElementById_update. by case_decide. Qed.

Lemma getElementById_emit e (p : page) id :
  getElementById id (emit e p) = getElementById id p.
Proof. done. Qed.

Lemma innerText_show_running v btn :
  innerText (show_running v btn) = if truthy v then "Stop" else "Start".
Proof.
  unfold show_running, classList_toggle.
  destruct v; simpl; repeat case_match; done.
Qed.

Lemma disabled_set_disabled v e :
  "disabled" ∈ classList (set_disabled v e) <-> truthy v = true.
Proof.
  unfold set_disabled. destruct (truthy v); simpl.
  - split; [done|]. intros _. apply elem_of_union. left. by apply elem_of_singleton.
  - split; [|discriminate]. intros [_ Hn]%elem_of_difference.
    exfalso. apply Hn. by apply elem_of_singleton.
Qed.

(** The [.catch] settles the promise as rejected with the error it caught. *)
Lemma toggle_catch_task btnId msg (p : page) :
  (toggle_catch btnId msg p).2 = Failed msg.
Proof. done. Qed.

(** The handler of the control response issues no further request. *)
Lemma on_control_settles id btnId r (p : page) :
  (exists data, (on_control id btnId r p).2 = Fulfilled data) \/
  (exists msg, (on_control id btnId r p).2 = Failed msg).
Proof.
  unfold on_control.
  destruct r as [reason|ok statusText [data|]]; simpl; eauto.
  - destruct ok; simpl; eauto.
    destruct (truthy (get data "status")); simpl; eauto.
    destruct (get data "status"); simpl; eauto.
    destruct (includes _ _); simpl; eauto.
  - destruct ok; simpl; eauto.
Qed.

(** C4. A toggle whose button shows "Start" issues the request that clears
    the open positions of the pair's symbol, exchange and mode, and issues the
    control request [{action: "start", pair_id}] only in the continuation of
    that request's response (never when it was rejected); a toggle whose
    button shows "Stop" issues the control request [{action: "stop", pair_id}]
    at once, with no clearing request before it. *)
Theorem toggle_request_order (pairId : Z) (symbol exchange mode : string)
    (btnId : option string) (p : page) (btn : element) :
  getElementById (button_id btnId pairId) p = Some btn ->
  (trim (innerText btn) = "Start" ->
   exists k,
     toggleBot pairId symbol exchange mode btnId p
     = inr (p, Await (ClearOpenPositions symbol exchange mode) k) /\
     (forall ok statusText body p',
        k (Responded ok statusText body) p'
        = (p', Await (Control "start" pairId) (on_control (button_id btnId pairId) btnId))) /\
     (forall reason p', (k (Rejected reason) p').2 = Failed reason) /\
     (forall srv : server request,
        requests srv (Await (ClearOpenPositions symbol exchange mode) k) p
        = existT _ (ClearOpenPositions symbol exchange mode) ::
          match srv _ (ClearOpenPositions symbol exchange mode) with
          | Rejected _ => []
          | Responded _ _ _ => [existT _ (Control "start" pairId)]
          end)) /\
  (trim (innerText btn) = "Stop" ->
   toggleBot pairId symbol exchange mode btnId p
   = inr (p, Await (Control "stop" pairId) (on_control (button_id btnId pairId) btnId)) /\
   (forall srv : server request,
      requests srv (Await (Control "stop" pairId) (on_control (button_id btnId pairId) btnId)) p
      = [existT _ (Control "stop" pairId)])).
Proof.
  intros Hbtn. split; intros Hlabel.
  - eexists. unfold toggleBot. rewrite Hbtn, Hlabel. simpl.
    split; [reflexivity|]. split; [done|]. split; [done|].
    intros srv. rewrite requests_Await. f_equal.
    destruct (srv object (ClearOpenPositions symbol exchange mode)) as [reason|ok st body];
      [done|]. simpl.
    rewrite requests_Await. f_equal.
    by destruct (on_control_settles (button_id btnId pairId) btnId
                   (srv object (Control "start" pairId)) p) as [[d ->]|[m ->]].
  - unfold toggleBot. rewrite Hbtn, Hlabel. simpl. split; [done|].
    intros srv. rewrite requests_Await. f_equal.
    by destruct (on_control_settles (button_id btnId pairId) btnId
                   (srv object (Control "stop" pairId)) p) as [[d ->]|[m ->]].
Qed.

(** The handler of the control response either takes the success path with
    the body of the response, or the [.catch] with the elements of the page
    as they were. *)
Lemma on_control_cases id btnId r (p : page) :
  (exists data, on_control id btnId r p = toggle_resolved id btnId data p) \/
  (exists msg p0, on_control id btnId r p = toggle_catch btnId msg p0 /\
                  elements p0 = elements p).
Proof.
  unfold on_control.
  destruct r as [reason|ok statusText [data|]]; simpl; eauto 6.
  - destruct ok; simpl; eauto 6.
    destruct (truthy (get data "status")); simpl; eauto 6.
    destruct (get data "status"); simpl; eauto 6.
    destruct (includes _ _); simpl; eauto 6.
  - destruct ok; simpl; eauto 6.
Qed.

Lemma toggle_resolved_label id btnId data (p : page) btn :
  getElementById id p = Some btn ->
  (id = button_id btnId 0 \/ given btnId = None) ->
  label id (toggle_resolved id btnId data p).1
  = Some (if truthy (get data "bot_is_running") then "Stop" else "Start").
Proof.
  intros Hbtn Hid. unfold toggle_resolved, label, button_id in *. simpl.
  destruct (given btnId) as [b|].
  - destruct Hid as [->|?]; [|done].
    rewrite getElementById_update_ne by apply edit_id_ne.
    rewrite getElementById_update_eq, Hbtn. simpl.
    by rewrite innerText_show_running.
  - rewrite getElementById_update_eq, Hbtn. simpl.
    by rewrite innerText_show_running.
Qed.

Lemma toggle_catch_keeps_button id btnId msg (p0 p : page) :
  elements p0 = elements p ->
  (id = button_id btnId 0 \/ given btnId = None) ->
  getElementById id (toggle_catch btnId msg p0).1 = getElementById id p.
Proof.
  intros Hel Hid. unfold toggle_catch, button_id in *. simpl.
  rewrite !getElementById_emit.
  destruct (given btnId) as [b|].
  - destruct Hid as [->|?]; [|done].
    rewrite getElementById_update_ne by apply edit_id_ne.
    unfold getElementById. by rewrite Hel.
  - unfold getElementById. by rewrite Hel.
Qed.

Lemma button_id_given btnId pairId :
  button_id btnId pairId = button_id btnId 0 \/ given btnId = None.
Proof. unfold button_id. destruct (given btnId); auto. Qed.

(** C2 (as the code has it). A toggle flips nothing when it is clicked: the
    page is unchanged while the clearing request and the control request are
    in flight. When the control response arrives and is accepted, the button
    shows the state the server reports in [bot_is_running]; when the toggle
    fails, the button is still what it was before the click. *)
Theorem toggle_waits_for_server (pairId : Z) (symbol exchange mode : string)
    (btnId : option string) (p : page) (btn : element) :
  getElementById (button_id btnId pairId) p = Some btn ->
  exists t,
    toggleBot pairId symbol exchange mode btnId p = inr (p, t) /\
    forall srv : server request,
      (forall q, q ∈ waiting_states srv t p -> q = p) /\
      match settled srv t p with
      | inr data =>
          label (button_id btnId pairId) (final srv t p)
          = Some (if truthy (get data "bot_is_running") then "Stop" else "Start")
      | inl _ => getElementById (button_id btnId pairId) (final srv t p) = Some btn
      end.
Proof.
  intros Hbtn.
  assert (Hctl : forall action (srv : server request),
    let t := Await (Control action pairId) (on_control (button_id btnId pairId) btnId) in
    (forall q, q ∈ waiting_states srv t p -> q = p) /\
    match settled srv t p with
    | inr data =>
        label (button_id btnId pairId) (final srv t p)
        = Some (if truthy (get data "bot_is_running") then "Stop" else "Start")
    | inl _ => getElementById (button_id btnId pairId) (final srv t p) = Some btn
    end).
  { intros action srv t. unfold t.
    rewrite waiting_states_Await, settled_Await, final_Await.
    destruct (on_control_cases (button_id btnId pairId) btnId
                (srv object (Control action pairId)) p)
      as [[data ->]|(msg & p0 & -> & Hel)].
    - split. { intros q Hq. by apply list_elem_of_singleton in Hq. }
      apply (toggle_resolved_label _ _ _ _ btn Hbtn), button_id_given.
    - split. { intros q Hq. by apply list_elem_of_singleton in Hq. }
      rewrite <- Hbtn.
      apply (toggle_catch_keeps_button _ _ _ p0 p Hel), button_id_given. }
  unfold toggleBot. rewrite Hbtn.
  eexists. split; [reflexivity|]. intros srv.
  destruct (String.eqb (trim (innerText btn)) "Start"); simpl; [|apply Hctl].
  rewrite waiting_states_Await, settled_Await, final_Await.
  destruct (srv object (ClearOpenPositions symbol exchange mode)) as [reason|ok st body].
  - split. { intros q Hq. by apply list_elem_of_singleton in Hq. }
    rewrite <- Hbtn.
    apply (toggle_catch_keeps_button _ _ _ p p eq_refl), button_id_given.
  - destruct (Hctl "start" srv) as [Hw Hs]. simpl.
    split; [|exact Hs].
    intros q Hq. apply elem_of_cons in Hq as [->|Hq]; [done|]. by apply Hw.
Qed.

End Toggle.

(** ** The edit control and the run state *)

Section EditInvariant.
Import Js Dom Async Dashboard.

(** Showing a run state on the button and the edit control of a pair makes
    the two agree. *)
Lemma shown_consistent v (btn edit : element) :
  (innerText (show_running v btn) = "Stop" -> "disabled" ∈ classList (set_disabled v edit)) /\
  (innerText (show_running v btn) = "Start" -> "disabled" ∉ classList (set_disabled v edit)).
Proof.
  rewrite innerText_show_running, disabled_set_disabled.
  destruct (truthy v); split; intros; done.
Qed.

(** Updating both controls of a pair makes that pair consistent. *)
Lemma update_pair_establishes v id (p : page) :
  edit_consistent
    (update ("edit-action-" +:+ id) (set_disabled v)
       (update ("action-" +:+ id) (show_running v) p)) id.
Proof.
  intros btn edit.
  rewrite (getElementById_update_ne ("edit-action-" +:+ id) _ _ ("action-" +:+ id)) by done.
  rewrite !getElementById_update_eq.
  rewrite (getElementById_update_ne ("action-" +:+ id) _ _ ("edit-action-" +:+ id)) by done.
  destruct (getElementById ("action-" +:+ id) p) as [b|]; [|done].
  destruct (getElementById ("edit-action-" +:+ id) p) as [e|]; [|done].
  simpl. intros [= <-] [= <-]. apply shown_consistent.
Qed.

(** It keeps every pair consistent that was. *)
Lemma update_pair_consistent v k (p : page) id :
  edit_consistent p id ->
  edit_consistent
    (update ("edit-action-" +:+ k) (set_disabled v)
       (update ("action-" +:+ k) (show_running v) p)) id.
Proof.
  intros Hinv. destruct (decide (k = id)) as [->|Hne]; [apply update_pair_establishes|].
  intros btn edit.
  rewrite !getElementById_update_ne by (intros ?; simplify_eq/=; done).
  apply Hinv.
Qed.

Lemma poll_pair_consistent statuses (p : page) k id :
  edit_consistent p id -> edit_consistent (poll_pair statuses p k) id.
Proof.
  intros Hinv. unfold poll_pair.
  destruct (getElementById ("action-" +:+ k) p); [|done].
  by apply update_pair_consistent.
Qed.

Lemma poll_pair_establishes statuses (p : page) id :
  edit_consistent (poll_pair statuses p id) id.
Proof.
  unfold poll_pair.
  destruct (getElementById ("action-" +:+ id) p) as [b|] eqn:Hb.
  - apply update_pair_establishes.
  - intros btn edit Hbtn. congruence.
Qed.

Lemma poll_consistent statuses (l : list string) (p : page) id :
  edit_consistent p id -> edit_consistent (foldl (poll_pair statuses) p l) id.
Proof.
  revert p. induction l as [|k l IH]; intros p Hinv; simpl; [done|].
  by apply IH, poll_pair_consistent.
Qed.

Lemma poll_establishes statuses (l : list string) (p : page) id :
  id ∈ l -> edit_consistent (foldl (poll_pair statuses) p l) id.
Proof.
  revert p. induction l as [|k l IH]; intros p Hin; simpl.
  - by apply elem_of_nil in Hin.
  - destruct (decide (k = id)) as [->|Hne].
    + apply poll_consistent, poll_pair_establishes.
    + apply elem_of_cons in Hin as [Heq|Hin]; [congruence|]. by apply IH.
Qed.

Lemma emit_consistent e (p : page) id :
  edit_consistent p id -> edit_consistent (emit e p) id.
Proof. done. Qed.

Lemma on_bot_statuses_consistent r (p : page) id :
  edit_consistent p id -> edit_consistent (on_bot_statuses r p).1 id.
Proof.
  intros Hinv. unfold on_bot_statuses, poll_catch.
  destruct r as [reason|[] st [statuses|]]; simpl;
    try (apply emit_consistent, Hinv).
  by apply poll_consistent.
Qed.

Lemma toggle_resolved_establishes id data (p : page) :
  edit_consistent
    (toggle_resolved ("action-" +:+ id) (Some ("action-" +:+ id)) data p).1 id.
Proof. unfold toggle_resolved. simpl. apply update_pair_establishes. Qed.

Lemma toggle_resolved_consistent k data (p : page) id :
  edit_consistent p id ->
  edit_consistent
    (toggle_resolved ("action-" +:+ k) (Some ("action-" +:+ k)) data p).1 id.
Proof.
  intros Hinv. unfold toggle_resolved. simpl.
  by apply (update_pair_consistent _ k).
Qed.

Lemma toggle_catch_enables id msg (p0 : page) :
  forall e,
    getElementById ("edit-action-" +:+ id)
      (toggle_catch (Some ("action-" +:+ id)) msg p0).1 = Some e ->
    "disabled" ∉ classList e.
Proof.
  intros e. unfold toggle_catch. simpl.
  rewrite !getElementById_emit.
  change ("edit-" +:+ String "a" (String "c" (String "t" (String "i" (String "o" (String "n" (String "-" id)))))))
    with ("edit-action-" +:+ id).
  rewrite getElementById_update_eq.
  destruct (getElementById _ p0) as [e0|]; [|done].
  simpl. intros [= <-]. simpl.
  intros [_ Hn]%elem_of_difference. apply Hn. by apply elem_of_singleton.
Qed.

(** The [.catch] touches the edit control of the toggled pair only. *)
Lemma toggle_catch_consistent k msg (p0 p : page) id :
  elements p0 = elements p -> k ≠ id ->
  edit_consistent p id ->
  edit_consistent (toggle_catch (Some ("action-" +:+ k)) msg p0).1 id.
Proof.
  intros Hel Hne Hinv btn edit. unfold toggle_catch. simpl.
  rewrite !getElementById_emit.
  rewrite !getElementById_update_ne by (intros ?; simplify_eq/=; done).
  unfold getElementById. rewrite Hel. apply Hinv.
Qed.

Lemma button_id_action id pairId : button_id (Some ("action-" +:+ id)) pairId = "action-" +:+ id.
Proof. done. Qed.

(** What a toggle of the dashboard leaves behind once the outcome of its
    control request is handled. *)
Lemma on_control_outcome k r (p : page) id :
  let res := on_control ("action-" +:+ k) (Some ("action-" +:+ k)) r p in
  match res.2 with
  | Fulfilled _ =>
      edit_consistent res.1 k /\ (edit_consistent p id -> edit_consistent res.1 id)
  | Failed _ =>
      getElementById ("action-" +:+ k) res.1 = getElementById ("action-" +:+ k) p /\
      (forall e, getElementById ("edit-action-" +:+ k) res.1 = Some e ->
                 "disabled" ∉ classList e) /\
      (k ≠ id -> edit_consistent p id -> edit_consistent res.1 id)
  | Await _ _ => False
  end.
Proof.
  intros res. unfold res.
  destruct (on_control_cases ("action-" +:+ k) (Some ("action-" +:+ k)) r p)
    as [[data ->]|(msg & p0 & -> & Hel)].
  - simpl. split; [apply toggle_resolved_establishes|apply toggle_resolved_consistent].
  - rewrite toggle_catch_task. split; [|split].
    + apply (toggle_catch_keeps_button _ _ _ p0 p Hel). by left.
    + apply toggle_catch_enables.
    + by apply toggle_catch_consistent.
Qed.

(** C1 (as the code has it). A completed bot-status poll makes the edit
    control of every pair it reports agree with the run state it shows on the
    pair's button (disabled while "Stop" is shown, enabled while "Start" is
    shown) and keeps the agreement of every other pair; so does a toggle that
    the server accepts, for the pair it toggles and for the others. A toggle
    that fails leaves the button of its pair as it was and its edit control
    enabled, and keeps the agreement of the other pairs. *)
Theorem edit_control_after_poll_and_toggle (p : page) (id : string) :
  (forall srv : server request,
     (edit_consistent p id -> edit_consistent (final srv updateAllBotStatuses p) id) /\
     (forall statusText statuses,
        srv object BotStatuses = Responded true statusText (Some statuses) ->
        id ∈ keys statuses ->
        edit_consistent (final srv updateAllBotStatuses p) id)) /\
  (forall pairId symbol exchange mode k t (srv : server request),
     toggleBot pairId symbol exchange mode (Some ("action-" +:+ k)) p = inr (p, t) ->
     match settled srv t p with
     | inr _ =>
         edit_consistent (final srv t p) k /\
         (edit_consistent p id -> edit_consistent (final srv t p) id)
     | inl _ =>
         getElementById ("action-" +:+ k) (final srv t p)
         = getElementById ("action-" +:+ k) p /\
         (forall e, getElementById ("edit-action-" +:+ k) (final srv t p) = Some e ->
                    "disabled" ∉ classList e) /\
         (k ≠ id -> edit_consistent p id -> edit_consistent (final srv t p) id)
     end).
Proof.
  split.
  - intros srv. unfold updateAllBotStatuses. rewrite final_Await. split.
    + intros Hinv.
      pose proof (on_bot_statuses_consistent (srv object BotStatuses) p id Hinv) as H.
      unfold on_bot_statuses, poll_catch in *.
      destruct (srv object BotStatuses) as [reason|[] st [statuses|]]; exact H.
    + intros statusText statuses -> Hin. simpl. by apply poll_establishes.
  - intros pairId symbol exchange mode k t srv.
    assert (Hctl : forall action,
      let t := Await (Control action pairId)
                 (on_control ("action-" +:+ k) (Some ("action-" +:+ k))) in
      match settled srv t p with
      | inr _ =>
          edit_consistent (final srv t p) k /\
          (edit_consistent p id -> edit_consistent (final srv t p) id)
      | inl _ =>
          getElementById ("action-" +:+ k) (final srv t p)
          = getElementById ("action-" +:+ k) p /\
          (forall e, getElementById ("edit-action-" +:+ k) (final srv t p) = Some e ->
                     "disabled" ∉ classList e) /\
          (k ≠ id -> edit_consistent p id -> edit_consistent (final srv t p) id)
      end).
    { intros action t0. unfold t0. rewrite settled_Await, final_Await.
      pose proof (on_control_outcome k (srv object (Control action pairId)) p id) as H.
      simpl in H.
      destruct (on_control _ _ _ p) as [p1 [d|m|B req k0]]; simpl in *; done. }
    unfold toggleBot. rewrite button_id_action.
    destruct (getElementById ("action-" +:+ k) p) as [btn|] eqn:Hbtn; [|done].
    intros [= <-].
    destruct (String.eqb (trim (innerText btn)) "Start"); simpl; [|apply Hctl].
    rewrite settled_Await, final_Await.
    destruct (srv object (ClearOpenPositions symbol exchange mode)) as [reason|ok st body].
    + simpl. rewrite <- Hbtn. split; [|split].
      * apply (toggle_catch_keeps_button ("action-" +:+ k) (Some ("action-" +:+ k))
                 reason p p eq_refl). by left.
      * exact (toggle_catch_enables k reason p).
      * exact (toggle_catch_consistent k reason p p id eq_refl).
    + apply Hctl.
Qed.

(** The [price_update] handler looks the edit control up as [edit-<id>], not
    as [edit-action-<id>] like the poll and the toggle do: a message that
    reports a stopped pair as running changes the button and leaves the edit
    control enabled. *)
Lemma price_update_misses_edit_control :
  edit_consistent Fixtures.stopped_page "7" /\
  ~ edit_consistent
      (on_price_update [("BTCUSDC", Num 50000)] (Some [("BTCUSDC", Bool true)])
         Fixtures.stopped_page) "7".
Proof.
  split.
  - intros btn edit [= <-] [= <-]. split; [done|]. intros _. compute_done.
  - intros H.
    destruct (H _ _ eq_refl eq_refl) as [Hstop _].
    specialize (Hstop eq_refl). revert Hstop. compute_done.
Qed.

Lemma stopped_page_consistent id : edit_consistent Fixtures.stopped_page id.
Proof.
  intros btn edit Hb He.
  unfold getElementById, Fixtures.stopped_page in Hb, He. simpl in Hb, He.
  rewrite !lookup_insert in Hb. rewrite !lookup_insert in He.
  repeat case_decide; simplify_eq/=.
  split; [done|]. intros _. compute_done.
Qed.

Lemma running_page_consistent id : edit_consistent Fixtures.running_page id.
Proof.
  intros btn edit Hb He.
  unfold getElementById, Fixtures.running_page in Hb, He. simpl in Hb, He.
  rewrite !lookup_insert in Hb. rewrite !lookup_insert in He.
  repeat case_decide; simplify_eq/=.
  split; [|done]. intros _. compute_done.
Qed.

(** C1, as stated, fails: pair 7 runs, its button shows "Stop" and its edit
    control is disabled; the user clicks, the control request is rejected,
    and the page is left showing "Stop" with the edit control enabled. *)
Lemma failed_stop_enables_edit_of_running_pair :
  (forall id, edit_consistent Fixtures.running_page id) /\
  toggleBot 7 "BTCUSDC" "binance" "real" (Some "action-7") Fixtures.running_page
  = inr (Fixtures.running_page, Fixtures.stop_7) /\
  label "action-7" (final Fixtures.offline Fixtures.stop_7 Fixtures.running_page)
  = Some "Stop" /\
  ~ edit_consistent (final Fixtures.offline Fixtures.stop_7 Fixtures.running_page) "7".
Proof.
  split; [exact running_page_consistent|].
  split; [reflexivity|]. split; [reflexivity|].
  intros H.
  destruct (H _ _ eq_refl eq_refl) as [Hstop _].
  specialize (Hstop eq_refl). revert Hstop. compute_done.
Qed.

Lemma edit_control_after_poll_and_toggle_witness :
  edit_consistent Fixtures.stopped_page "7" /\
  "7" ∈ keys [("7", Bool true)] /\
  edit_consistent
    (final (Fixtures.answering [("7", Bool true)]) updateAllBotStatuses
       Fixtures.stopped_page) "7" /\
  toggleBot 7 "BTCUSDC" "binance" "real" (Some "action-7") Fixtures.stopped_page
  = inr (Fixtures.stopped_page, Fixtures.start_7) /\
  edit_consistent
    (final (Fixtures.answering [("status", Str "ok"); ("bot_is_running", Bool true)])
       Fixtures.start_7 Fixtures.stopped_page) "7".
Proof.
  pose proof (edit_control_after_poll_and_toggle Fixtures.stopped_page "7")
    as [Hpoll Htoggle].
  assert (Hin : "7" ∈ keys [("7", Bool true)])
    by (apply list_elem_of_singleton; reflexivity).
  split; [exact (stopped_page_consistent "7")|].
  split; [exact Hin|].
  split; [exact (proj2 (Hpoll (Fixtures.answering [("7", Bool true)]))
                   "OK" [("7", Bool true)] eq_refl Hin)|].
  split; [reflexivity|].
  exact (proj1 (Htoggle 7%Z "BTCUSDC" "binance" "real" "7" Fixtures.start_7
                  (Fixtures.answering [("status", Str "ok"); ("bot_is_running", Bool true)])
                  eq_refl)).
Defined.

End EditInvariant.

(** ** The toggle on the sample pages *)

Section ToggleScenarios.
Import Js Dom Async Dashboard Fixtures.

(** C2, as stated, fails: with the clearing request of a start in flight the
    button of pair 7 still shows "Start". *)
Lemma toggle_does_not_flip_at_once :
  ~ flips_at_once 7 "BTCUSDC" "binance" "real" (Some "action-7") stopped_page.
Proof.
  intros H.
  assert (Hl : label "action-7" stopped_page = Some (flipped "Start")).
  { eapply H; reflexivity. }
  discriminate Hl.
Qed.

Lemma toggle_waits_for_server_witness :
  getElementById (button_id (Some "action-7") 7) stopped_page
  = Some (el "Start" ["btn"; "btn-success"]) /\
  exists t,
    toggleBot 7 "BTCUSDC" "binance" "real" (Some "action-7") stopped_page
    = inr (stopped_page, t) /\
    forall srv : server request,
      (forall q, q ∈ waiting_states srv t stopped_page -> q = stopped_page) /\
      match settled srv t stopped_page with
      | inr data =>
          label (button_id (Some "action-7") 7) (final srv t stopped_page)
          = Some (if truthy (get data "bot_is_running") then "Stop" else "Start")
      | inl _ =>
          getElementById (button_id (Some "action-7") 7) (final srv t stopped_page)
          = Some (el "Start" ["btn"; "btn-success"])
      end.
Proof.
  split; [reflexivity|].
  exact (toggle_waits_for_server 7 "BTCUSDC" "binance" "real" (Some "action-7")
           stopped_page (el "Start" ["btn"; "btn-success"]) eq_refl).
Defined.

Lemma toggle_request_order_witness :
  getElementById (button_id (Some "action-7") 7) stopped_page
  = Some (el "Start" ["btn"; "btn-success"]) /\
  trim (innerText (el "Start" ["btn"; "btn-success"])) = "Start" /\
  exists k,
    toggleBot 7 "BTCUSDC" "binance" "real" (Some "action-7") stopped_page
    = inr (stopped_page, Await (ClearOpenPositions "BTCUSDC" "binance" "real") k) /\
    forall ok statusText body p',
      k (Responded ok statusText body) p'
      = (p', Await (Control "start" 7) (on_control "action-7" (Some "action-7"))).
Proof.
  split; [reflexivity|]. split; [reflexivity|].
  destruct (toggle_request_order 7 "BTCUSDC" "binance" "real" (Some "action-7")
              stopped_page (el "Start" ["btn"; "btn-success"]) eq_refl)
    as [Hstart _].
  destruct (Hstart eq_refl) as (k & Hk & Hresp & _).
  exists k. split; [exact Hk|exact Hresp].
Defined.

(** The start flow: the click on "Start" of pair 7 (BTCUSDC on binance/real)
    first asks to clear its open positions, then asks to start it; the
    answer [{status: "ok", bot_is_running: true}] turns the button to "Stop"
    and disables the edit control. *)
Example start_flow :
  let srv := answering [("status", Str "ok"); ("bot_is_running", Bool true)] in
  requests srv start_7 stopped_page
  = [existT object (ClearOpenPositions "BTCUSDC" "binance" "real");
     existT object (Control "start" 7)] /\
  label "action-7" (final srv start_7 stopped_page) = Some "Stop" /\
  (classList_contains "disabled" <$> getElementById "edit-action-7" (final srv start_7 stopped_page))
  = Some true.
Proof. repeat split; vm_compute; reflexivity. Qed.

(** The rollback: a control response [{status: "Invalid pair"}] leaves the
    button with the label it had, leaves the edit control enabled and alerts
    twice. *)
Example invalid_pair_rollback :
  let srv := answering [("status", Str "Invalid pair")] in
  label "action-7" (final srv start_7 stopped_page) = Some "Start" /\
  (classList_contains "disabled" <$> getElementById "edit-action-7" (final srv start_7 stopped_page))
  = Some false /\
  log (final srv start_7 stopped_page)
  = [Alert "Invalid pair"; Alert "Trade error: Invalid pair";
     ConsoleError "Error toggling bot: Invalid pair"] /\
  settled srv start_7 stopped_page = inl "Invalid pair".
Proof. repeat split; vm_compute; reflexivity. Qed.

End ToggleScenarios.

(** ** Notifications are alerted once *)

Section Dedup.
Import Js Async Notifications.

Variable id : string.
Variable ty : string.
Variable n0 : nat.

Local Abbreviation due := (Notifications.due ty).
Local Abbreviation counted := (Notifications.counted id ty n0).

Lemma alerts_of_append_item it st : alerts_of id (append_item it st) = alerts_of id st.
Proof. done. Qed.

Lemma seen_append_item it st :
  seenNotifications (append_item it st) = seenNotifications st.
Proof. done. Qed.

Lemma notice_seen symbol m st :
  identity symbol m ∈ seenNotifications (notice symbol m st).
Proof.
  unfold notice. case_bool_decide; [done|]. simpl.
  apply elem_of_union. left. by apply elem_of_singleton.
Qed.

Lemma notice_seen_mono symbol m st x :
  x ∈ seenNotifications st -> x ∈ seenNotifications (notice symbol m st).
Proof.
  intros Hx. unfold notice. case_bool_decide; [done|]. simpl.
  apply elem_of_union. by right.
Qed.

Lemma notice_counted symbol m st :
  (identity symbol m = id -> type m = ty) ->
  counted st -> counted (notice symbol m st).
Proof.
  intros Hty [Hunseen Hseen]. unfold notice.
  case_bool_decide as Hin; [by split|].
  unfold Notifications.counted, alerts_of. simpl.
  destruct (decide (identity symbol m = id)) as [Heq|Hne].
  - split.
    + intros Hn. exfalso. apply Hn, elem_of_union. left. by apply elem_of_singleton.
    + intros _. rewrite Hty by done. unfold Notifications.due.
      rewrite <- Heq in Hunseen. specialize (Hunseen Hin).
      unfold alerts_of in Hunseen.
      destruct (String.eqb ty "error"); [|by rewrite Heq in *; lia].
      rewrite filter_app, length_app, filter_cons_True by done.
      rewrite Heq in *. simpl. lia.
  - assert (Hsame : filter (fun a => cause a = id)
                      (if String.eqb (type m) "error"
                       then (alerts st ++ [{| cause := identity symbol m; shown := line symbol m |}])%list
                       else alerts st)
                    = filter (fun a => cause a = id) (alerts st)).
    { destruct (String.eqb (type m) "error"); [|done].
      rewrite filter_app, filter_cons_False by done.
      by rewrite filter_nil, app_nil_r. }
    rewrite Hsame. split.
    + intros Hn. apply Hunseen. intros Hin'. apply Hn, elem_of_union. by right.
    + intros [Hs|Hs]%elem_of_union; [|by apply Hseen].
      apply elem_of_singleton in Hs. congruence.
Qed.

Lemma show_message_counted symbol st m :
  (identity symbol m = id -> type m = ty) ->
  counted st -> counted (show_message symbol st m).
Proof. intros Hty Hc. unfold show_message. by apply notice_counted. Qed.

Lemma show_symbol_counted st (e : string * list msg) :
  (forall m, m ∈ e.2 -> identity e.1 m = id -> type m = ty) ->
  counted st -> counted (show_symbol st e).
Proof.
  unfold show_symbol. destruct e as [symbol ms]. simpl. revert st.
  induction ms as [|m ms IH]; intros st Hty Hc; simpl; [done|].
  apply IH.
  - intros m' Hm'. apply Hty. by apply elem_of_cons; right.
  - apply show_message_counted; [|done]. apply Hty. by apply elem_of_cons; left.
Qed.

Lemma foldl_show_symbol_counted (data : notifications) st :
  typed_as id ty data -> counted st -> counted (foldl show_symbol st data).
Proof.
  revert st. induction data as [|[symbol ms] data IH]; intros st Hty Hc; simpl; [done|].
  apply IH.
  - intros s' ms' m' Hin. apply Hty. by apply elem_of_cons; right.
  - apply show_symbol_counted; [|done]. simpl.
    intros m Hm. apply (Hty symbol ms m); [|done]. by apply elem_of_cons; left.
Qed.

Lemma show_symbol_seen_mono st (e : string * list msg) x :
  x ∈ seenNotifications st -> x ∈ seenNotifications (show_symbol st e).
Proof.
  unfold show_symbol. destruct e as [symbol ms]. simpl. revert st.
  induction ms as [|m ms IH]; intros st Hx; simpl; [done|].
  apply IH. unfold show_message. rewrite seen_append_item. by apply notice_seen_mono.
Qed.

Lemma foldl_show_symbol_seen_mono (data : notifications) st x :
  x ∈ seenNotifications st -> x ∈ seenNotifications (foldl show_symbol st data).
Proof.
  revert st. induction data as [|e data IH]; intros st Hx; simpl; [done|].
  by apply IH, show_symbol_seen_mono.
Qed.

Lemma show_symbol_seen st symbol ms m :
  m ∈ ms -> identity symbol m ∈ seenNotifications (show_symbol st (symbol, ms)).
Proof.
  unfold show_symbol. simpl. revert st.
  induction ms as [|m' ms IH]; intros st Hm; simpl.
  - by apply elem_of_nil in Hm.
  - apply elem_of_cons in Hm as [->|Hm]; [|by apply IH].
    apply (show_symbol_seen_mono _ (symbol, ms)).
    unfold show_message. rewrite seen_append_item. apply notice_seen.
Qed.

Lemma foldl_show_symbol_seen (data : notifications) st symbol m :
  delivers symbol m data ->
  identity symbol m ∈ seenNotifications (foldl show_symbol st data).
Proof.
  intros (ms & Hin & Hm). revert st.
  induction data as [|e data IH]; intros st; simpl.
  - by apply elem_of_nil in Hin.
  - apply elem_of_cons in Hin as [<-|Hin]; [|by apply IH].
    by apply foldl_show_symbol_seen_mono, show_symbol_seen.
Qed.

(** The list after the entries of a symbol are appended. *)
Lemma show_symbol_items st (e : string * list msg) l :
  list_items st = Some l ->
  list_items (show_symbol st e) = Some (l ++ map (entry_of e.1) e.2)%list.
Proof.
  unfold show_symbol. destruct e as [symbol ms]. simpl. revert st l.
  induction ms as [|m ms IH]; intros st l Hl; simpl.
  - by rewrite app_nil_r.
  - rewrite (IH _ (l ++ [entry_of symbol m])%list).
    + by rewrite <- app_assoc.
    + unfold show_message, append_item, notice. simpl.
      case_bool_decide; simpl; by rewrite Hl.
Qed.

Lemma foldl_show_symbol_items (data : notifications) st l :
  list_items st = Some l ->
  list_items (foldl show_symbol st data)
  = Some (l ++ concat (map (fun e => map (entry_of e.1) e.2) data))%list.
Proof.
  revert st l. induction data as [|e data IH]; intros st l Hl; simpl.
  - by rewrite app_nil_r.
  - rewrite (IH _ _ (show_symbol_items st e l Hl)). by rewrite <- app_assoc.
Qed.

(** What a poll leaves in the list: the entries of its data, the divider
    and the "Clear All" item. *)
Lemma on_data_items (data : notifications) st :
  is_Some (list_items st) ->
  list_items (on_data data st)
  = Some (concat (map (fun e => map (entry_of e.1) e.2) data) ++ [Divider; ClearAll])%list.
Proof.
  intros [l Hl]. unfold on_data. simpl. rewrite Hl.
  unfold append_item. simpl.
  rewrite (foldl_show_symbol_items data _ []) by done. simpl.
  by rewrite <- app_assoc.
Qed.

Lemma on_data_renders (data : notifications) st symbol m :
  is_Some (list_items st) -> delivers symbol m data ->
  exists l, list_items (on_data data st) = Some l /\ entry_of symbol m ∈ l.
Proof.
  intros Hl (ms & Hin & Hm). eexists. split; [by apply on_data_items|].
  apply elem_of_app. left.
  apply list_elem_of_In, in_concat. exists (map (entry_of symbol) ms). split.
  - apply in_map_iff. exists (symbol, ms). split; [done|]. by apply list_elem_of_In.
  - apply in_map, list_elem_of_In, Hm.
Qed.

Lemma on_data_counted (data : notifications) st :
  is_Some (list_items st) -> typed_as id ty data -> counted st -> counted (on_data data st).
Proof.
  intros [l Hl] Hty Hc. unfold on_data. simpl. rewrite Hl.
  apply (foldl_show_symbol_counted data); [done|]. exact Hc.
Qed.

Lemma on_data_seen (data : notifications) st symbol m :
  is_Some (list_items st) -> delivers symbol m data ->
  identity symbol m ∈ seenNotifications (on_data data st).
Proof.
  intros [l Hl] Hd. unfold on_data. simpl. rewrite Hl.
  rewrite !seen_append_item. by apply foldl_show_symbol_seen.
Qed.

Lemma on_data_is_Some (data : notifications) st :
  is_Some (list_items st) -> is_Some (list_items (on_data data st)).
Proof. intros Hl. rewrite on_data_items by done. eauto. Qed.

End Dedup.

Section Polls.
Import Js Async Notifications.

Lemma on_data_seen_mono (data : notifications) st x :
  x ∈ seenNotifications st -> x ∈ seenNotifications (on_data data st).
Proof.
  intros Hx. unfold on_data. simpl.
  destruct (list_items st); [|done].
  rewrite !seen_append_item. by apply foldl_show_symbol_seen_mono.
Qed.

Lemma polls_is_Some (ds : list notifications) st :
  is_Some (list_items st) -> is_Some (list_items (polls ds st)).
Proof.
  unfold polls. revert st. induction ds as [|d ds IH]; intros st Hl; simpl; [done|].
  by apply IH, on_data_is_Some.
Qed.

Lemma polls_counted id ty n0 (ds : list notifications) st :
  is_Some (list_items st) ->
  Forall (typed_as id ty) ds ->
  counted id ty n0 st -> counted id ty n0 (polls ds st).
Proof.
  unfold polls. revert st.
  induction ds as [|d ds IH]; intros st Hl Hty Hc; simpl; [done|].
  apply Forall_cons in Hty as [Hd Hds].
  apply IH; [by apply on_data_is_Some|done|by apply on_data_counted].
Qed.

Lemma polls_seen_mono (ds : list notifications) st x :
  x ∈ seenNotifications st -> x ∈ seenNotifications (polls ds st).
Proof.
  unfold polls. revert st. induction ds as [|d ds IH]; intros st Hx; simpl; [done|].
  by apply IH, on_data_seen_mono.
Qed.

Lemma polls_snoc (ds : list notifications) d st :
  polls (ds ++ [d]) st = on_data d (polls ds st).
Proof. unfold polls. by rewrite foldl_app. Qed.


End Polls.

Section PollScenarios.
Import Js Async Notifications Fixtures.


(** Three polls that return the same log: one alert, and the entry is in
    the list after the third poll as it was after the first. *)
Example three_polls :
  alerts (polls [rolling_log; rolling_log; rolling_log] navbar)
  = [{| cause := "BTCUSDC-2024-05-01 10:00:00"; shown := "BTCUSDC: Order failed" |}] /\
  list_items (polls [rolling_log; rolling_log; rolling_log] navbar)
  = Some [Entry "text-danger" "BTCUSDC: Order failed"; Divider; ClearAll] /\
  list_items (polls [rolling_log] navbar)
  = Some [Entry "text-danger" "BTCUSDC: Order failed"; Divider; ClearAll] /\
  count (polls [rolling_log] navbar) = Some "1".
Proof. repeat split; vm_compute; reflexivity. Qed.

(** A page that has no [#notification-list] raises no alert at all. *)
Example no_list_no_alert :
  alerts (polls [rolling_log]
            {| seenNotifications := ∅; count := None; list_items := None;
               alerts := []; console := [] |}) = [].
Proof. reflexivity. Qed.

(** C8 (as the code has it). The seen-set is what it was for as long as the
    clearing request is in flight. It is emptied when a response arrives
    whose body is JSON, whatever its status, and the notifications are then
    fetched again; when the request is rejected or the body is not JSON the
    seen-set is left as it was and nothing is fetched. *)
Theorem clear_resets_after_response (srv : server request) (st : state) :
  match srv object PostClearNotifications with
  | Responded _ _ (Some _) =>
      waiting_states srv clearNotifications st = [st; clear_seen st] /\
      requests srv clearNotifications st
      = [existT object PostClearNotifications; existT notifications GetNotifications]
  | _ =>
      waiting_states srv clearNotifications st = [st] /\
      requests srv clearNotifications st = [existT object PostClearNotifications] /\
      seenNotifications (final srv clearNotifications st) = seenNotifications st
  end.
Proof.
  unfold clearNotifications.
  rewrite waiting_states_Await, requests_Await, final_Await.
  destruct (srv object PostClearNotifications) as [reason|ok statusText [body|]];
    simpl; [done| |done].
  rewrite waiting_states_Await, requests_Await.
  by destruct (srv notifications GetNotifications) as [?|? ? [?|]].
Qed.

(** C8, as stated, fails: the server answers the clearing with an error
    status and a JSON body, and the seen-set is emptied all the same; the
    poll that follows alerts the notification a second time. *)
Lemma failed_clear_resets_seen :
  let st := polls [rolling_log] navbar in
  "BTCUSDC-2024-05-01 10:00:00" ∈ seenNotifications st /\
  length (alerts st) = 1 /\
  length (alerts (final failing_clear clearNotifications st)) = 2 /\
  ~ keeps_seen_on_failure failing_clear st.
Proof.
  split; [compute_done|]. split; [reflexivity|]. split; [reflexivity|].
  intros H.
  assert (Hin : "BTCUSDC-2024-05-01 10:00:00"
                ∈ seenNotifications (clear_seen (polls [rolling_log] navbar))).
  { rewrite (H eq_refl (clear_seen (polls [rolling_log] navbar))).
    - compute_done.
    - apply elem_of_app. left. apply elem_of_cons. right. by apply elem_of_cons; left. }
  by apply not_elem_of_empty in Hin.
Qed.

End PollScenarios.

(** ** The pagination controls of the ledger *)

Section Pagination.
Import Js Async Ledger.

Lemma is_disabled_disabled_if caption b :
  is_disabled {| caption := caption; classes := disabled_if b |} <-> b = true.
Proof.
  unfold is_disabled, disabled_if. simpl. destruct b; split; try done.
  - intros _. apply elem_of_cons. right. by apply elem_of_cons; left.
  - intros H. apply elem_of_cons in H as [H|H]; [done|]. by apply elem_of_nil in H.
Qed.

(** The controls [updatePaginationControls] renders when the page has the
    container. *)
Lemma updatePaginationControls_spec (tp cp : value) (old : list control) :
  if le_num tp 1 then updatePaginationControls tp cp (Some old) = Some []
  else
    exists prev cur next,
      updatePaginationControls tp cp (Some old) = Some [prev; cur; next] /\
      caption prev = Str "Previous" /\ caption cur = cp /\ caption next = Str "Next" /\
      (is_disabled prev <-> truthy cp = false \/ is_int 1 cp = true) /\
      (is_disabled next <-> truthy cp = false \/ strict_eq cp tp = true).
Proof.
  unfold updatePaginationControls. destruct (le_num tp 1); [done|].
  do 3 eexists. split; [reflexivity|]. do 3 (split; [reflexivity|]).
  rewrite !is_disabled_disabled_if, !orb_true_iff, !negb_true_iff. done.
Qed.

(** C9 (as the code has it). When a ledger page arrives without an error,
    on a page that has the table body and the container of the controls:
    if the reported [total_pages] is at most 1 no control is rendered;
    otherwise the controls are Previous, the current page and Next, with
    Previous disabled exactly when [current_page] is 1 or falsy (missing, 0)
    and Next disabled exactly when [current_page] equals [total_pages] or is
    falsy. A page without entries counts a falsy [total_pages] as 0 and a
    falsy [current_page] as 1. *)
Theorem pagination_after_page (srv : server request) (page : Q) (v : view)
    (ok : bool) (statusText : string) (data : ledger_page)
    (rows0 : list row) (cs0 : list control) :
  srv _ (ProfitLogEntries page itemsPerPage (currentTimeframe v) (currentSort v))
  = Responded ok statusText (Some data) ->
  truthy (error data) = false ->
  tbody v = Some rows0 ->
  controls v = Some cs0 ->
  let nonempty := match entries data with Some (_ :: _) => true | _ => false end in
  let tp := if nonempty || truthy (total_pages data) then total_pages data else Num 0 in
  let cp := if nonempty || truthy (current_page data) then current_page data else Num 1 in
  if le_num tp 1 then controls (loaded srv page v) = Some []
  else
    exists prev cur next,
      controls (loaded srv page v) = Some [prev; cur; next] /\
      caption prev = Str "Previous" /\ caption cur = cp /\ caption next = Str "Next" /\
      (is_disabled prev <-> truthy cp = false \/ is_int 1 cp = true) /\
      (is_disabled next <-> truthy cp = false \/ strict_eq cp tp = true).
Proof.
  intros Hsrv Herr Hbody Hcs nonempty tp cp.
  assert (Hload : controls (loaded srv page v)
                  = updatePaginationControls tp cp (Some cs0)).
  { unfold loaded, loadProfitLogData. simpl. rewrite final_Await. simpl.
    rewrite Hsrv. simpl. unfold final, on_ledger_page. simpl.
    rewrite Herr, Hbody. unfold tp, cp, nonempty.
    destruct (entries data) as [[|e es]|]; simpl; rewrite Hcs; try done.
    all: by destruct (truthy (total_pages data)), (truthy (current_page data)). }
  rewrite Hload. apply updatePaginationControls_spec.
Qed.

End Pagination.

Section PaginationScenarios.
Import Js Async Ledger Fixtures.

(** The second of two pages: Next is disabled, Previous is not. *)
Lemma pagination_after_page_witness :
  exists prev cur next,
    controls (loaded (ledger last_page) 2 trades_page) = Some [prev; cur; next] /\
    ~ is_disabled prev /\ is_disabled next.
Proof.
  pose proof (pagination_after_page (ledger last_page) 2 trades_page true "OK"
                last_page [] [] eq_refl eq_refl eq_refl eq_refl) as H.
  change (le_num _ 1) with false in H. cbv beta iota zeta in H.
  destruct H as (prev & cur & next & Hc & _ & _ & _ & Hp & Hn).
  exists prev, cur, next. split; [exact Hc|]. split.
  - intros Hd. apply Hp in Hd. destruct Hd as [Hd|Hd]; discriminate Hd.
  - apply Hn. right. reflexivity.
Defined.

(** C9, as stated, fails: for a ledger of a single page no control is
    rendered at all, so there is no disabled Previous and no disabled
    Next. *)
Lemma single_page_has_no_controls :
  controls (loaded (ledger only_page) 1 trades_page) = Some [] /\
  ~ as_specified (total_pages only_page) (current_page only_page)
      (controls (loaded (ledger only_page) 1 trades_page)).
Proof.
  split; [reflexivity|].
  intros (prev & cur & next & H & _).
  change (Some [] = Some [prev; cur; next]) in H. discriminate H.
Qed.

(** A response that reports three pages and no current page: both Previous
    and Next are disabled. *)
Example missing_current_page :
  (map classes <$>
     controls (loaded (ledger {| error := Undefined; entries := Some [trade];
                                 total_pages := Num 3; current_page := Undefined |})
                 1 trades_page))
  = Some [["page-item"; "disabled"]; ["page-item"; "active"]; ["page-item"; "disabled"]].
Proof. reflexivity. Qed.

(** A page without entries shows the "no entries" row. *)
Example empty_page :
  tbody (loaded (ledger {| error := Undefined; entries := Some [];
                           total_pages := Num 0; current_page := Num 1 |})
           1 trades_page)
  = Some [NoEntries].
Proof. reflexivity. Qed.

End PaginationScenarios.

(** ** Numbers written with a fixed number of decimals, and read back *)

Section Digits.
Import Js.

Lemma digit_of_char (d : N) : (d < 10)%N -> digit_of (pretty_N_char d) = Some d.
Proof.
  intros Hd.
  assert (d = 0 \/ d = 1 \/ d = 2 \/ d = 3 \/ d = 4 \/ d = 5 \/ d = 6 \/ d = 7 \/ d = 8 \/ d = 9)%N
    as Hcases by lia.
  repeat (destruct Hcases as [->|Hcases]; [reflexivity|]). by subst.
Qed.

Lemma append_cons (c : ascii) (s t : string) : String c s +:+ t = String c (s +:+ t).
Proof. reflexivity. Qed.

Lemma append_empty_r (s : string) : s +:+ "" = s.
Proof. induction s as [|c s IH]; [done|]. by rewrite append_cons, IH. Qed.

Lemma append_assoc (s t u : string) : (s +:+ t) +:+ u = s +:+ (t +:+ u).
Proof. induction s as [|c s IH]; [done|]. by rewrite !append_cons, IH. Qed.

Lemma read_digits_fixed (f : nat) (n : N) (rest : string) (acc : N) (len : nat) :
  read_digits (fixed_digits f n +:+ rest) acc len
  = read_digits rest (acc * 10 ^ N.of_nat f + n mod 10 ^ N.of_nat f)%N (len + f).
Proof.
  revert n rest acc len. induction f as [|f IH]; intros n rest acc len.
  - change (fixed_digits 0 n +:+ rest) with rest.
    rewrite N.mod_1_r. f_equal; [simpl; lia|lia].
  - change (fixed_digits (S f) n)
      with (fixed_digits f (n / 10)%N +:+ String (pretty_N_char (n mod 10)%N) "").
    rewrite append_assoc, IH.
    change (String (pretty_N_char (n mod 10)%N) "" +:+ rest)
      with (String (pretty_N_char (n mod 10)%N) rest).
    cbn [read_digits].
    rewrite digit_of_char by (apply N.mod_lt; lia).
    f_equal; [|lia].
    rewrite Nat2N.inj_succ, N.pow_succ_r'.
    rewrite N.Div0.mod_mul_r. lia.
Qed.

(** The digits [pretty] writes for a positive number, read back. *)
Lemma read_digits_pretty_go (n : N) (s : string) (acc : N) (len : nat) :
  exists k,
    read_digits (pretty_N_go n s) acc len
    = read_digits s (acc * 10 ^ N.of_nat k + n)%N (len + k) /\
    ((0 < n)%N -> 0 < k).
Proof.
  revert s acc len. induction (N.lt_wf_0 n) as [n _ IH]; intros s acc len.
  destruct (decide (n = 0%N)) as [->|Hn].
  - exists 0. rewrite pretty_N_go_0. split; [|lia]. f_equal; [simpl; lia|lia].
  - rewrite pretty_N_go_step by lia.
    destruct (IH (n / 10)%N (N.div_lt n 10 ltac:(lia) eq_refl)
                (String (pretty_N_char (n mod 10)%N) s) acc len) as (k & -> & _).
    exists (S k). split; [|lia].
    cbn [read_digits]. rewrite digit_of_char by (apply N.mod_lt; lia).
    f_equal; [|lia].
    rewrite Nat2N.inj_succ, N.pow_succ_r'.
    pose proof (N.div_mod n 10 ltac:(lia)). lia.
Qed.

Lemma pretty_N_go_append (n : N) (s rest : string) :
  pretty_N_go n s +:+ rest = pretty_N_go n (s +:+ rest).
Proof.
  revert s. induction (N.lt_wf_0 n) as [n _ IH]; intros s.
  destruct (decide (n = 0%N)) as [->|Hn]; [by rewrite !pretty_N_go_0|].
  rewrite (pretty_N_go_step n s), (pretty_N_go_step n (s +:+ rest)) by lia.
  rewrite IH by (apply N.div_lt; lia). reflexivity.
Qed.

Lemma read_digits_pretty (n : N) (rest : string) (acc : N) (len : nat) :
  exists k,
    0 < k /\
    read_digits (pretty n +:+ rest) acc len
    = read_digits rest (acc * 10 ^ N.of_nat k + n)%N (len + k).
Proof.
  unfold pretty, pretty_N. case_decide as Hn.
  - subst n. exists 1. split; [lia|]. change ("0" +:+ rest) with (String "0" rest).
    cbn [read_digits].
    change (digit_of "0") with (Some 0%N). cbv beta iota.
    f_equal; (lia || (simpl; lia)).
  - rewrite pretty_N_go_append.
    destruct (read_digits_pretty_go n ("" +:+ rest) acc len) as (k & Hk & Hpos).
    exists k. split; [lia|]. exact Hk.
Qed.

Lemma pretty_go_head (n : N) (s : string) :
  (0 < n)%N ->
  exists d s', (d < 10)%N /\ pretty_N_go n s = String (pretty_N_char d) s'.
Proof.
  revert s. induction (N.lt_wf_0 n) as [n _ IH]; intros s Hn.
  rewrite pretty_N_go_step by done.
  destruct (decide (n / 10 = 0)%N) as [Hz|Hz].
  - rewrite Hz, pretty_N_go_0. eexists _, _. split; [|reflexivity].
    apply N.mod_lt. lia.
  - apply IH; [apply N.div_lt; lia|]. by apply N.neq_0_lt_0.
Qed.

Lemma pretty_head (n : N) :
  exists d s', (d < 10)%N /\ pretty n = String (pretty_N_char d) s'.
Proof.
  unfold pretty, pretty_N. case_decide.
  - exists 0%N, "". split; [lia|reflexivity].
  - apply pretty_go_head. lia.
Qed.

Lemma read_sign_digit (d : N) (s : string) :
  (d < 10)%N ->
  read_sign (String (pretty_N_char d) s) = (false, String (pretty_N_char d) s) /\
  trim_start (String (pretty_N_char d) s) = String (pretty_N_char d) s.
Proof.
  intros Hd.
  assert (d = 0 \/ d = 1 \/ d = 2 \/ d = 3 \/ d = 4 \/ d = 5 \/ d = 6 \/ d = 7 \/ d = 8 \/ d = 9)%N
    as Hcases by lia.
  repeat (destruct Hcases as [->|Hcases]; [by split|]). by subst.
Qed.

(** Reading back an integer part, a point and [F] decimals. *)
Lemma read_unsigned_fixed (ip fp : N) (F : nat) :
  (fp < 10 ^ N.of_nat F)%N ->
  exists q,
    read_unsigned (pretty ip +:+ "." +:+ fixed_digits F fp) = Some (q, "") /\
    (q == inject_Z (Z.of_N ip) + inject_Z (Z.of_N fp) / inject_Z (10 ^ Z.of_nat F))%Q.
Proof.
  intros Hfp.
  destruct (read_digits_pretty ip ("." +:+ fixed_digits F fp) 0 0) as (k & Hk & Hint).
  pose proof (read_digits_fixed F fp "" 0 0) as Hfrac.
  rewrite append_empty_r in Hfrac.
  eexists. split.
  - unfold read_unsigned. rewrite Hint.
    change ("." +:+ fixed_digits F fp) with (String "." (fixed_digits F fp)).
    cbn [read_digits]. change (digit_of ".") with (@None N). cbv beta iota.
    rewrite Hfrac. destruct k as [|k]; [lia|]. reflexivity.
  - rewrite N.mod_small by done. rewrite !N.mul_0_l, !N.add_0_l.
    change (0 + F) with F. simpl Qpower. ring.
Qed.

Lemma parseFloat_fixed (neg : bool) (ip fp : N) (F : nat) :
  (fp < 10 ^ N.of_nat F)%N ->
  exists q,
    parseFloat ((if neg then "-" else "") +:+ pretty ip +:+ "." +:+ fixed_digits F fp) = Some q /\
    (q == (if neg then -1 else 1)
          * (inject_Z (Z.of_N ip) + inject_Z (Z.of_N fp) / inject_Z (10 ^ Z.of_nat F)))%Q.
Proof.
  intros Hfp.
  destruct (read_unsigned_fixed ip fp F Hfp) as (q & Hq & Hval).
  destruct (pretty_head ip) as (d & s' & Hd & Hhead).
  destruct (read_sign_digit d (s' +:+ "." +:+ fixed_digits F fp) Hd) as [Hsign Htrim].
  rewrite <- append_cons, <- Hhead in Hsign, Htrim.
  destruct neg.
  - exists (- q)%Q. split; [|rewrite Hval; ring].
    unfold parseFloat.
    change ("-" +:+ pretty ip +:+ "." +:+ fixed_digits F fp)
      with (String "-" (pretty ip +:+ "." +:+ fixed_digits F fp)).
    cbn [trim_start]. change (is_space "-") with false. cbv beta iota.
    unfold read_decimal. cbn [read_sign]. by rewrite Hq.
  - exists q. split; [|rewrite Hval; ring].
    unfold parseFloat.
    change ("" +:+ pretty ip +:+ "." +:+ fixed_digits F fp)
      with (pretty ip +:+ "." +:+ fixed_digits F fp).
    rewrite Htrim. unfold read_decimal. rewrite Hsign. by rewrite Hq.
Qed.

Lemma pow10_pos (f : nat) : (0 < 10 ^ Z.of_nat f)%Z.
Proof. apply Z.pow_pos_nonneg; lia. Qed.

Lemma inject_pow10_nonzero (f : nat) : ~ (inject_Z (10 ^ Z.of_nat f) == 0)%Q.
Proof.
  intros H. unfold Qeq in H. simpl in H. pose proof (pow10_pos f). lia.
Qed.

Lemma N2Z_pow10 (f : nat) : Z.of_N (10 ^ N.of_nat f) = (10 ^ Z.of_nat f)%Z.
Proof. rewrite N2Z.inj_pow. by rewrite nat_N_Z. Qed.

(** An integer part and [f] decimals make up the scaled number. *)
Lemma split_scaled (n : N) (f : nat) :
  (inject_Z (Z.of_N (n / 10 ^ N.of_nat f))
   + inject_Z (Z.of_N (n mod 10 ^ N.of_nat f)) / inject_Z (10 ^ Z.of_nat f)
   == inject_Z (Z.of_N n) / inject_Z (10 ^ Z.of_nat f))%Q.
Proof.
  pose proof (inject_pow10_nonzero f) as Hnz.
  assert (Hn : Z.of_N n
               = (10 ^ Z.of_nat f * Z.of_N (n / 10 ^ N.of_nat f)
                  + Z.of_N (n mod 10 ^ N.of_nat f))%Z).
  { rewrite <- N2Z_pow10, <- N2Z.inj_mul, <- N2Z.inj_add. f_equal.
    apply N.div_mod. apply N.pow_nonzero. lia. }
  rewrite Hn. rewrite inject_Z_plus, inject_Z_mult. field. exact Hnz.
Qed.

(** The text of [toFixed] reads back as the scaled number it was made from. *)
Lemma parseFloat_toFixed (x : Q) (f : nat) :
  0 < f ->
  let neg := negb (Qle_bool 0 x) in
  let n := scaled (if neg then Qopp x else x) f in
  exists q,
    parseFloat (toFixed x f) = Some q /\
    (q == (if neg then -1 else 1) * (inject_Z (Z.of_N n) / inject_Z (10 ^ Z.of_nat f)))%Q.
Proof.
  intros Hf neg n. destruct f as [|f]; [lia|].
  destruct (parseFloat_fixed neg (n / 10 ^ N.of_nat (S f)) (n mod 10 ^ N.of_nat (S f)) (S f))
    as (q & Hq & Hval).
  { apply N.mod_lt, N.pow_nonzero. lia. }
  exists q. split; [exact Hq|]. by rewrite Hval, split_scaled.
Qed.

Lemma Qfloor_half (a : Z) : Qfloor (inject_Z a + (1 # 2)) = a.
Proof.
  unfold Qfloor, Qplus, inject_Z. simpl.
  rewrite Z.mul_1_r. symmetry. apply (Z.div_unique_pos _ _ _ 1); lia.
Qed.

(** A number with [f] decimals is scaled without rounding. *)
Lemma scaled_exact (a : Q) (n : N) (f : nat) :
  (a == inject_Z (Z.of_N n) / inject_Z (10 ^ Z.of_nat f))%Q -> scaled a f = n.
Proof.
  intros Ha. unfold scaled.
  assert (H : (a * inject_Z (10 ^ Z.of_nat f) + (1 # 2) == inject_Z (Z.of_N n) + (1 # 2))%Q).
  { rewrite Ha. field. apply inject_pow10_nonzero. }
  rewrite (Qfloor_comp _ _ H), Qfloor_half. apply N2Z.id.
Qed.

Lemma sign_of_scaled (s : Q) (z : Z) (f : nat) :
  (s == inject_Z z / inject_Z (10 ^ Z.of_nat f))%Q ->
  Qle_bool 0 s = bool_decide (0 <= z)%Z.
Proof.
  intros Hs. pose proof (pow10_pos f) as Hp.
  assert (HP : (0 < inject_Z (10 ^ Z.of_nat f))%Q).
  { unfold Qlt. simpl. lia. }
  case_bool_decide as Hz.
  - apply Qle_bool_iff. rewrite Hs. apply Qle_shift_div_l; [done|].
    rewrite Qmult_0_l. unfold Qle. simpl. lia.
  - destruct (Qle_bool 0 s) eqn:Hle; [|done]. exfalso. apply Hz.
    apply Qle_bool_iff in Hle. rewrite Hs in Hle.
    apply (Qmult_le_compat_r _ _ (inject_Z (10 ^ Z.of_nat f))) in Hle; [|by apply Qlt_le_weak].
    rewrite Qmult_0_l in Hle.
    assert (Heq : (inject_Z z / inject_Z (10 ^ Z.of_nat f) * inject_Z (10 ^ Z.of_nat f)
                   == inject_Z z)%Q) by (field; apply inject_pow10_nonzero).
    rewrite Heq in Hle. unfold Qle in Hle. simpl in Hle. lia.
Qed.

End Digits.

Section ExactTotals.
Import Js Profit.

(** A total that has [f] decimals is shown by [toFixed(f)] without loss. *)
Lemma number_or_0_toFixed (s : Q) (z : Z) (f : nat) :
  0 < f ->
  (s == inject_Z z / inject_Z (10 ^ Z.of_nat f))%Q ->
  (number_or_0 (toFixed s f) == s)%Q.
Proof.
  intros Hf Hs.
  destruct (parseFloat_toFixed s f Hf) as (q & Hq & Hval).
  unfold number_or_0. rewrite Hq. simpl. rewrite Hval. clear Hq Hval q.
  rewrite (sign_of_scaled s z f Hs).
  case_bool_decide as Hz; simpl.
  - rewrite (scaled_exact s (Z.to_N z) f); rewrite Z2N.id by done; [|done].
    rewrite Hs. ring.
  - rewrite (scaled_exact (- s) (Z.to_N (- z)) f); rewrite Z2N.id by lia.
    + rewrite Hs, inject_Z_opp. field. apply inject_pow10_nonzero.
    + rewrite Hs, inject_Z_opp. field. apply inject_pow10_nonzero.
Qed.

Lemma shows_decimals_toFixed (x : Q) (f : nat) :
  0 < f -> shows_decimals f (toFixed x f).
Proof.
  intros Hf. destruct (parseFloat_toFixed x f Hf) as (q & Hq & Hval).
  unfold shows_decimals, number_or_0. rewrite Hq. simpl.
  destruct (negb (Qle_bool 0 x)).
  - exists (- Z.of_N (scaled (- x) f))%Z.
    rewrite Hval, inject_Z_opp. field. apply inject_pow10_nonzero.
  - exists (Z.of_N (scaled x f)). rewrite Hval. ring.
Qed.

Lemma shows_decimals_reset (f : nat) : shows_decimals f "0.0".
Proof.
  exists 0%Z. unfold number_or_0. simpl. unfold Qeq. simpl. lia.
Qed.

Lemma sum_of_shows_decimals (f : nat) (cell : row -> string) (rs : list row) :
  (forall r, r ∈ rs -> shows_decimals f (cell r)) ->
  exists z, (sum_of cell rs == inject_Z z / inject_Z (10 ^ Z.of_nat f))%Q.
Proof.
  unfold sum_of.
  assert (H0 : exists z0, (0 == inject_Z z0 / inject_Z (10 ^ Z.of_nat f))%Q).
  { exists 0%Z. unfold Qeq. simpl. lia. }
  revert H0. generalize 0%Q.
  induction rs as [|r rs IH]; intros acc [z0 Hacc] Hrs; simpl; [eauto|].
  apply IH.
  - destruct (Hrs r) as [z1 Hz1]; [by apply elem_of_cons; left|].
    exists (z0 + z1)%Z. rewrite Hacc, Hz1, inject_Z_plus. field.
    apply inject_pow10_nonzero.
  - intros r' Hr'. apply Hrs. by apply elem_of_cons; right.
Qed.

Lemma shows_decimals_number_text (v : value) (f : nat) :
  0 < f -> shows_decimals f (number_text v f).
Proof.
  intros Hf. unfold number_text. destruct (to_number v) as [q|].
  - by apply shows_decimals_toFixed.
  - exists 0%Z. unfold number_or_0. simpl. unfold Qeq. simpl. lia.
Qed.

(** The cells [renderPairProfits] writes show at most 4 and 6 decimals, and
    so do the cells [resetProfit] has reset. *)
Lemma profit_row_shows_decimals (pp : pair_profit) :
  shows_decimals 4 (usdc (profit_row pp)) /\ shows_decimals 6 (crypto (profit_row pp)).
Proof. split; apply shows_decimals_number_text; lia. Qed.

Lemma zeroed_shows_decimals (r : row) :
  shows_decimals 4 (usdc (zeroed r)) /\ shows_decimals 6 (crypto (zeroed r)).
Proof. split; apply shows_decimals_reset. Qed.

End ExactTotals.

(** ** The totals of an account after a removal *)

Section ProfitTotals.
Import Js Async Profit.

Lemma find_unique (id : string) (rs : list row) (r : row) :
  NoDup (pair_id <$> rs) -> r ∈ rs -> pair_id r = id ->
  find (is_pair id) rs = Some r.
Proof.
  intros Hnd Hin <-. induction rs as [|r' rs IH]; simpl.
  - by apply elem_of_nil in Hin.
  - simpl in Hnd. apply NoDup_cons in Hnd as [Hr' Hnd].
    unfold is_pair at 1. destruct (String.eqb_spec (pair_id r') (pair_id r)) as [Heq|Hne].
    + apply elem_of_cons in Hin as [->|Hin]; [done|].
      exfalso. apply Hr'. rewrite Heq. by apply list_elem_of_fmap_2.
    + apply elem_of_cons in Hin as [->|Hin]; [done|]. by apply IH.
Qed.

Lemma first_row_unique (doc : list account) (r : row) :
  NoDup (pair_id <$> all_rows doc) -> r ∈ all_rows doc ->
  first_row (pair_id r) doc = Some r.
Proof. intros Hnd Hin. by apply find_unique. Qed.

(** With unique ids the loop over the rows of a table body adds up what
    these rows show. *)
Lemma total_sum_of (cell : row -> string) (doc : list account) (rs : list row) :
  NoDup (pair_id <$> all_rows doc) ->
  (forall r, r ∈ rs -> r ∈ all_rows doc) ->
  total cell doc rs = sum_of cell rs.
Proof.
  intros Hnd. unfold total, sum_of. generalize 0%Q.
  induction rs as [|r rs IH]; intros acc Hin; simpl; [done|].
  rewrite first_row_unique by (done || apply Hin, elem_of_cons; by left).
  apply IH. intros r' Hr'. apply Hin, elem_of_cons. by right.
Qed.

Lemma remove_first_sublist id (rs : list row) : remove_first id rs `sublist_of` rs.
Proof.
  induction rs as [|r rs IH]; simpl; [done|].
  destruct (is_pair id r); [by apply sublist_cons|by apply sublist_skip].
Qed.

Lemma has_row_find id (a : account) :
  has_row id a = true <-> exists r, find (is_pair id) (rows a) = Some r.
Proof.
  unfold has_row. induction (rows a) as [|r rs IH]; simpl.
  - split; [done|]. by intros [? ?].
  - destruct (is_pair id r); simpl; [|done]. split; eauto.
Qed.

Lemma first_row_cons id (a : account) (doc : list account) :
  first_row id (a :: doc)
  = match find (is_pair id) (rows a) with
    | Some r => Some r
    | None => first_row id doc
    end.
Proof.
  unfold first_row, all_rows. simpl.
  induction (rows a) as [|r rs IH]; simpl; [done|].
  by destruct (is_pair id r).
Qed.

Lemma has_row_false_find id (a : account) :
  has_row id a = false -> find (is_pair id) (rows a) = None.
Proof.
  intros Hf. destruct (find (is_pair id) (rows a)) as [r|] eqn:Hfind; [|done].
  assert (has_row id a = true) by (apply has_row_find; eauto). congruence.
Qed.

(** What the removal of the first row with a pair id returns. *)
Lemma remove_row_inv id (doc : list account) tb doc' :
  remove_row id doc = Some (tb, doc') ->
  all_rows doc' `sublist_of` all_rows doc /\
  key <$> doc' = key <$> doc /\
  tb ∈ doc' /\
  (exists a, a ∈ doc /\ tb = with_rows (remove_first id (rows a)) a /\
             forall r, first_row id doc = Some r -> r ∈ rows a /\ pair_id r = id) /\
  (forall b, b ∈ doc -> key b ≠ key tb -> b ∈ doc').
Proof.
  revert tb doc'. induction doc as [|a doc IH]; intros tb doc' Hrm; simpl in Hrm; [done|].
  destruct (has_row id a) eqn:Hhas.
  - injection Hrm as <- <-. split; [|split; [|split; [|split]]].
    + unfold all_rows. simpl. apply sublist_app; [apply remove_first_sublist|done].
    + done.
    + by apply elem_of_cons; left.
    + exists a. split; [by apply elem_of_cons; left|]. split; [done|].
      intros r. rewrite first_row_cons.
      apply has_row_find in Hhas as [r' Hr']. rewrite Hr'. intros [= <-].
      apply find_some in Hr' as [Hin Hp]. split; [by apply list_elem_of_In|].
      unfold is_pair in Hp. by apply String.eqb_eq.
    + intros b [->|Hb]%elem_of_cons Hk; [done|]. by apply elem_of_cons; right.
  - destruct (remove_row id doc) as [[tb0 rest']|] eqn:Hrest; [|done].
    injection Hrm as <- <-.
    destruct (IH _ _ eq_refl) as (Hsub & Hkeys & Htb & (a0 & Ha0 & Heq & Hfirst) & Hframe).
    split; [|split; [|split; [|split]]].
    + unfold all_rows in *. simpl. by apply sublist_app.
    + rewrite !fmap_cons. by rewrite Hkeys.
    + by apply elem_of_cons; right.
    + exists a0. split; [by apply elem_of_cons; right|]. split; [done|].
      intros r. rewrite first_row_cons, (has_row_false_find _ _ Hhas). apply Hfirst.
    + intros b [->|Hb]%elem_of_cons Hk; [by apply elem_of_cons; left|].
      apply elem_of_cons; right. by apply Hframe.
Qed.

Lemma remove_row_found id (doc : list account) r :
  first_row id doc = Some r -> is_Some (remove_row id doc).
Proof.
  induction doc as [|a doc IH]; [done|].
  rewrite first_row_cons. simpl.
  destruct (has_row id a) eqn:Hhas; [eauto|].
  rewrite (has_row_false_find _ _ Hhas). intros Hr.
  destruct (IH Hr) as [[tb rest] ->]. eauto.
Qed.

(** Writing the heading of a key changes the account with that key and no
    other account. *)
Lemma set_heading_spec (u c : string) (doc : list account) (tb : account) :
  NoDup (key <$> doc) -> tb ∈ doc ->
  {| key := key tb; pnl_usdc := u; pnl_crypto := c; rows := rows tb |}
    ∈ set_heading (key tb) u c doc /\
  (forall b, b ∈ doc -> key b ≠ key tb -> b ∈ set_heading (key tb) u c doc).
Proof.
  induction doc as [|a doc IH]; intros Hnd Hin; [by apply elem_of_nil in Hin|].
  simpl in Hnd. apply NoDup_cons in Hnd as [Ha Hnd]. simpl.
  destruct (String.eqb_spec (key a) (key tb)) as [Heq|Hne].
  - apply elem_of_cons in Hin as [->|Hin].
    + split; [by apply elem_of_cons; left|].
      intros b [->|Hb]%elem_of_cons Hk; [done|]. by apply elem_of_cons; right.
    + exfalso. apply Ha. rewrite Heq. by apply list_elem_of_fmap_2.
  - apply elem_of_cons in Hin as [->|Hin]; [done|].
    destruct (IH Hnd Hin) as [Hset Hframe]. split.
    + by apply elem_of_cons; right.
    + intros b [->|Hb]%elem_of_cons Hk; [by apply elem_of_cons; left|].
      apply elem_of_cons; right. by apply Hframe.
Qed.


End ProfitTotals.

(** ** Resetting the profit of a pair *)

Section ProfitReset.
Import Js Async Profit.

Lemma alter_first_None id (f g : row -> row) (rs : list row) :
  alter_first id f rs = None -> alter_first id g rs = None.
Proof.
  induction rs as [|r rs IH]; simpl; [done|].
  destruct (is_pair id r); [done|].
  destruct (alter_first id f rs); [done|]. intros _. by rewrite IH.
Qed.

Lemma alter_first_twice id (f g : row -> row) (rs rs' : list row) :
  (forall r, pair_id (f r) = pair_id r) ->
  alter_first id f rs = Some rs' ->
  alter_first id g rs' = alter_first id (g ∘ f) rs.
Proof.
  intros Hf. revert rs'. induction rs as [|r rs IH]; intros rs'; simpl; [done|].
  destruct (is_pair id r) eqn:Hr.
  - intros [= <-]. simpl. unfold is_pair in *. by rewrite Hf, Hr.
  - destruct (alter_first id f rs) as [rs0|]; [|done].
    intros [= <-]. simpl. rewrite Hr. by rewrite (IH rs0).
Qed.

Lemma alter_row_twice id (f g : row -> row) (doc : list account) :
  (forall r, pair_id (f r) = pair_id r) ->
  alter_row id g (alter_row id f doc) = alter_row id (g ∘ f) doc.
Proof.
  intros Hf. induction doc as [|a doc IH]; simpl; [done|].
  destruct (alter_first id f (rows a)) as [rs|] eqn:Hrs; simpl.
  - rewrite (alter_first_twice id f g _ _ Hf Hrs).
    destruct (alter_first id (g ∘ f) (rows a)) as [rs2|] eqn:Hrs2; [done|].
    by rewrite (alter_first_None id (g ∘ f) f _ Hrs2) in Hrs.
  - rewrite (alter_first_None id f g _ Hrs), (alter_first_None id f (g ∘ f) _ Hrs).
    by rewrite IH.
Qed.

Lemma zero_cells_zeroed id (doc : list account) :
  zero_cells id doc = alter_row id zeroed doc.
Proof. unfold zero_cells. by rewrite alter_row_twice. Qed.

Lemma alter_first_app id (f : row -> row) (l1 l2 : list row) :
  alter_first id f (l1 ++ l2)
  = match alter_first id f l1 with
    | Some l1' => Some (l1' ++ l2)%list
    | None => app l1 <$> alter_first id f l2
    end.
Proof.
  induction l1 as [|r l1 IH]; simpl.
  - by destruct (alter_first id f l2).
  - destruct (is_pair id r); [done|]. rewrite IH.
    destruct (alter_first id f l1); [done|]. by destruct (alter_first id f l2).
Qed.

(** Altering the first row of the document leaves the headings alone. *)
Lemma alter_row_headings id (f : row -> row) (doc : list account) :
  heading_of <$> alter_row id f doc = heading_of <$> doc.
Proof.
  induction doc as [|a doc IH]; simpl; [done|].
  destruct (alter_first id f (rows a)); rewrite !fmap_cons; [done|]. by rewrite IH.
Qed.

(** In document order it changes the first row with the pair id and no
    other. *)
Lemma alter_row_rows id (f : row -> row) (doc : list account) :
  all_rows (alter_row id f doc)
  = default (all_rows doc) (alter_first id f (all_rows doc)).
Proof.
  induction doc as [|a doc IH]; [done|].
  change (all_rows (a :: doc)) with (rows a ++ all_rows doc)%list.
  rewrite alter_first_app. simpl.
  destruct (alter_first id f (rows a)) as [rs|]; [done|].
  change (all_rows (a :: alter_row id f doc))
    with (rows a ++ all_rows (alter_row id f doc))%list.
  rewrite IH. by destruct (alter_first id f (all_rows doc)).
Qed.

(** C10. When the server confirms the reset of the profit of a pair, the
    headings of all accounts keep their totals, and of the rows only the
    first one with that pair id changes: both its profit cells read "0.0".
    Nothing is alerted or logged. So the heading can differ from the sum of
    the rows below it: after the reset of pair 7 on the sample page the
    heading of its account still reads 12.5000 over rows that add up to
    2.5000. *)
Theorem reset_zeroes_only_the_pair :
  (forall (pairId : Z) (ok : bool) (statusText : string) (resp : object) (p : page),
     is_str "success" (get resp "status") = true ->
     let p' := on_reset pairId (Responded ok statusText (Some resp)) p in
     heading_of <$> accordion p' = heading_of <$> accordion p /\
     all_rows (accordion p')
     = default (all_rows (accordion p))
         (alter_first (pretty pairId) zeroed (all_rows (accordion p))) /\
     log p' = log p) /\
  (exists a,
     a ∈ accordion (final Fixtures.confirming (resetProfit true 7) Fixtures.accounts_page) /\
     pnl_usdc a = "12.5000" /\
     toFixed (sum_of usdc (rows a)) 4 = "2.5000" /\
     pnl_crypto a = "0.000300" /\
     toFixed (sum_of crypto (rows a)) 6 = "0.000200").
Proof.
  split.
  - intros pairId ok statusText resp p Hok p'. unfold p', on_reset. rewrite Hok. simpl.
    rewrite zero_cells_zeroed. split; [apply alter_row_headings|].
    split; [apply alter_row_rows|done].
  - eexists. split; [by apply elem_of_cons; left|].
    repeat split; vm_compute; reflexivity.
Qed.

End ProfitReset.

Section ProfitScenarios.
Import Js Async Profit Fixtures.

Lemma accounts_page_well_formed : well_formed (accordion accounts_page).
Proof. split; compute_done. Qed.


(** The removal of pair 8 on the sample page: its row is gone, the heading of
    binance/real reads what the row of pair 7 shows, bybit/real is as it was,
    and a refresh is asked for. *)
Example removal_on_sample_page :
  final confirming (removePairProfit true 8) accounts_page
  = {| accordion :=
         [ {| key := "binance_real"; pnl_usdc := "10.0000"; pnl_crypto := "0.000100";
              rows := [ {| pair_id := "7"; symbol := "BTCUSDC";
                           usdc := "10.0000"; crypto := "0.000100" |} ] |};
           {| key := "bybit_real"; pnl_usdc := "1.0000"; pnl_crypto := "0.000000";
              rows := [ {| pair_id := "9"; symbol := "SOLUSDC";
                           usdc := "1.0000"; crypto := "0.000000" |} ] |} ];
       log := [Refresh] |}.
Proof. vm_compute. reflexivity. Qed.

Lemma reset_zeroes_only_the_pair_witness :
  is_str "success" (get success "status") = true /\
  heading_of <$> accordion (on_reset 7 (Responded true "OK" (Some success)) accounts_page)
  = heading_of <$> accordion accounts_page.
Proof.
  split; [reflexivity|].
  exact (proj1 (proj1 reset_zeroes_only_the_pair 7%Z true "OK" success accounts_page eq_refl)).
Defined.

(** [renderPairProfits] on an account without rows: the rows show the
    profits with 4 and 6 decimals and the heading their totals. *)
Example render_on_sample_page :
  renderPairProfits
    [("binance_real",
      [ {| record_id := 7; record_symbol := "BTCUSDC";
           profit_usdc := Num 10; profit_crypto := Num (1 # 10000) |};
        {| record_id := 8; record_symbol := "ETHUSDC";
           profit_usdc := Num (25 # 10); profit_crypto := Num (2 # 10000) |} ])]
    [ {| key := "binance_real"; pnl_usdc := "0"; pnl_crypto := "0"; rows := [] |} ]
  = [ {| key := "binance_real"; pnl_usdc := "12.5000"; pnl_crypto := "0.000300";
         rows := [ {| pair_id := "7"; symbol := "BTCUSDC";
                      usdc := "10.0000"; crypto := "0.000100" |};
                   {| pair_id := "8"; symbol := "ETHUSDC";
                      usdc := "2.5000"; crypto := "0.000200" |} ] |} ].
Proof. vm_compute. reflexivity. Qed.

(** A dismissed [confirm] dialog sends nothing and changes nothing. *)
Example dismissed_reset :
  run confirming (resetProfit false 7) accounts_page = ([], accounts_page, inr tt).
Proof. reflexivity. Qed.

End ProfitScenarios.

(** ** Rendering prices *)

Section PriceRendering.
Import Js Dom Async Dashboard.

Lemma price_text_in_contract (v : value) :
  in_contract v -> rendered_as_specified v (price_text v).
Proof. destruct v as [| |b|q|s]; simpl; try done. by intros ->. Qed.

Lemma market_price_text_in_contract (v : value) :
  in_contract v -> market_price_text v = inr (market_text v).
Proof.
  destruct v as [| |b|q|s]; simpl; try done.
  - intros _. unfold market_price_text. simpl. by destruct (Qeq_bool q 0).
  - by intros ->.
Qed.

(** On a cache whose prices are in contract [updateMarketTable] goes through
    all rows without an exception. *)
Lemma updateMarketTable_in_contract (cache : gmap string value) (table : list (string * string)) :
  (forall symbol, symbol ∈ table.*1 -> in_contract (default Undefined (cache !! symbol))) ->
  updateMarketTable cache table
  = ((fun row => (row.1, market_text (default Undefined (cache !! row.1)))) <$> table, None).
Proof.
  induction table as [|[symbol old] table IH]; intros Hc; simpl; [done|].
  rewrite market_price_text_in_contract by (apply Hc; by apply elem_of_cons; left).
  rewrite IH; [done|]. intros s Hs. apply Hc. by apply elem_of_cons; right.
Qed.

Lemma rows_push_symbol prices ts (p : page) symbol :
  rows (push_symbol prices ts p symbol) = rows p.
Proof.
  unfold push_symbol.
  destruct (query_row symbol (rows p)) as [row|]; [|done].
  destruct (given (data_id row)) as [id|]; [|done].
  destruct (getElementById ("price-" +:+ id) p);
    (match goal with |- context [match ?x with Some _ => _ | None => _ end] => destruct x end; done).
Qed.

Lemma query_row_spec symbol (rs : list tr) row :
  query_row symbol rs = Some row -> row ∈ rs /\ data_symbol row = symbol.
Proof.
  unfold query_row. intros [Hin Heq]%find_some. split; [by apply list_elem_of_In|].
  by apply String.eqb_eq.
Qed.

(** What one step of the loop does to the price cell of a row. *)
Lemma push_symbol_price_cell prices ts (p : page) symbol id :
  getElementById ("price-" +:+ id) (push_symbol prices ts p symbol)
  = match query_row symbol (rows p) with
    | Some row =>
        if decide (given (data_id row) = Some id)
        then set_innerText (price_text (get prices symbol))
               <$> getElementById ("price-" +:+ id) p
        else getElementById ("price-" +:+ id) p
    | None => getElementById ("price-" +:+ id) p
    end.
Proof.
  unfold push_symbol.
  destruct (query_row symbol (rows p)) as [row|]; [|done].
  destruct (given (data_id row)) as [id'|]; [|by rewrite decide_False].
  assert (Hcell : getElementById ("price-" +:+ id)
            match getElementById ("price-" +:+ id') p with
            | Some _ =>
                update ("price-" +:+ id') (set_innerText (price_text (get prices symbol))) p
            | None =>
                emit (ConsoleWarn ("Price cell with id 'price-" +:+ id' +:+
                                   "' not found for symbol '" +:+ symbol +:+ "'.")) p
            end
          = if decide (Some id' = Some id)
            then set_innerText (price_text (get prices symbol))
                   <$> getElementById ("price-" +:+ id) p
            else getElementById ("price-" +:+ id) p).
  { destruct (decide (Some id' = Some id)) as [[= ->]|Hne].
    - destruct (getElementById ("price-" +:+ id) p) as [c|] eqn:Hc.
      + by rewrite getElementById_update_eq, Hc.
      + by rewrite getElementById_emit, Hc.
    - destruct (getElementById ("price-" +:+ id') p).
      + apply getElementById_update_ne. intros ?; simplify_eq/=.
      + done. }
  match goal with
  | |- context [match getElementById ("action-" +:+ id') ?q with _ => _ end] =>
      destruct (getElementById ("action-" +:+ id') q)
  end; [|exact Hcell].
  rewrite !getElementById_update_ne by done. exact Hcell.
Qed.

Section OneSymbol.
Variables (prices : object) (ts : object) (symbol : string) (row : tr) (id : string).

Local Abbreviation shown := (price_shown prices symbol id).

Lemma push_symbol_keeps_cell (p : page) s :
  is_Some (getElementById ("price-" +:+ id) p) ->
  is_Some (getElementById ("price-" +:+ id) (push_symbol prices ts p s)).
Proof.
  intros [c Hc]. rewrite push_symbol_price_cell, Hc.
  destruct (query_row s (rows p)); [|eauto]. case_decide; simpl; eauto.
Qed.

Lemma push_symbol_shows (p : page) :
  query_row symbol (rows p) = Some row ->
  given (data_id row) = Some id ->
  is_Some (getElementById ("price-" +:+ id) p) ->
  shown (push_symbol prices ts p symbol).
Proof.
  intros Hrow Hid [c Hc]. unfold price_shown.
  rewrite push_symbol_price_cell, Hrow, decide_True, Hc by done.
  simpl. eauto.
Qed.

Lemma push_symbol_keeps_shown (p : page) s :
  distinct_ids (rows p) ->
  query_row symbol (rows p) = Some row ->
  given (data_id row) = Some id ->
  shown p -> shown (push_symbol prices ts p s).
Proof.
  intros Hdist Hrow Hid (c & Hc & Htext). unfold price_shown.
  rewrite push_symbol_price_cell, Hc.
  destruct (query_row s (rows p)) as [row'|] eqn:Hrow'; [|eauto].
  case_decide as Hid'; [|eauto]. simpl. eexists. split; [done|]. simpl.
  apply query_row_spec in Hrow as [Hin Hs]. apply query_row_spec in Hrow' as [Hin' Hs'].
  by rewrite <- Hs', <- Hs, (Hdist row' row id Hin' Hin Hid' Hid).
Qed.

Lemma foldl_push_symbol_keeps_shown (l : list string) (p : page) :
  distinct_ids (rows p) ->
  query_row symbol (rows p) = Some row ->
  given (data_id row) = Some id ->
  shown p -> shown (foldl (push_symbol prices ts) p l).
Proof.
  revert p. induction l as [|s l IH]; intros p Hdist Hrow Hid Hshown; simpl; [done|].
  apply IH; rewrite ?rows_push_symbol; try done.
  by apply push_symbol_keeps_shown.
Qed.

Lemma foldl_push_symbol_shows (l : list string) (p : page) :
  distinct_ids (rows p) ->
  query_row symbol (rows p) = Some row ->
  given (data_id row) = Some id ->
  is_Some (getElementById ("price-" +:+ id) p) ->
  symbol ∈ l ->
  shown (foldl (push_symbol prices ts) p l).
Proof.
  revert p. induction l as [|s l IH]; intros p Hdist Hrow Hid Hcell Hin; simpl.
  - by apply elem_of_nil in Hin.
  - destruct (decide (s = symbol)) as [->|Hne].
    + apply foldl_push_symbol_keeps_shown; rewrite ?rows_push_symbol; try done.
      by apply push_symbol_shows.
    + apply elem_of_cons in Hin as [Heq|Hin]; [congruence|].
      apply IH; rewrite ?rows_push_symbol; try done.
      by apply push_symbol_keeps_cell.
Qed.

End OneSymbol.

Lemma market_push_symbol prices ts (p : page) symbol :
  market (push_symbol prices ts p symbol) = market p.
Proof.
  unfold push_symbol.
  destruct (query_row symbol (rows p)) as [row|]; [|done].
  destruct (given (data_id row)) as [id|]; [|done].
  destruct (getElementById ("price-" +:+ id) p);
    (match goal with |- context [match ?x with Some _ => _ | None => _ end] => destruct x end; done).
Qed.

Lemma market_foldl_push prices ts (l : list string) (p : page) :
  market (foldl (push_symbol prices ts) p l) = market p.
Proof.
  revert p. induction l as [|s l IH]; intros p; simpl; [done|].
  by rewrite IH, market_push_symbol.
Qed.

(** The handler is the loop over the symbols, started on the page with the
    merged cache and followed by the redraw of the market overview. *)
Lemma on_price_update_loop prices ts (p : page) :
  exists p1,
    on_price_update prices ts p
    = redraw_market (foldl (push_symbol prices (default [] ts)) p1 (keys prices)) /\
    elements p1 = elements p /\ rows p1 = rows p /\ market p1 = market p /\
    priceCache p1 = spread (priceCache p) prices.
Proof. unfold on_price_update. eexists. split; [reflexivity|]. done. Qed.

(** C3 (as the code has it). For the prices the server sends (a number, the
    string "N/A", or none: null, undefined) a [price_update] message writes
    into the price cell of every symbol it carries the number formatted to 4
    decimal places, and "N/A" when the price is not a number; the market
    overview, when the page has one, is redrawn from the merged cache without
    an exception, each row showing "$" and the 4-decimal format of a non-zero
    number and "N/A" otherwise. A string that is not "N/A" is written into the
    price cell as it is, and [true] as "true". *)
Theorem prices_render_in_contract (prices : object) (ts : option object) (p : page) :
  distinct_ids (rows p) ->
  (forall symbol row id,
     symbol ∈ keys prices ->
     in_contract (get prices symbol) ->
     query_row symbol (rows p) = Some row ->
     given (data_id row) = Some id ->
     is_Some (getElementById ("price-" +:+ id) p) ->
     exists cell,
       getElementById ("price-" +:+ id) (on_price_update prices ts p) = Some cell /\
       rendered_as_specified (get prices symbol) (innerText cell)) /\
  (forall table,
     market p = Some table ->
     (forall symbol, symbol ∈ table.*1 ->
        in_contract (default Undefined (spread (priceCache p) prices !! symbol))) ->
     (updateMarketTable (priceCache (on_price_update prices ts p)) table).2 = None /\
     market (on_price_update prices ts p)
     = Some ((fun row => (row.1, market_text
                                   (default Undefined
                                      (spread (priceCache p) prices !! row.1)))) <$> table)) /\
  (forall s, price_text (Str s) = if String.eqb s "" then "N/A" else s) /\
  (forall b : bool, price_text (Bool b) = if b then "true" else "N/A").
Proof.
  intros Hdist.
  destruct (on_price_update_loop prices ts p) as (p1 & Hloop & Hel & Hrows & Hmarket & Hcache).
  split; [|split; [|split]].
  - intros symbol row id Hin Hc Hrow Hid Hcell.
    destruct (foldl_push_symbol_shows prices (default [] ts) symbol row id (keys prices) p1)
      as (c & Hlookup & Htext); rewrite ?Hrows; try done.
    { unfold getElementById. by rewrite Hel. }
    exists c. rewrite Hloop. unfold getElementById in *.
    rewrite elements_redraw_market. split; [done|].
    rewrite Htext. by apply price_text_in_contract.
  - intros table Htable Hc.
    rewrite priceCache_on_price_update, updateMarketTable_in_contract by done.
    split; [done|].
    rewrite Hloop. unfold redraw_market.
    rewrite market_foldl_push, priceCache_foldl_push, Hmarket, Hcache, Htable.
    by rewrite updateMarketTable_in_contract.
  - intros s0. simpl. by destruct (String.eqb s0 "").
  - by intros [].
Qed.

End PriceRendering.

Section PriceScenarios.
Import Js Dom Async Dashboard Fixtures.

Lemma stopped_page_distinct_ids : distinct_ids (rows stopped_page).
Proof.
  intros r1 r2 id H1 H2 _ _.
  apply list_elem_of_singleton in H1. apply list_elem_of_singleton in H2. by subst.
Qed.

Lemma prices_render_in_contract_witness :
  distinct_ids (rows stopped_page) /\
  exists cell,
    getElementById ("price-" +:+ "7")
      (on_price_update [("BTCUSDC", Num 50000)] None stopped_page) = Some cell /\
    rendered_as_specified (get [("BTCUSDC", Num 50000)] "BTCUSDC") (innerText cell).
Proof.
  split; [exact stopped_page_distinct_ids|].
  apply (proj1 (prices_render_in_contract [("BTCUSDC", Num 50000)] None stopped_page
                  stopped_page_distinct_ids)
           "BTCUSDC" {| data_symbol := "BTCUSDC"; data_id := Some "7" |} "7").
  - apply list_elem_of_singleton. reflexivity.
  - exact I.
  - reflexivity.
  - reflexivity.
  - eexists. reflexivity.
Defined.

(** C3, as stated, fails: a price that is a string other than "N/A" is
    written into the price cell as it is. *)
Lemma unavailable_price_is_written_raw :
  ~ renders_as_specified [("BTCUSDC", Str "unavailable")] None stopped_page.
Proof.
  intros H.
  assert (Hin : "BTCUSDC" ∈ keys [("BTCUSDC", Str "unavailable")])
    by (apply list_elem_of_singleton; reflexivity).
  specialize (H "BTCUSDC" _ "7" _ Hin eq_refl eq_refl eq_refl).
  discriminate H.
Qed.

(** A push message on the sample page: the cell shows the price with four
    decimals, the cache holds the new price next to the old ones. *)
Example price_update_sample :
  let p := on_price_update [("BTCUSDC", Num (500001234 # 10000))] None stopped_page in
  label "price-7" p = Some "50000.1234" /\
  priceCache p !! "BTCUSDC" = Some (Num (500001234 # 10000)) /\
  priceCache p !! "ETHUSDC" = Some (Num 3000).
Proof. repeat split; vm_compute; reflexivity. Qed.

(** The market overview stops at the first row whose cached price is a
    string other than "N/A": that row and the rows after it are not redrawn. *)
Example market_table_throws :
  updateMarketTable {["BTCUSDC" := Str "unavailable"; "ETHUSDC" := Num 3000]}
    [("ETHUSDC", "Loading..."); ("BTCUSDC", "Loading..."); ("SOLUSDC", "Loading...")]
  = ([("ETHUSDC", "$3000.0000"); ("BTCUSDC", "Loading..."); ("SOLUSDC", "Loading...")],
     Some "priceCache[symbol].toFixed is not a function").
Proof. vm_compute. reflexivity. Qed.

(** [initializeMarketTable] lacks the test for "N/A" that [updateMarketTable]
    has: a price "N/A" at load time throws and no table is created. *)
Example initial_table_throws_on_NA :
  initializeMarketTable ["BTCUSDC"; "ETHUSDC"] {["BTCUSDC" := Str "N/A"; "ETHUSDC" := Num 3000]}
  = (None, Some "priceCache[pair].toFixed is not a function").
Proof. vm_compute. reflexivity. Qed.

End PriceScenarios.

(** ** A toggle the server refuses *)

Section ToggleRefused.
Import Js Dom Async Dashboard.

Lemma invalid_is_truthy (s : string) :
  includes (toLowerCase s) "invalid" = true -> truthy (Str s) = true.
Proof. destruct s as [|c s]; [discriminate|done]. Qed.

(** The handler of the control response on a body whose [status] mentions
    "invalid". *)
Lemma on_control_invalid id btnId statusText data s (p : page) :
  get data "status" = Str s ->
  includes (toLowerCase s) "invalid" = true ->
  on_control id btnId (Responded true statusText (Some data)) p
  = toggle_catch btnId s (emit (Alert s) p).
Proof.
  intros Hs Hinv. unfold on_control. simpl.
  rewrite Hs, (invalid_is_truthy s Hinv). by rewrite Hinv.
Qed.

Lemma log_toggle_catch btnId msg (p : page) :
  log (toggle_catch btnId msg p).1
  = (log p ++ [Alert ("Trade error: " +:+ msg);
               ConsoleError ("Error toggling bot: " +:+ msg)])%list.
Proof.
  unfold toggle_catch. simpl. rewrite <- app_assoc. simpl.
  by destruct (given btnId).
Qed.

(** X1. When the server answers the control request of a toggle with a
    status that mentions "invalid", the user is alerted twice, once with the
    status and once with "Trade error: " before it, the error is logged, the
    promise is rejected with the status and the button stays as it was. *)
Theorem refused_toggle_alerts_twice (pairId : Z) (symbol exchange mode : string)
    (btnId : option string) (p : page) (btn : element) :
  getElementById (button_id btnId pairId) p = Some btn ->
  exists t,
    toggleBot pairId symbol exchange mode btnId p = inr (p, t) /\
    forall (srv : server request) (s : string),
      (exists ok statusText body,
         srv _ (ClearOpenPositions symbol exchange mode) = Responded ok statusText body) ->
      (forall action, exists statusText data,
         srv _ (Control action pairId) = Responded true statusText (Some data) /\
         get data "status" = Str s) ->
      includes (toLowerCase s) "invalid" = true ->
      settled srv t p = inl s /\
      log (final srv t p)
      = (log p ++ [Alert s; Alert ("Trade error: " +:+ s);
                   ConsoleError ("Error toggling bot: " +:+ s)])%list /\
      getElementById (button_id btnId pairId) (final srv t p) = Some btn.
Proof.
  intros Hbtn.
  assert (Hctl : forall action (srv : server request) (s : string),
    (forall action, exists statusText data,
       srv _ (Control action pairId) = Responded true statusText (Some data) /\
       get data "status" = Str s) ->
    includes (toLowerCase s) "invalid" = true ->
    let t := Await (Control action pairId) (on_control (button_id btnId pairId) btnId) in
    settled srv t p = inl s /\
    log (final srv t p)
    = (log p ++ [Alert s; Alert ("Trade error: " +:+ s);
                 ConsoleError ("Error toggling bot: " +:+ s)])%list /\
    getElementById (button_id btnId pairId) (final srv t p) = Some btn).
  { intros action srv s Hsrv Hinv t. unfold t.
    rewrite settled_Await, final_Await.
    destruct (Hsrv action) as (statusText & data & -> & Hs).
    rewrite (on_control_invalid _ _ _ _ s p Hs Hinv).
    split; [done|]. split.
    - change (final srv (toggle_catch btnId s (emit (Alert s) p)).2
                (toggle_catch btnId s (emit (Alert s) p)).1)
        with (toggle_catch btnId s (emit (Alert s) p)).1.
      rewrite log_toggle_catch. simpl. by rewrite <- app_assoc.
    - rewrite <- Hbtn.
      apply (toggle_catch_keeps_button _ _ _ (emit (Alert s) p) p eq_refl), button_id_given. }
  unfold toggleBot. rewrite Hbtn.
  eexists. split; [reflexivity|]. intros srv s (ok & statusText & body & Hclear) Hsrv Hinv.
  destruct (String.eqb (trim (innerText btn)) "Start"); simpl; [|by apply Hctl].
  rewrite settled_Await, final_Await, Hclear. simpl. by apply Hctl.
Qed.

End ToggleRefused.

(** ** What a poll of the run states does to the page *)

Section PollOutcome.
Import Js Dom Async Dashboard.

Lemma frame_poll_pair statuses (p : page) k :
  rows (poll_pair statuses p k) = rows p /\
  market (poll_pair statuses p k) = market p /\
  priceCache (poll_pair statuses p k) = priceCache p /\
  log (poll_pair statuses p k) = log p.
Proof. unfold poll_pair. by destruct (getElementById ("action-" +:+ k) p). Qed.

Lemma frame_poll statuses (l : list string) (p : page) :
  rows (foldl (poll_pair statuses) p l) = rows p /\
  market (foldl (poll_pair statuses) p l) = market p /\
  priceCache (foldl (poll_pair statuses) p l) = priceCache p /\
  log (foldl (poll_pair statuses) p l) = log p.
Proof.
  revert p. induction l as [|k l IH]; intros p; simpl; [done|].
  destruct (IH (poll_pair statuses p k)) as (-> & -> & -> & ->).
  apply frame_poll_pair.
Qed.

(** X2. A poll of the run states sends one request, never rejects and
    never alerts: it leaves the rows, the market overview and the price cache
    alone, and when it fails it changes no element and writes one error to
    the console. *)
Theorem poll_is_silent (srv : server request) (p : page) :
  let p' := final srv updateAllBotStatuses p in
  settled srv updateAllBotStatuses p = inr tt /\
  requests srv updateAllBotStatuses p = [existT object BotStatuses] /\
  rows p' = rows p /\ market p' = market p /\ priceCache p' = priceCache p /\
  match srv object BotStatuses with
  | Responded true _ (Some _) => log p' = log p
  | _ => elements p' = elements p /\ exists m, log p' = (log p ++ [ConsoleError m])%list
  end.
Proof.
  unfold updateAllBotStatuses. cbv zeta.
  rewrite settled_Await, requests_Await, final_Await.
  unfold on_bot_statuses, poll_catch.
  destruct (srv object BotStatuses) as [reason|[] statusText [statuses|]]; simpl;
    try (repeat split; eauto; done).
  unfold final. simpl.
  destruct (frame_poll statuses (keys statuses) p) as (-> & -> & -> & ->). done.
Qed.

(** What a button shows for a run state. *)
Lemma show_running_shows v (btn : element) :
  innerText (show_running v btn) = (if truthy v then "Stop" else "Start") /\
  ("btn-success" ∈ classList (show_running v btn) <-> truthy v = false) /\
  (v ≠ Undefined ->
   ("btn-danger" ∈ classList (show_running v btn) <-> truthy v = true)).
Proof.
  split; [apply innerText_show_running|].
  unfold show_running, classList_toggle, classList_contains, classList_add, classList_remove.
  destruct v as [| |b|q|s]; simpl; repeat case_match; simpl;
    rewrite ?elem_of_union, ?elem_of_difference, ?elem_of_union, ?elem_of_difference,
      ?elem_of_singleton;
    intuition (discriminate || congruence).
Qed.

Lemma poll_pair_button statuses (p : page) k k' :
  getElementById ("action-" +:+ k) (poll_pair statuses p k')
  = if decide (k' = k)
    then show_running (get statuses k) <$> getElementById ("action-" +:+ k) p
    else getElementById ("action-" +:+ k) p.
Proof.
  unfold poll_pair. case_decide as Hk.
  - subst k'. destruct (getElementById ("action-" +:+ k) p) as [b|] eqn:Hb.
    + rewrite getElementById_update_ne by done.
      by rewrite getElementById_update_eq, Hb.
    + by rewrite Hb.
  - destruct (getElementById ("action-" +:+ k') p); [|done].
    rewrite !getElementById_update_ne; [done| |]; intros ?; simplify_eq/=.
Qed.

Lemma poll_keeps_shown statuses (l : list string) (p : page) k (b : element) :
  getElementById ("action-" +:+ k) p = Some (show_running (get statuses k) b) ->
  exists b', getElementById ("action-" +:+ k) (foldl (poll_pair statuses) p l)
             = Some (show_running (get statuses k) b').
Proof.
  revert p b. induction l as [|k' l IH]; intros p b Hb; simpl; [eauto|].
  destruct (decide (k' = k)) as [->|Hne].
  - apply (IH _ (show_running (get statuses k) b)).
    by rewrite poll_pair_button, decide_True, Hb.
  - apply (IH _ b). by rewrite poll_pair_button, decide_False.
Qed.

Lemma poll_shows statuses (l : list string) (p : page) k (btn : element) :
  k ∈ l ->
  getElementById ("action-" +:+ k) p = Some btn ->
  exists b', getElementById ("action-" +:+ k) (foldl (poll_pair statuses) p l)
             = Some (show_running (get statuses k) b').
Proof.
  revert p btn. induction l as [|k' l IH]; intros p btn Hin Hbtn; simpl.
  - by apply elem_of_nil in Hin.
  - destruct (decide (k' = k)) as [->|Hne].
    + apply (poll_keeps_shown _ _ _ _ btn).
      by rewrite poll_pair_button, decide_True, Hbtn.
    + apply elem_of_cons in Hin as [Heq|Hin]; [congruence|].
      apply (IH _ btn Hin). by rewrite poll_pair_button, decide_False.
Qed.

(** X3. After a poll that succeeds, the button of every pair the server
    reports shows the reported state: "Stop" when it runs and "Start" when
    not, green exactly when stopped and, for a reported value, red exactly
    when running. *)
Theorem poll_shows_reported_state (srv : server request) (p : page)
    (statusText : string) (statuses : object) (k : string) (btn : element) :
  srv object BotStatuses = Responded true statusText (Some statuses) ->
  k ∈ keys statuses ->
  getElementById ("action-" +:+ k) p = Some btn ->
  exists btn',
    getElementById ("action-" +:+ k) (final srv updateAllBotStatuses p) = Some btn' /\
    innerText btn' = (if truthy (get statuses k) then "Stop" else "Start") /\
    ("btn-success" ∈ classList btn' <-> truthy (get statuses k) = false) /\
    (get statuses k ≠ Undefined ->
     ("btn-danger" ∈ classList btn' <-> truthy (get statuses k) = true)).
Proof.
  intros Hsrv Hk Hbtn. unfold updateAllBotStatuses.
  rewrite final_Await, Hsrv. simpl. unfold final. simpl.
  destruct (poll_shows statuses (keys statuses) p k btn Hk Hbtn) as [b' Hb'].
  eexists. split; [exact Hb'|]. apply show_running_shows.
Qed.

End PollOutcome.

(** ** The refused toggle and the poll on the sample page *)

Section RefusedAndPolled.
Import Js Dom Async Dashboard Fixtures Samples.

Lemma refused_toggle_alerts_twice_witness :
  getElementById (button_id (Some "action-7") 7) stopped_page
  = Some (el "Start" ["btn"; "btn-success"]) /\
  exists t,
    toggleBot 7 "BTCUSDC" "binance" "real" (Some "action-7") stopped_page
    = inr (stopped_page, t) /\
    settled (answering invalid_pair) t stopped_page = inl "Invalid pair" /\
    log (final (answering invalid_pair) t stopped_page)
    = [Alert "Invalid pair"; Alert "Trade error: Invalid pair";
       ConsoleError "Error toggling bot: Invalid pair"].
Proof.
  split; [reflexivity|].
  destruct (refused_toggle_alerts_twice 7 "BTCUSDC" "binance" "real" (Some "action-7")
              stopped_page (el "Start" ["btn"; "btn-success"]) eq_refl) as (t & Ht & H).
  exists t. split; [exact Ht|].
  destruct (H (answering invalid_pair) "Invalid pair") as (Hs & Hl & _).
  - by eexists _, _, _.
  - intros action. by eexists _, _.
  - reflexivity.
  - split; [exact Hs|exact Hl].
Defined.

Lemma poll_shows_reported_state_witness :
  answering [("7", Bool true)] object BotStatuses
  = Responded true "OK" (Some [("7", Bool true)]) /\
  exists btn',
    getElementById "action-7"
      (final (answering [("7", Bool true)]) updateAllBotStatuses stopped_page) = Some btn' /\
    innerText btn' = "Stop".
Proof.
  split; [reflexivity|].
  destruct (poll_shows_reported_state (answering [("7", Bool true)]) stopped_page "OK"
              [("7", Bool true)] "7" (el "Start" ["btn"; "btn-success"]) eq_refl)
    as (btn' & Hb & Ht & _).
  - apply list_elem_of_singleton. reflexivity.
  - reflexivity.
  - exists btn'. split; [exact Hb|exact Ht].
Defined.

End RefusedAndPolled.

(** ** The run-state button under a price update *)

Section PushedRunState.
Import Js Dom Async Dashboard.

(** What one step of the loop does to the button of a row. *)
Lemma push_symbol_button prices ts (p : page) symbol id :
  getElementById ("action-" +:+ id) (push_symbol prices ts p symbol)
  = match query_row symbol (rows p) with
    | Some row =>
        if decide (given (data_id row) = Some id)
        then show_running (get ts symbol) <$> getElementById ("action-" +:+ id) p
        else getElementById ("action-" +:+ id) p
    | None => getElementById ("action-" +:+ id) p
    end.
Proof.
  unfold push_symbol.
  destruct (query_row symbol (rows p)) as [row|]; [|done].
  destruct (given (data_id row)) as [id'|]; [|by rewrite decide_False].
  set (p1 := match getElementById ("price-" +:+ id') p with
             | Some _ =>
                 update ("price-" +:+ id') (set_innerText (price_text (get prices symbol))) p
             | None =>
                 emit (ConsoleWarn ("Price cell with id 'price-" +:+ id' +:+
                                    "' not found for symbol '" +:+ symbol +:+ "'.")) p
             end).
  assert (Hp1 : forall k, getElementById ("action-" +:+ k) p1 = getElementById ("action-" +:+ k) p).
  { intros k. unfold p1. destruct (getElementById ("price-" +:+ id') p); [|done].
    by rewrite getElementById_update_ne. }
  destruct (decide (Some id' = Some id)) as [[= ->]|Hne].
  - rewrite Hp1. destruct (getElementById ("action-" +:+ id) p) as [b|] eqn:Hb.
    + rewrite getElementById_update_ne by done.
      by rewrite getElementById_update_eq, Hp1, Hb.
    + by rewrite Hp1, Hb.
  - destruct (getElementById ("action-" +:+ id') p1).
    + rewrite !getElementById_update_ne; [apply Hp1| |]; intros ?; simplify_eq/=.
    + apply Hp1.
Qed.

Section OneButton.
Variables (prices : object) (ts : object) (symbol : string) (row : tr) (id : string).

(** A step for another symbol leaves the button alone. *)
Lemma push_symbol_other_button (p : page) s :
  distinct_ids (rows p) ->
  query_row symbol (rows p) = Some row ->
  given (data_id row) = Some id ->
  s ≠ symbol ->
  getElementById ("action-" +:+ id) (push_symbol prices ts p s)
  = getElementById ("action-" +:+ id) p.
Proof.
  intros Hdist Hrow Hid Hne. rewrite push_symbol_button.
  destruct (query_row s (rows p)) as [row'|] eqn:Hrow'; [|done].
  case_decide as Hid'; [|done]. exfalso. apply Hne.
  apply query_row_spec in Hrow as [Hin Hs]. apply query_row_spec in Hrow' as [Hin' Hs'].
  by rewrite <- Hs', <- Hs, (Hdist row' row id Hin' Hin Hid' Hid).
Qed.

Lemma foldl_push_symbol_other_button (l : list string) (p : page) :
  distinct_ids (rows p) ->
  query_row symbol (rows p) = Some row ->
  given (data_id row) = Some id ->
  symbol ∉ l ->
  getElementById ("action-" +:+ id) (foldl (push_symbol prices ts) p l)
  = getElementById ("action-" +:+ id) p.
Proof.
  revert p. induction l as [|s l IH]; intros p Hdist Hrow Hid Hnin; simpl; [done|].
  apply not_elem_of_cons in Hnin as [Hne Hnin].
  rewrite IH by (rewrite ?rows_push_symbol; done).
  by apply push_symbol_other_button.
Qed.

Lemma foldl_push_symbol_button (l : list string) (p : page) (btn : element) :
  distinct_ids (rows p) ->
  query_row symbol (rows p) = Some row ->
  given (data_id row) = Some id ->
  NoDup l -> symbol ∈ l ->
  getElementById ("action-" +:+ id) p = Some btn ->
  getElementById ("action-" +:+ id) (foldl (push_symbol prices ts) p l)
  = Some (show_running (get ts symbol) btn).
Proof.
  revert p. induction l as [|s l IH]; intros p Hdist Hrow Hid Hnd Hin Hbtn; simpl.
  - by apply elem_of_nil in Hin.
  - apply NoDup_cons in Hnd as [Hs Hnd].
    destruct (decide (s = symbol)) as [->|Hne].
    + rewrite foldl_push_symbol_other_button by (rewrite ?rows_push_symbol; done).
      by rewrite push_symbol_button, Hrow, decide_True, Hbtn.
    + apply elem_of_cons in Hin as [Heq|Hin]; [congruence|].
      apply IH; rewrite ?rows_push_symbol; try done.
      by rewrite push_symbol_other_button.
Qed.

End OneButton.

(** X4. On a page whose rows have distinct ids, a price update that
    names a symbol of a row sets the run-state button of that row from the
    trade status of the update: the button shows "Stop" exactly when the
    status of the symbol is truthy. When the update says nothing about the
    symbol the button shows "Start" and its red class is flipped. *)
Theorem price_update_sets_run_state (prices : object) (ts : option object) (p : page)
    (symbol : string) (row : tr) (id : string) (btn : element) :
  distinct_ids (rows p) ->
  NoDup (keys prices) ->
  symbol ∈ keys prices ->
  query_row symbol (rows p) = Some row ->
  given (data_id row) = Some id ->
  getElementById ("action-" +:+ id) p = Some btn ->
  let running := get (default [] ts) symbol in
  exists btn',
    getElementById ("action-" +:+ id) (on_price_update prices ts p) = Some btn' /\
    btn' = show_running running btn /\
    innerText btn' = (if truthy running then "Stop" else "Start") /\
    (running = Undefined ->
     innerText btn' = "Start" /\
     ("btn-danger" ∈ classList btn' <-> "btn-danger" ∉ classList btn)).
Proof.
  intros Hdist Hnd Hin Hrow Hid Hbtn running.
  destruct (on_price_update_loop prices ts p) as (p1 & Hloop & Hel & Hrows & _ & _).
  exists (show_running running btn). split; [|split; [done|split]].
  - rewrite Hloop. unfold getElementById at 1. rewrite elements_redraw_market.
    apply (foldl_push_symbol_button prices (default [] ts) symbol row id);
      rewrite ?Hrows; try done.
    unfold getElementById. by rewrite Hel.
  - apply innerText_show_running.
  - intros Hun. rewrite innerText_show_running, Hun. split; [done|].
    unfold show_running, classList_toggle, classList_contains, classList_add, classList_remove.
    simpl. case_bool_decide as Hd; simpl;
      rewrite ?elem_of_union, ?elem_of_difference, ?elem_of_union, ?elem_of_singleton in *;
      intuition (discriminate || congruence).
Qed.

End PushedRunState.

(** ** Prices for symbols the page does not list *)

Section UnlistedSymbols.
Import Js Dom Async Dashboard.

(** The warning of the handler for a symbol without a row. *)
Local Abbreviation no_row symbol :=
  (ConsoleWarn ("Price update for symbol '" +:+ symbol +:+
                "' but no matching row found in the table.")).

Lemma foldl_push_symbol_unlisted prices ts (l : list string) (p : page) :
  (forall s, s ∈ l -> query_row s (rows p) = None) ->
  elements (foldl (push_symbol prices ts) p l) = elements p /\
  log (foldl (push_symbol prices ts) p l) = (log p ++ ((fun s => no_row s) <$> l))%list.
Proof.
  revert p. induction l as [|s l IH]; intros p Hl; simpl.
  - by rewrite app_nil_r.
  - assert (Hs : push_symbol prices ts p s = emit (no_row s) p).
    { unfold push_symbol. rewrite Hl; [done|]. by apply elem_of_cons; left. }
    rewrite Hs. destruct (IH (emit (no_row s) p)) as [-> ->].
    + intros s' Hs'. apply Hl. by apply elem_of_cons; right.
    + simpl. by rewrite <- app_assoc.
Qed.

(** X5. A price update whose symbols have no row on the page changes no
    element: on a page without the market overview it writes one warning per
    symbol to the console, in the order of the update, and stores the prices
    in the cache. *)
Theorem unlisted_prices_only_warn (prices : object) (ts : option object) (p : page) :
  (forall s, s ∈ keys prices -> query_row s (rows p) = None) ->
  market p = None ->
  let p' := on_price_update prices ts p in
  elements p' = elements p /\
  log p' = (log p ++ ((fun s => no_row s) <$> keys prices))%list /\
  priceCache p' = spread (priceCache p) prices.
Proof.
  intros Hrows Hmarket p'. unfold p', on_price_update.
  set (p1 := {| elements := elements p; rows := rows p; market := market p;
                priceCache := spread (priceCache p) prices; log := log p |}).
  destruct (foldl_push_symbol_unlisted prices (default [] ts) (keys prices) p1 Hrows)
    as [Hel Hlog].
  split; [|split].
  - by rewrite elements_redraw_market, Hel.
  - unfold redraw_market. rewrite market_foldl_push. simpl. rewrite Hmarket. exact Hlog.
  - by rewrite priceCache_redraw_market, priceCache_foldl_push.
Qed.

End UnlistedSymbols.

(** ** Price updates on the sample page *)

Section PushedScenarios.
Import Js Dom Async Dashboard Fixtures.

Lemma price_update_sets_run_state_witness :
  distinct_ids (rows stopped_page) /\
  exists btn',
    getElementById "action-7"
      (on_price_update [("BTCUSDC", Num 50100)] (Some [("BTCUSDC", Bool true)]) stopped_page)
    = Some btn' /\
    innerText btn' = "Stop".
Proof.
  split; [exact stopped_page_distinct_ids|].
  destruct (price_update_sets_run_state [("BTCUSDC", Num 50100)]
              (Some [("BTCUSDC", Bool true)]) stopped_page "BTCUSDC"
              {| data_symbol := "BTCUSDC"; data_id := Some "7" |} "7"
              (el "Start" ["btn"; "btn-success"]) stopped_page_distinct_ids)
    as (btn' & Hb & _ & Ht & _).
  - apply NoDup_singleton.
  - apply list_elem_of_singleton. reflexivity.
  - reflexivity.
  - reflexivity.
  - reflexivity.
  - exists btn'. split; [exact Hb|exact Ht].
Defined.

Lemma unlisted_prices_only_warn_witness :
  market stopped_page = None /\
  log (on_price_update [("DOGEUSDC", Num 1)] None stopped_page)
  = [ConsoleWarn
       "Price update for symbol 'DOGEUSDC' but no matching row found in the table."] /\
  elements (on_price_update [("DOGEUSDC", Num 1)] None stopped_page)
  = elements stopped_page.
Proof.
  split; [reflexivity|].
  destruct (unlisted_prices_only_warn [("DOGEUSDC", Num 1)] None stopped_page)
    as (He & Hl & _).
  - intros s Hs. apply list_elem_of_singleton in Hs. subst s. reflexivity.
  - reflexivity.
  - split; [exact Hl|exact He].
Defined.

End PushedScenarios.

(** ** The market overview *)

Section MarketOverview.
Import Js Dom Async Dashboard MarketTable.

Lemma market_price_text_showable (v : value) :
  showable v = true -> market_price_text v = inr (market_text v).
Proof.
  unfold showable, market_price_text, market_text.
  destruct v as [| |b|q|s]; simpl; try done.
  - by destruct b.
  - by destruct (Qeq_bool q 0).
  - destruct (String.eqb s ""); simpl; [done|].
    rewrite orb_false_r. by intros ->.
Qed.

Lemma market_price_text_throws (v : value) :
  showable v = false -> exists e, market_price_text v = inl e.
Proof.
  unfold showable, market_price_text.
  destruct v as [| |b|q|s]; simpl; try done.
  - destruct b; [eauto|done].
  - by rewrite orb_true_r.
  - destruct (String.eqb s ""); simpl; [done|].
    rewrite orb_false_r. intros ->. simpl. eauto.
Qed.

Lemma updateMarketTable_symbols (cache : gmap string value) (table : list (string * string)) :
  (updateMarketTable cache table).1.*1 = table.*1.
Proof.
  induction table as [|[symbol old] table IH]; simpl; [done|].
  destruct (market_price_text (default Undefined (cache !! symbol))) as [e|t]; [done|].
  destruct (updateMarketTable cache table) as [rest r]. simpl in *.
  by f_equal.
Qed.

Lemma updateMarketTable_showable (cache : gmap string value) (table : list (string * string)) :
  (forall s, s ∈ table.*1 -> showable (default Undefined (cache !! s)) = true) ->
  updateMarketTable cache table
  = ((fun row => (row.1, market_text (default Undefined (cache !! row.1)))) <$> table, None).
Proof.
  induction table as [|[symbol old] table IH]; intros Hc; simpl; [done|].
  rewrite market_price_text_showable by (apply Hc; by apply elem_of_cons; left).
  rewrite IH; [done|]. intros s Hs. apply Hc. by apply elem_of_cons; right.
Qed.

Lemma updateMarketTable_None (cache : gmap string value) (table : list (string * string)) :
  (updateMarketTable cache table).2 = None ->
  forall s, s ∈ table.*1 -> showable (default Undefined (cache !! s)) = true.
Proof.
  induction table as [|[symbol old] table IH]; simpl; intros Hr s Hs.
  - by apply elem_of_nil in Hs.
  - destruct (showable (default Undefined (cache !! symbol))) eqn:Hv.
    + rewrite market_price_text_showable in Hr by done.
      destruct (updateMarketTable cache table) as [rest r]. simpl in *.
      apply elem_of_cons in Hs as [->|Hs]; [done|]. by apply IH.
    + destruct (market_price_text_throws _ Hv) as [e He]. by rewrite He in Hr.
Qed.

Lemma market_text_cases (v : value) :
  market_text v = "N/A" \/ exists q, v = Num q /\ market_text v = "$" +:+ toFixed q 4.
Proof.
  destruct v as [| |b|q|s]; simpl; auto.
  destruct (Qeq_bool q 0); eauto.
Qed.

(** X6. A redraw of the market overview keeps the rows and their symbols,
    whatever the cache holds. It gets through all rows exactly when every
    cached price of a row is falsy, "N/A" or a number, and then every row
    shows "N/A" or "$" and the cached number with 4 decimals. *)
Theorem market_redraw_outcome (cache : gmap string value) (table : list (string * string)) :
  let res := updateMarketTable cache table in
  res.1.*1 = table.*1 /\
  (res.2 = None <->
   forall s, s ∈ table.*1 -> showable (default Undefined (cache !! s)) = true) /\
  (res.2 = None ->
   forall s t, (s, t) ∈ res.1 ->
     t = "N/A" \/ exists q, cache !! s = Some (Num q) /\ t = "$" +:+ toFixed q 4).
Proof.
  cbv zeta. split; [apply updateMarketTable_symbols|]. split; [split|].
  - apply updateMarketTable_None.
  - intros Hc. by rewrite updateMarketTable_showable.
  - intros Hr s t Hin.
    rewrite updateMarketTable_showable in Hin by by apply updateMarketTable_None.
    simpl in Hin. apply list_elem_of_fmap in Hin as ([s' old] & [= -> ->] & _). simpl.
    destruct (market_text_cases (default Undefined (cache !! s'))) as [?|(q & Hq & ?)]; [by left|].
    right. exists q. split; [|done].
    destruct (cache !! s') as [v|]; simpl in Hq; by subst.
Qed.

Lemma initial_rows_showable (cache : gmap string value) (pairs : list string) :
  (forall s, s ∈ pairs ->
     let v := default Undefined (cache !! s) in truthy v = false \/ is_number v = true) ->
  exists table, initial_rows cache pairs = inr table /\ table.*1 = pairs.
Proof.
  induction pairs as [|s pairs IH]; intros Hc; simpl; [by exists []|].
  destruct IH as (table & -> & Hs).
  { intros s' Hs'. apply Hc. by apply elem_of_cons; right. }
  destruct (Hc s) as [Hf|Hn]; [by apply elem_of_cons; left| |].
  - unfold initial_price_text. rewrite Hf. eexists. split; [done|]. simpl. by f_equal.
  - unfold initial_price_text.
    destruct (default Undefined (cache !! s)) as [| |b|q|s0]; try done.
    destruct (truthy (Num q)); eexists; (split; [done|]); simpl; by f_equal.
Qed.

(** X7. When every listed pair has a cached price that is a number or
    none at all (or a falsy value), building the market overview does not
    throw and no row is left at "Loading...": each row shows what a redraw
    shows for the cached price. *)
Theorem initial_table_shows_no_placeholder (pairs : list string) (cache : gmap string value) :
  (forall s, s ∈ pairs ->
     let v := default Undefined (cache !! s) in truthy v = false \/ is_number v = true) ->
  initializeMarketTable pairs cache
  = (Some ((fun s => (s, market_text (default Undefined (cache !! s)))) <$> pairs), None) /\
  forall s t,
    (s, t) ∈ (fun s => (s, market_text (default Undefined (cache !! s)))) <$> pairs ->
    t ≠ "Loading...".
Proof.
  intros Hc. split.
  - unfold initializeMarketTable.
    destruct (initial_rows_showable cache pairs Hc) as (table & -> & Hs).
    rewrite updateMarketTable_showable.
    + rewrite <- Hs. by rewrite <- list_fmap_compose.
    + rewrite Hs. intros s Hin. unfold showable.
      destruct (Hc s Hin) as [->| ->]; [done|]. by rewrite orb_true_r.
  - intros s t Hin. apply list_elem_of_fmap in Hin as (s' & [= -> ->] & _).
    destruct (market_text_cases (default Undefined (cache !! s'))) as [->|(q & _ & ->)]; done.
Qed.

End MarketOverview.

Section MarketScenarios.
Import Js Dom Async Dashboard.

Lemma initial_table_shows_no_placeholder_witness :
  initializeMarketTable ["BTCUSDC"; "ETHUSDC"] {["BTCUSDC" := Num 50000]}
  = (Some [("BTCUSDC", "$50000.0000"); ("ETHUSDC", "N/A")], None).
Proof.
  refine (proj1 (initial_table_shows_no_placeholder ["BTCUSDC"; "ETHUSDC"]
                   {["BTCUSDC" := Num 50000]} _)).
  intros s Hs. apply elem_of_cons in Hs as [->|Hs]; [by right|].
  apply list_elem_of_singleton in Hs. subst s. by left.
Defined.

End MarketScenarios.

(** ** What a poll of the notifications raises and remembers *)

Section PollAlerts.
Import Js Async Notifications Alerts.

Lemma identities_delivers (data : notifications) x :
  x ∈ identities data <-> exists symbol m, delivers symbol m data /\ x = identity symbol m.
Proof.
  unfold identities, delivers. rewrite list_elem_of_In, in_concat. split.
  - intros (l & Hl & Hx). apply in_map_iff in Hl as ([symbol ms] & <- & He).
    apply in_map_iff in Hx as (m & <- & Hm). simpl.
    exists symbol, m. split; [|done]. exists ms. by rewrite !list_elem_of_In.
  - intros (symbol & m & (ms & Hin & Hm) & ->).
    exists (map (identity symbol) ms). split.
    + apply in_map_iff. exists (symbol, ms). split; [done|]. by apply list_elem_of_In.
    + apply in_map, list_elem_of_In, Hm.
Qed.

Lemma shown_from_same (data : notifications) st0 st :
  seenNotifications st = seenNotifications st0 -> alerts st = alerts st0 ->
  shown_from data st0 st.
Proof.
  intros Hs Ha. split; [by rewrite Hs|]. split; [rewrite Hs; by left|].
  exists []. rewrite app_nil_r.
  split; [done|]. split; [constructor|]. intros a Hin. by apply elem_of_nil in Hin.
Qed.

Lemma shown_from_append_item (data : notifications) it st0 st :
  shown_from data st0 st -> shown_from data st0 (append_item it st).
Proof. done. Qed.

Lemma shown_from_notice (data : notifications) symbol m st0 st :
  delivers symbol m data ->
  shown_from data st0 st -> shown_from data st0 (notice symbol m st).
Proof.
  intros Hd (Hmono & Hsub & new & Hal & Hnd & Hnew). unfold notice.
  case_bool_decide as Hin; [by split; [|split; [|exists new]]|].
  split; [|split]; simpl.
  - intros x Hx. apply elem_of_union. right. by apply Hmono.
  - intros x [Hx%elem_of_singleton|Hx]%elem_of_union; [|by apply Hsub].
    right. apply identities_delivers. eauto.
  - destruct (String.eqb_spec (type m) "error") as [Hty|Hty].
    + exists (new ++ [alert_of symbol m])%list. split; [by rewrite Hal, app_assoc|]. split.
      * rewrite fmap_app. apply NoDup_app. split; [done|]. split; [|apply NoDup_singleton].
        intros x Hx [= ->]%list_elem_of_singleton.
        apply list_elem_of_fmap in Hx as (a & Ha & Hin').
        apply Hin. rewrite Ha. by apply Hnew.
      * intros a [Ha|Ha%list_elem_of_singleton]%elem_of_app.
        -- destruct (Hnew a Ha) as (Hs & Hn & Hex).
           split; [|done]. apply elem_of_union. by right.
        -- subst a. simpl. split; [|split].
           ++ apply elem_of_union. left. by apply elem_of_singleton.
           ++ intros Hs0. by apply Hin, Hmono.
           ++ eauto.
    + exists new. split; [done|]. split; [done|].
      intros a Ha. destruct (Hnew a Ha) as (Hs & Hn & Hex).
      split; [|done]. apply elem_of_union. by right.
Qed.

Lemma shown_from_show_symbol (data : notifications) symbol ms st0 st :
  (forall m, m ∈ ms -> delivers symbol m data) ->
  shown_from data st0 st -> shown_from data st0 (show_symbol st (symbol, ms)).
Proof.
  unfold show_symbol. simpl. revert st.
  induction ms as [|m ms IH]; intros st Hd Hs; simpl; [done|].
  apply IH.
  - intros m' Hm'. apply Hd. by apply elem_of_cons; right.
  - apply shown_from_append_item, shown_from_notice; [|done].
    apply Hd. by apply elem_of_cons; left.
Qed.

Lemma shown_from_foldl (data l : notifications) st0 st :
  (forall e, e ∈ l -> e ∈ data) ->
  shown_from data st0 st -> shown_from data st0 (foldl show_symbol st l).
Proof.
  revert st. induction l as [|[symbol ms] l IH]; intros st Hl Hs; simpl; [done|].
  apply IH.
  - intros e He. apply Hl. by apply elem_of_cons; right.
  - apply shown_from_show_symbol; [|done].
    intros m Hm. exists ms. split; [|done]. apply Hl. by apply elem_of_cons; left.
Qed.

Lemma shown_from_on_data (data : notifications) st :
  shown_from data st (on_data data st).
Proof.
  unfold on_data. simpl. destruct (list_items st); [|by apply shown_from_same].
  do 2 apply shown_from_append_item.
  apply shown_from_foldl; [done|]. by apply shown_from_same.
Qed.

(** X8. A poll of the notifications only adds alerts: the alerts it adds
    have distinct identities, and each of them is for a notification of type
    "error" that the response delivers and that was not in the seen-set
    before the poll. *)
Theorem poll_alerts_new_errors_once (srv : server request) (st : state) :
  exists new,
    alerts (final srv updateNotifications st) = (alerts st ++ new)%list /\
    NoDup (cause <$> new) /\
    forall a, a ∈ new ->
      (cause a ∉ seenNotifications st) /\
      exists ok statusText data symbol m,
        srv notifications GetNotifications = Responded ok statusText (Some data) /\
        delivers symbol m data /\ type m = "error" /\ a = alert_of symbol m.
Proof.
  unfold updateNotifications. rewrite final_Await.
  destruct (srv notifications GetNotifications) as [reason|ok statusText [data|]].
  - exists []. rewrite app_nil_r. split; [done|]. split; [constructor|].
    intros a Ha. by apply elem_of_nil in Ha.
  - destruct (shown_from_on_data data st) as (_ & _ & new & Hal & Hnd & Hnew).
    exists new. split; [exact Hal|]. split; [done|].
    intros a Ha. destruct (Hnew a Ha) as (_ & Hn & symbol & m & Hd & Hty & ->).
    split; [done|]. by exists ok, statusText, data, symbol, m.
  - exists []. rewrite app_nil_r. split; [done|]. split; [constructor|].
    intros a Ha. by apply elem_of_nil in Ha.
Qed.

(** X9. On a page with the notification list, a poll that gets a body
    leaves in the seen-set what was in it and the identity of every
    notification the body delivers, whatever its type, and nothing else. *)
Theorem poll_marks_delivered_seen (srv : server request) (st : state)
    (ok : bool) (statusText : string) (data : notifications) :
  srv notifications GetNotifications = Responded ok statusText (Some data) ->
  is_Some (list_items st) ->
  forall x,
    x ∈ seenNotifications (final srv updateNotifications st) <->
    x ∈ seenNotifications st \/
    exists symbol m, delivers symbol m data /\ x = identity symbol m.
Proof.
  intros Hsrv Hl x. unfold updateNotifications. rewrite final_Await, Hsrv.
  change (final srv (Fulfilled data) (on_data data st)) with (on_data data st).
  split.
  - intros Hx. destruct (shown_from_on_data data st) as (_ & Hsub & _).
    destruct (Hsub x Hx) as [?|Hid]; [by left|]. right. by apply identities_delivers.
  - intros [Hx|(symbol & m & Hd & ->)].
    + by apply on_data_seen_mono.
    + by apply on_data_seen.
Qed.

Lemma count_show_symbol st (e : string * list msg) : count (show_symbol st e) = count st.
Proof.
  unfold show_symbol. destruct e as [symbol ms]. simpl. revert st.
  induction ms as [|m ms IH]; intros st; simpl; [done|].
  rewrite IH. unfold show_message, append_item, notice. simpl. by case_bool_decide.
Qed.

Lemma count_foldl_show_symbol (data : notifications) st :
  count (foldl show_symbol st data) = count st.
Proof.
  revert st. induction data as [|e data IH]; intros st; simpl; [done|].
  by rewrite IH, count_show_symbol.
Qed.

Lemma length_entries (data : notifications) :
  length (concat (map (fun e => map (entry_of e.1) e.2) data)) = length (concat data.*2).
Proof.
  induction data as [|[symbol ms] data IH]; simpl; [done|].
  by rewrite !length_app, length_map, IH.
Qed.

(** X10. On a page with the badge and the list, a poll that gets a body
    replaces the list by one entry per delivered notification, in the order
    of the body, followed by the divider and the clear-all entry, and the
    badge shows the number of those entries. *)
Theorem badge_counts_listed_entries (srv : server request) (st : state)
    (ok : bool) (statusText : string) (data : notifications) :
  srv notifications GetNotifications = Responded ok statusText (Some data) ->
  is_Some (count st) ->
  is_Some (list_items st) ->
  let st' := final srv updateNotifications st in
  exists entries,
    entries = concat (map (fun e => map (entry_of e.1) e.2) data) /\
    list_items st' = Some (entries ++ [Divider; ClearAll])%list /\
    count st' = Some (pretty (length entries)).
Proof.
  intros Hsrv [c Hc] Hl st'. unfold st', updateNotifications. rewrite final_Await, Hsrv.
  change (final srv (Fulfilled data) (on_data data st)) with (on_data data st).
  eexists. split; [reflexivity|]. split; [by apply on_data_items|].
  rewrite length_entries. unfold on_data, final. simpl. rewrite Hc. simpl.
  destruct (list_items st); [|done]. simpl. by rewrite count_foldl_show_symbol.
Qed.

(** X11. When the clearing request gets a JSON body and the poll that
    follows it gets the notifications, the operation resolves with them and
    the seen-set holds afterwards exactly the identities of the notifications
    that poll delivers: what was seen before is forgotten. *)
Theorem cleared_seen_is_refreshed (srv : server request) (st : state)
    (ok1 ok2 : bool) (text1 text2 : string) (body : object) (data : notifications) :
  srv object PostClearNotifications = Responded ok1 text1 (Some body) ->
  srv notifications GetNotifications = Responded ok2 text2 (Some data) ->
  is_Some (list_items st) ->
  settled srv clearNotifications st = inr (Some data) /\
  forall x,
    x ∈ seenNotifications (final srv clearNotifications st) <->
    exists symbol m, delivers symbol m data /\ x = identity symbol m.
Proof.
  intros Hclear Hget Hl. unfold clearNotifications.
  rewrite settled_Await, final_Await, Hclear. simpl.
  rewrite settled_Await, final_Await, Hget. simpl. split; [done|].
  change (final srv (Fulfilled (Some data)) (on_data data (clear_seen st)))
    with (on_data data (clear_seen st)).
  intros x. split.
  - intros Hx. destruct (shown_from_on_data data (clear_seen st)) as (_ & Hsub & _).
    destruct (Hsub x Hx) as [Hx0|Hid]; [by apply not_elem_of_empty in Hx0|].
    by apply identities_delivers.
  - intros (symbol & m & Hd & ->). by apply on_data_seen.
Qed.

Lemma on_data_without_list (data : notifications) st :
  list_items st = None ->
  on_data data st
  = {| seenNotifications := seenNotifications st;
       count := (fun _ => pretty (length (concat data.*2))) <$> count st;
       list_items := None; alerts := alerts st; console := console st |}.
Proof. intros Hl. unfold on_data. simpl. by rewrite Hl. Qed.

(** X12. On a page without the notification list, polls never alert,
    never touch the seen-set and never create the list; the badge, when there
    is one, still shows the number of notifications of the last body. *)
Theorem page_without_list_never_alerts (ds : list notifications) (st : state) :
  list_items st = None ->
  alerts (polls ds st) = alerts st /\
  seenNotifications (polls ds st) = seenNotifications st /\
  list_items (polls ds st) = None /\
  forall d, count (polls (ds ++ [d]) st)
            = (fun _ => pretty (length (concat d.*2))) <$> count st.
Proof.
  intros Hl.
  assert (H : alerts (polls ds st) = alerts st /\
              seenNotifications (polls ds st) = seenNotifications st /\
              list_items (polls ds st) = None /\
              (fun _ => tt) <$> count (polls ds st) = (fun _ => tt) <$> count st).
  { unfold polls. revert st Hl. induction ds as [|d ds IH]; intros st Hl; simpl; [done|].
    destruct (IH (on_data d st)) as (-> & -> & -> & ->);
      rewrite on_data_without_list by done; [done|].
    repeat split. simpl. by destruct (count st). }
  destruct H as (Ha & Hs & Hn & Hc). repeat split; try done.
  intros d. rewrite polls_snoc, on_data_without_list by done. simpl.
  by destruct (count (polls ds st)), (count st).
Qed.

End PollAlerts.

(** ** Polls of the sample log *)

Section AlertScenarios.
Import Js Async Notifications Fixtures Samples.

Lemma poll_marks_delivered_seen_witness :
  is_Some (list_items navbar) /\
  identity "BTCUSDC" order_failed
  ∈ seenNotifications (final failing_clear updateNotifications navbar).
Proof.
  assert (H : is_Some (list_items navbar)) by (by eexists).
  split; [exact H|].
  apply (proj2 (poll_marks_delivered_seen failing_clear navbar true "OK" rolling_log
                  eq_refl H _)).
  right. exists "BTCUSDC", order_failed. split; [|reflexivity].
  exists [order_failed]. split; apply list_elem_of_singleton; reflexivity.
Defined.

Lemma badge_counts_listed_entries_witness :
  is_Some (count navbar) /\ is_Some (list_items navbar) /\
  count (final failing_clear updateNotifications navbar) = Some "1".
Proof.
  assert (H1 : is_Some (count navbar)) by (by eexists).
  assert (H2 : is_Some (list_items navbar)) by (by eexists).
  split; [exact H1|]. split; [exact H2|].
  destruct (badge_counts_listed_entries failing_clear navbar true "OK" rolling_log
              eq_refl H1 H2) as (entries & -> & _ & Hc).
  exact Hc.
Defined.

Lemma cleared_seen_is_refreshed_witness :
  is_Some (list_items navbar) /\
  settled failing_clear clearNotifications navbar = inr (Some rolling_log).
Proof.
  assert (H : is_Some (list_items navbar)) by (by eexists).
  split; [exact H|].
  exact (proj1 (cleared_seen_is_refreshed failing_clear navbar false true
                  "INTERNAL SERVER ERROR" "OK" [("error", Str "database is locked")]
                  rolling_log eq_refl eq_refl H)).
Defined.

Lemma page_without_list_never_alerts_witness :
  list_items bare_page = None /\
  alerts (polls [rolling_log] bare_page) = [] /\
  count (polls [rolling_log; rolling_log] bare_page) = Some "1".
Proof.
  split; [reflexivity|].
  destruct (page_without_list_never_alerts [rolling_log] bare_page eq_refl)
    as (Ha & _ & _ & Hc).
  split; [exact Ha|exact (Hc rolling_log)].
Defined.

End AlertScenarios.

(** ** Totals recomputed from the cells and totals of the server *)

Section Rounding.
Import Js Profit.

Lemma inject_pow10_pos (f : nat) : (0 < inject_Z (10 ^ Z.of_nat f))%Q.
Proof. pose proof (pow10_pos f). unfold Qlt. simpl. lia. Qed.

(** Scaling rounds to the nearest integer. *)
Lemma scaled_near (a : Q) (f : nat) :
  (0 <= a)%Q ->
  (- (1 # 2) <= inject_Z (Z.of_N (scaled a f)) - a * inject_Z (10 ^ Z.of_nat f) <= 1 # 2)%Q.
Proof.
  intros Ha. pose proof (inject_pow10_pos f) as HP.
  unfold scaled. remember (inject_Z (10 ^ Z.of_nat f)) as P eqn:HeqP. clear HeqP.
  assert (HaP : (0 <= a * P)%Q) by (apply Qmult_le_0_compat; lra).
  assert (Hy : (0 <= a * P + (1 # 2))%Q) by lra.
  assert (Hfl : (0 <= Qfloor (a * P + (1 # 2)))%Z).
  { change 0%Z with (Qfloor 0). by apply Qfloor_resp_le. }
  rewrite Z2N.id by done.
  pose proof (Qfloor_le (a * P + (1 # 2))) as Hle.
  pose proof (Qlt_floor (a * P + (1 # 2))) as Hlt.
  rewrite inject_Z_plus in Hlt. change (inject_Z 1) with 1%Q in Hlt.
  split; lra.
Qed.

(** What [toFixed] writes reads back within half a unit of the last
    decimal. *)
Lemma toFixed_reads_back_near (x : Q) (f : nat) :
  0 < f ->
  (- (1 # 2) <= (number_or_0 (toFixed x f) - x) * inject_Z (10 ^ Z.of_nat f) <= 1 # 2)%Q.
Proof.
  intros Hf. pose proof (inject_pow10_pos f) as HP.
  destruct (parseFloat_toFixed x f Hf) as (q & Hq & Hval).
  unfold number_or_0. rewrite Hq. simpl.
  destruct (Qle_bool 0 x) eqn:Hx; simpl in Hval.
  - apply Qle_bool_iff in Hx.
    pose proof (scaled_near x f Hx) as Hn.
    remember (inject_Z (10 ^ Z.of_nat f)) as P eqn:HeqP. clear HeqP.
    assert (Heq : ((q - x) * P == inject_Z (Z.of_N (scaled x f)) - x * P)%Q).
    { rewrite Hval. field. lra. }
    rewrite Heq. exact Hn.
  - assert (Hneg : (0 <= - x)%Q).
    { destruct (Qlt_le_dec x 0) as [Hlt|Hge]; [lra|].
      apply Qle_bool_iff in Hge. congruence. }
    pose proof (scaled_near (- x) f Hneg) as Hn.
    remember (inject_Z (10 ^ Z.of_nat f)) as P eqn:HeqP. clear HeqP.
    assert (Heq : ((q - x) * P == - (inject_Z (Z.of_N (scaled (- x) f)) - (- x) * P))%Q).
    { rewrite Hval. field. lra. }
    rewrite Heq. split; lra.
Qed.

Lemma totals_near (f : nat) (field : pair_profit -> value) (cell : row -> string)
    (l : list pair_profit) (acc1 acc2 : Q) (k : nat) :
  0 < f ->
  (forall pp, cell (profit_row pp) = number_text (field pp) f) ->
  (forall pp, pp ∈ l -> is_number (field pp) = true) ->
  (- (inject_Z (Z.of_nat k) * (1 # 2))
   <= (acc1 - acc2) * inject_Z (10 ^ Z.of_nat f)
   <= inject_Z (Z.of_nat k) * (1 # 2))%Q ->
  exists t,
    foldl (fun acc pp =>
             match acc, to_number (field pp) with
             | Some a, Some q => Some (a + q)%Q
             | _, _ => None
             end) (Some acc2) l = Some t /\
    (- (inject_Z (Z.of_nat (k + length l)) * (1 # 2))
     <= (foldl (fun acc r => (acc + number_or_0 (cell r))%Q) acc1 (profit_row <$> l) - t)
        * inject_Z (10 ^ Z.of_nat f)
     <= inject_Z (Z.of_nat (k + length l)) * (1 # 2))%Q.
Proof.
  intros Hf Hcell. revert acc1 acc2 k.
  induction l as [|pp l IH]; intros acc1 acc2 k Hnum Hacc; simpl.
  - exists acc2. split; [done|]. by rewrite Nat.add_0_r.
  - destruct (field pp) as [| |b|q|s] eqn:Hpp;
      try (by (discriminate (Hnum pp ltac:(by apply elem_of_cons; left)))
           || (exfalso; specialize (Hnum pp ltac:(by apply elem_of_cons; left));
               rewrite Hpp in Hnum; discriminate Hnum)).
    simpl. rewrite Hcell, Hpp.
    destruct (IH (acc1 + number_or_0 (number_text (Num q) f))%Q (acc2 + q)%Q (S k))
      as (t & Ht & Hbound).
    + intros pp' Hin. apply Hnum. by apply elem_of_cons; right.
    + pose proof (toFixed_reads_back_near q f Hf) as Hq.
      change (number_text (Num q) f) with (toFixed q f).
      rewrite Nat2Z.inj_succ. unfold Z.succ. rewrite inject_Z_plus.
      change (inject_Z 1) with 1%Q.
      remember (inject_Z (10 ^ Z.of_nat f)) as P eqn:HeqP. clear HeqP.
      remember (number_or_0 (toFixed q f)) as v eqn:Heqv. clear Heqv.
      assert (Heq : ((acc1 + v - (acc2 + q)) * P == (acc1 - acc2) * P + (v - q) * P)%Q) by ring.
      rewrite Heq. split; lra.
    + exists t. split; [exact Ht|].
      by replace (k + S (length l)) with (S k + length l) by lia.
Qed.

(** X13. When every profit of an account is a number, the totals the
    server data give are defined, and the totals a removal would recompute
    from the cells of the rendered rows differ from them by at most half a
    unit of the last shown decimal per row: 0.00005 per row for USDC and
    0.0000005 per row for the crypto amount. *)
Theorem recomputed_total_within_rounding (l : list pair_profit) :
  (forall pp, pp ∈ l ->
     is_number (profit_usdc pp) = true /\ is_number (profit_crypto pp) = true) ->
  exists tu tc,
    raw_total profit_usdc l = Some tu /\
    raw_total profit_crypto l = Some tc /\
    (Qabs (sum_of usdc (profit_row <$> l) - tu)
     <= inject_Z (Z.of_nat (length l)) * (1 # 20000))%Q /\
    (Qabs (sum_of crypto (profit_row <$> l) - tc)
     <= inject_Z (Z.of_nat (length l)) * (1 # 2000000))%Q.
Proof.
  intros Hnum.
  destruct (totals_near 4 profit_usdc usdc l 0 0 0) as (tu & Htu & Hu);
    [lia|done|by intros pp Hpp; apply Hnum|split; by compute|].
  destruct (totals_near 6 profit_crypto crypto l 0 0 0) as (tc & Htc & Hc);
    [lia|done|by intros pp Hpp; apply Hnum|split; by compute|].
  exists tu, tc. split; [exact Htu|]. split; [exact Htc|].
  unfold sum_of. simpl in Hu, Hc.
  remember (inject_Z (Z.of_nat (length l))) as n eqn:Heqn. clear Heqn.
  change (inject_Z (10 ^ Z.of_nat 4)) with (10000 # 1)%Q in Hu.
  change (inject_Z (10 ^ Z.of_nat 6)) with (1000000 # 1)%Q in Hc.
  split; apply Qabs_Qle_condition; split; lra.
Qed.

End Rounding.

(** ** The accounts after the profit records are rendered *)

Section RenderedProfits.
Import Js Profit Rendered.

Lemma render_group_map (k : string) (l : list pair_profit) (doc : list account) :
  NoDup (key <$> doc) ->
  render_group k l doc
  = (fun a => if String.eqb (key a) k then rendered l a else a) <$> doc.
Proof.
  induction doc as [|a doc IH]; intros Hnd; simpl; [done|].
  simpl in Hnd. apply NoDup_cons in Hnd as [Ha Hnd].
  destruct (String.eqb_spec (key a) k) as [Heq|Hne].
  - f_equal. clear IH. induction doc as [|b doc IH]; simpl; [done|].
    simpl in Ha, Hnd. apply not_elem_of_cons in Ha as [Hb Ha].
    apply NoDup_cons in Hnd as [_ Hnd].
    destruct (String.eqb_spec (key b) k) as [Heq'|_]; [congruence|].
    f_equal. by apply IH.
  - f_equal. by apply IH.
Qed.

Lemma key_render_group (k : string) (l : list pair_profit) (doc : list account) :
  key <$> render_group k l doc = key <$> doc.
Proof.
  induction doc as [|a doc IH]; simpl; [done|].
  destruct (String.eqb (key a) k); simpl; [done|]. by f_equal.
Qed.

(** X14. When the accounts of the page and the groups of the data have
    distinct keys, rendering the profits treats the accounts one by one: each
    account is rendered from the group with its key alone, and the accounts
    keep their keys and their order. *)
Theorem renderPairProfits_by_account (grouped : list (string * list pair_profit))
    (doc : list account) :
  NoDup (key <$> doc) ->
  NoDup grouped.*1 ->
  renderPairProfits grouped doc = render_account grouped <$> doc /\
  key <$> renderPairProfits grouped doc = key <$> doc.
Proof.
  intros Hdoc Hg.
  assert (H : renderPairProfits grouped doc = render_account grouped <$> doc).
  { unfold renderPairProfits. revert doc Hdoc.
    induction grouped as [|[k l] grouped IH]; intros doc Hdoc; simpl.
    - unfold render_account, group_of. simpl. by rewrite list_fmap_id.
    - simpl in Hg. apply NoDup_cons in Hg as [Hk Hg].
      rewrite IH by (done || by rewrite key_render_group).
      rewrite render_group_map by done. rewrite <- list_fmap_compose.
      apply list_fmap_ext. intros i a _. simpl.
      unfold render_account, group_of. simpl.
      destruct (String.eqb_spec (key a) k) as [Heq|Hne].
      + simpl. rewrite Heq.
        assert (Hfind : find (fun g : string * list pair_profit => String.eqb g.1 k) grouped
                        = None).
        { destruct (find _ grouped) as [[k' l']|] eqn:Hf; [|done].
          apply find_some in Hf as [Hin Heq']. simpl in Heq'.
          apply String.eqb_eq in Heq'. subst k'. exfalso. apply Hk.
          apply list_elem_of_fmap. exists (k, l'). split; [done|]. by apply list_elem_of_In. }
        rewrite Hfind. simpl. by rewrite String.eqb_refl.
      + destruct (String.eqb_spec k (key a)) as [Heq|_]; [congruence|]. done. }
  split; [exact H|]. rewrite H, <- list_fmap_compose.
  apply list_fmap_ext. intros i a _. simpl. unfold render_account.
  by destruct (group_of (key a) grouped).
Qed.

End RenderedProfits.

(** ** Removals and resets that find no row *)

Section ProfitEdges.
Import Js Async Profit.

Lemma remove_row_None id (doc : list account) :
  first_row id doc = None -> remove_row id doc = None.
Proof.
  induction doc as [|a doc IH]; [done|].
  rewrite first_row_cons. simpl.
  destruct (has_row id a) eqn:Hhas.
  - apply has_row_find in Hhas as [r ->]. done.
  - rewrite (has_row_false_find _ _ Hhas). intros Hr. by rewrite IH.
Qed.

(** X15. After every answer to a removal that has a JSON body the data
    is fetched again: on success nothing is alerted, and a pair without a row
    leaves the tables as they are; on any other status the user is alerted
    first and the tables are left as they are. A dismissed confirmation sends nothing and changes
    nothing. *)
Theorem removal_always_refreshes (pairId : Z) (ok : bool) (statusText : string)
    (resp : object) (p : page) :
  let p' := on_remove pairId (Responded ok statusText (Some resp)) p in
  (if is_str "success" (get resp "status")
   then log p' = (log p ++ [Refresh])%list /\
        (first_row (pretty pairId) (accordion p) = None -> accordion p' = accordion p)
   else log p' = (log p ++ [Alert "Failed to remove profit record"; Refresh])%list /\
        accordion p' = accordion p) /\
  forall srv : server request,
    final srv (removePairProfit false pairId) p = p /\
    requests srv (removePairProfit false pairId) p = [].
Proof.
  cbv zeta. split; [|done]. unfold on_remove.
  destruct (is_str "success" (get resp "status")); simpl.
  - split; [done|]. intros Hnone. unfold remove_and_recompute.
    by rewrite remove_row_None.
  - split; [|done]. by rewrite <- app_assoc.
Qed.

Lemma alter_first_ext id (f g : row -> row) (rs : list row) :
  (forall r, f r = g r) -> alter_first id f rs = alter_first id g rs.
Proof.
  intros Hfg. induction rs as [|r rs IH]; simpl; [done|].
  destruct (is_pair id r); [by rewrite Hfg|]. by rewrite IH.
Qed.

Lemma alter_row_ext id (f g : row -> row) (doc : list account) :
  (forall r, f r = g r) -> alter_row id f doc = alter_row id g doc.
Proof.
  intros Hfg. induction doc as [|a doc IH]; simpl; [done|].
  rewrite (alter_first_ext id f g) by done.
  destruct (alter_first id g (rows a)); [done|]. by rewrite IH.
Qed.

Lemma alter_first_absent id (f : row -> row) (rs : list row) :
  find (is_pair id) rs = None -> alter_first id f rs = None.
Proof.
  induction rs as [|r rs IH]; simpl; [done|].
  destruct (is_pair id r); [done|]. intros Hf. by rewrite IH.
Qed.

Lemma alter_row_absent id (f : row -> row) (doc : list account) :
  first_row id doc = None -> alter_row id f doc = doc.
Proof.
  induction doc as [|a doc IH]; [done|].
  rewrite first_row_cons. simpl.
  destruct (find (is_pair id) (rows a)) eqn:Hfind; [done|].
  intros Hr. rewrite (alter_first_absent _ _ _ Hfind). by rewrite IH.
Qed.

(** X16. A confirmed reset of a pair that was reset before changes
    nothing more, and a confirmed reset of a pair without a row changes
    nothing at all. *)
Theorem reset_twice_is_reset_once (pairId : Z) (ok ok' : bool) (text text' : string)
    (resp resp' : object) (p : page) :
  is_str "success" (get resp "status") = true ->
  is_str "success" (get resp' "status") = true ->
  let once := on_reset pairId (Responded ok text (Some resp)) p in
  on_reset pairId (Responded ok' text' (Some resp')) once = once /\
  (first_row (pretty pairId) (accordion p) = None -> once = p).
Proof.
  intros Hok Hok' once. unfold once, on_reset. rewrite Hok, Hok'. simpl.
  rewrite !zero_cells_zeroed. split.
  - unfold with_accordion. simpl. f_equal.
    rewrite alter_row_twice by done. by apply alter_row_ext.
  - intros Hnone. rewrite alter_row_absent by done. by destruct p.
Qed.

End ProfitEdges.

(** ** Rendering and resetting on the sample page *)

Section RenderScenarios.
Import Js Async Profit Rendered Fixtures Samples.

Lemma recomputed_total_within_rounding_witness :
  exists tu tc,
    raw_total profit_usdc binance_profits = Some tu /\
    raw_total profit_crypto binance_profits = Some tc /\
    (Qabs (sum_of usdc (profit_row <$> binance_profits) - tu)
     <= inject_Z (Z.of_nat (length binance_profits)) * (1 # 20000))%Q /\
    (Qabs (sum_of crypto (profit_row <$> binance_profits) - tc)
     <= inject_Z (Z.of_nat (length binance_profits)) * (1 # 2000000))%Q.
Proof.
  apply (recomputed_total_within_rounding binance_profits).
  intros pp Hpp. apply elem_of_cons in Hpp as [->|Hpp]; [by split|].
  apply list_elem_of_singleton in Hpp. subst pp. by split.
Defined.

Lemma renderPairProfits_by_account_witness :
  NoDup (key <$> accordion accounts_page) /\
  renderPairProfits [("binance_real", binance_profits)] (accordion accounts_page)
  = render_account [("binance_real", binance_profits)] <$> accordion accounts_page.
Proof.
  assert (H : NoDup (key <$> accordion accounts_page)) by compute_done.
  split; [exact H|].
  refine (proj1 (renderPairProfits_by_account [("binance_real", binance_profits)]
                   (accordion accounts_page) H _)).
  apply NoDup_singleton.
Defined.

Lemma reset_twice_is_reset_once_witness :
  is_str "success" (get success "status") = true /\
  on_reset 7 (Responded true "OK" (Some success))
    (on_reset 7 (Responded true "OK" (Some success)) accounts_page)
  = on_reset 7 (Responded true "OK" (Some success)) accounts_page.
Proof.
  split; [reflexivity|].
  exact (proj1 (reset_twice_is_reset_once 7 true true "OK" "OK" success success
                  accounts_page eq_refl eq_refl)).
Defined.

End RenderScenarios.

(** ** The rows of the profit ledger *)

Section LedgerRows.
Import Js Async Ledger.

(** The scaled number is the floor of the number scaled plus one half. *)
Lemma scaled_floor (a : Q) (f : nat) :
  (0 <= a)%Q ->
  (inject_Z (Z.of_N (scaled a f)) <= a * inject_Z (10 ^ Z.of_nat f) + (1 # 2)
   < inject_Z (Z.of_N (scaled a f)) + 1)%Q.
Proof.
  intros Ha. pose proof (inject_pow10_pos f) as HP.
  unfold scaled. remember (inject_Z (10 ^ Z.of_nat f)) as P eqn:HeqP. clear HeqP.
  assert (HaP : (0 <= a * P)%Q) by (apply Qmult_le_0_compat; lra).
  assert (Hy : (0 <= a * P + (1 # 2))%Q) by lra.
  assert (Hfl : (0 <= Qfloor (a * P + (1 # 2)))%Z).
  { change 0%Z with (Qfloor 0). by apply Qfloor_resp_le. }
  rewrite Z2N.id by done.
  pose proof (Qfloor_le (a * P + (1 # 2))) as Hle.
  pose proof (Qlt_floor (a * P + (1 # 2))) as Hlt.
  rewrite inject_Z_plus in Hlt. change (inject_Z 1) with 1%Q in Hlt.
  split; lra.
Qed.

(** The sign of what [toFixed(2)] writes, read back. *)
Lemma toFixed2_sign (q : Q) :
  exists y, parseFloat (toFixed q 2) = Some y /\
            (Qle_bool 0 y = true <-> (- (1 # 200) < q)%Q).
Proof.
  destruct (parseFloat_toFixed q 2 ltac:(lia)) as (y & Hy & Hval).
  exists y. split; [exact Hy|]. rewrite Qle_bool_iff.
  change (inject_Z (10 ^ Z.of_nat 2)) with (100 # 1)%Q in Hval.
  destruct (Qle_bool 0 q) eqn:Hq; simpl in Hval.
  - apply Qle_bool_iff in Hq.
    assert (Hn : (0 <= inject_Z (Z.of_N (scaled q 2)))%Q).
    { change 0%Q with (inject_Z 0). rewrite <- Zle_Qle. lia. }
    remember (inject_Z (Z.of_N (scaled q 2))) as n eqn:Heqn. clear Heqn.
    split; intros _; [lra|]. rewrite Hval.
    assert (Heq : (1 * (n / (100 # 1)) == n * (1 # 100))%Q) by (field; lra).
    rewrite Heq. lra.
  - assert (Hneg : (0 <= - q)%Q).
    { destruct (Qlt_le_dec q 0) as [Hlt|Hge]; [lra|].
      apply Qle_bool_iff in Hge. congruence. }
    pose proof (scaled_floor (- q) 2 Hneg) as Hfl.
    change (inject_Z (10 ^ Z.of_nat 2)) with (100 # 1)%Q in Hfl.
    assert (Heq : (y == - (inject_Z (Z.of_N (scaled (- q) 2)) * (1 # 100)))%Q).
    { rewrite Hval. field. }
    rewrite Heq.
    destruct (decide (scaled (- q) 2 = 0%N)) as [Hz|Hnz].
    + rewrite Hz in *. change (inject_Z (Z.of_N 0)) with 0%Q in *. split; intros _; lra.
    + assert (Hpos : (1 <= inject_Z (Z.of_N (scaled (- q) 2)))%Q).
      { change 1%Q with (inject_Z 1). rewrite <- Zle_Qle. lia. }
      remember (inject_Z (Z.of_N (scaled (- q) 2))) as n eqn:Heqn. clear Heqn.
      split; intros ?; lra.
Qed.

(** X17. The profit cell of a ledger row is green or red, never
    anything else: it is green exactly when the profit is a number above
    -0.005, that is when the 2 decimals shown are not below zero; a missing
    profit or one that is not a number is shown red. *)
Theorem profit_colour_threshold (e : entry) :
  exists cells cls,
    trade_row e = Trade cells cls /\
    (cls = "text-success" \/ cls = "text-danger") /\
    (cls = "text-success" <-> exists q, profit_usdt e = Num q /\ (- (1 # 200) < q)%Q).
Proof.
  unfold trade_row. eexists _, _. split; [reflexivity|].
  destruct (profit_usdt e) as [| |b|q|s] eqn:Hp; simpl;
    try (split; [by right|]; split; [done|]; by intros (q & ? & _)).
  destruct (toFixed2_sign q) as (y & -> & Hsign).
  destruct (Qle_bool 0 y).
  - split; [by left|]. split; [|done]. intros _. exists q. split; [done|]. by apply Hsign.
  - split; [by right|]. split; [done|]. intros (q' & [= <-] & Hq').
    apply Hsign in Hq'. discriminate Hq'.
Qed.

(** X18. Loading a page of the ledger on a page that has the table
    moves the cursor to the requested page at once and sends one request, for
    that page with the page size, timeframe and sort order of the view. The
    table body is never left empty: it shows the entries, or one row that
    says there are none, that reports the error of the body, or that the load
    failed; in the last two cases the pagination controls are not touched. *)
Theorem load_outcome (srv : server request) (page : Q) (v : view) (rows0 : list row) :
  tbody v = Some rows0 ->
  let req := ProfitLogEntries page itemsPerPage (currentTimeframe v) (currentSort v) in
  let v' := loaded srv page v in
  currentPage v' = page /\
  requests srv (loadProfitLogData page v).2 (loadProfitLogData page v).1
  = [existT (ledger_page : Type) req] /\
  (exists r rows, tbody v' = Some (r :: rows)) /\
  match srv ledger_page req with
  | Responded _ _ (Some data) =>
      if truthy (error data)
      then controls v' = controls v /\ tbody v' = Some [ErrorRow (error data)]
      else match entries data with
           | Some (e :: es) => tbody v' = Some (trade_row <$> e :: es)
           | _ => tbody v' = Some [NoEntries]
           end
  | _ => controls v' = controls v /\ tbody v' = Some [LoadFailed]
  end.
Proof.
  intros Hbody req v'. unfold v', loaded, loadProfitLogData. simpl.
  rewrite requests_Await, final_Await. simpl. fold req.
  destruct (srv ledger_page req) as [reason|ok statusText [data|]]; simpl;
    unfold final, with_tbody; simpl; rewrite ?Hbody; simpl; try (by eauto 10).
  unfold on_ledger_page. simpl.
  destruct (truthy (error data)); simpl; rewrite ?Hbody; simpl; [by eauto 10|].
  destruct (entries data) as [[|e es]|]; simpl; rewrite ?Hbody; simpl; eauto 10.
Qed.

End LedgerRows.

Section LoadScenarios.
Import Js Async Ledger Fixtures.

Lemma load_outcome_witness :
  tbody trades_page = Some [] /\
  currentPage (loaded (ledger last_page) 2 trades_page) = 2%Q /\
  tbody (loaded (ledger last_page) 2 trades_page)
  = Some (trade_row <$> replicate 18 trade).
Proof.
  split; [reflexivity|].
  destruct (load_outcome (ledger last_page) 2 trades_page [] eq_refl)
    as (Hc & _ & _ & Ht).
  split; [exact Hc|exact Ht].
Defined.

End LoadScenarios.

(** ** The search box *)

Section Search.
Import Js JsMore PairSearch.

Lemma includes_empty (s : string) : includes s "" = true.
Proof. by destruct s. Qed.

Lemma upper_lower_char (c : ascii) : upper_char (lower_char c) = upper_char c.
Proof. by destruct c as [[] [] [] [] [] [] [] []]. Qed.

Lemma toUpperCase_toLowerCase (s : string) : toUpperCase (toLowerCase s) = toUpperCase s.
Proof. induction s as [|c s IH]; simpl; [done|]. by rewrite upper_lower_char, IH. Qed.

Lemma upper_upper_char (c : ascii) : upper_char (upper_char c) = upper_char c.
Proof. by destruct c as [[] [] [] [] [] [] [] []]. Qed.

(** The rows after a search over rows that all have a first cell. *)
Lemma show_matching_cells (query : string) (rows : list pair_row) :
  (forall r, r ∈ rows -> is_Some (first_cell r)) ->
  show_matching query rows
  = ((fun r => {| first_cell := first_cell r;
                  display := if includes (toUpperCase (default "" (first_cell r))) query
                             then "" else "none" |}) <$> rows, None).
Proof.
  induction rows as [|r rows IH]; intros Hc; simpl; [done|].
  destruct (Hc r) as [text Ht]; [by apply elem_of_cons; left|].
  rewrite Ht, IH; [done|]. intros r' Hr'. apply Hc. by apply elem_of_cons; right.
Qed.

(** X19. A search over rows that all have a first cell never reports an
    error and keeps the rows and their cells: a row is shown exactly when its
    first cell contains the query, letter case ignored, and hidden with
    [display: none] otherwise. The outcome does not depend on an earlier
    search nor on the case of the query, and the empty query shows every
    row. *)
Theorem search_shows_matching_rows (q : string) (rows : list pair_row) :
  (forall r, r ∈ rows -> is_Some (first_cell r)) ->
  let res := searchPair (Some q) rows in
  res.2 = None /\
  first_cell <$> res.1 = first_cell <$> rows /\
  (forall r, r ∈ res.1 ->
     exists text,
       first_cell r = Some text /\
       display r = (if includes (toUpperCase text) (toUpperCase q) then "" else "none")) /\
  (forall q0, searchPair (Some q) (searchPair (Some q0) rows).1 = res) /\
  searchPair (Some (toLowerCase q)) rows = res /\
  (q = "" -> forall r, r ∈ res.1 -> display r = "").
Proof.
  intros Hc. cbv zeta. unfold searchPair.
  rewrite !show_matching_cells by done. cbn [fst snd].
  assert (Hshown : forall r,
    r ∈ (fun r => {| first_cell := first_cell r;
                     display := if includes (toUpperCase (default "" (first_cell r)))
                                     (toUpperCase q)
                                then "" else "none" |}) <$> rows ->
    exists text,
      first_cell r = Some text /\
      display r = (if includes (toUpperCase text) (toUpperCase q) then "" else "none")).
  { intros r (r0 & -> & Hr0)%list_elem_of_fmap. simpl.
    destruct (Hc r0 Hr0) as [text Ht]. exists text. by rewrite Ht. }
  split; [done|]. split; [|split; [exact Hshown|split; [|split]]].
  - apply list_eq. intros i. rewrite !list_lookup_fmap. by destruct (rows !! i).
  - intros q0. rewrite (show_matching_cells (toUpperCase q0) rows) by done. cbn [fst].
    rewrite show_matching_cells.
    + f_equal. apply list_eq. intros i. rewrite !list_lookup_fmap.
      by destruct (rows !! i).
    + intros r (r0 & -> & Hr0)%list_elem_of_fmap. simpl. by apply Hc.
  - by rewrite toUpperCase_toLowerCase.
  - intros -> r Hr. destruct (Hshown r Hr) as (text & _ & ->).
    simpl. by rewrite includes_empty.
Qed.

End Search.

(** ** The validation of the settings form *)

Section Validation.
Import Js JsMore Settings.

Lemma isNaN_false (x : parsed) : isNaN x = false <-> x ≠ NaN.
Proof. destruct x; simpl; split; congruence. Qed.

Lemma not_positive_false (x : parsed) : not_positive x = false <-> positive x.
Proof.
  unfold not_positive, positive. destruct x as [|q|[]]; simpl; try (split; done).
  rewrite orb_false_r. split.
  - intros Hle. destruct (Qlt_le_dec 0 q) as [Hlt|Hge]; [done|].
    apply Qle_bool_iff in Hge. congruence.
  - intros Hlt. destruct (Qle_bool q 0) eqn:Hle; [|done].
    apply Qle_bool_iff in Hle. lra.
Qed.

Lemma existsb_false_Forall {A : Type} (f : A -> bool) (P : A -> Prop) (l : list A) :
  (forall x, f x = false <-> P x) -> existsb f l = false <-> Forall P l.
Proof.
  intros Hf. induction l as [|x l IH]; simpl.
  - split; [constructor|done].
  - rewrite orb_false_iff, Forall_cons, IH, Hf. done.
Qed.

(** X20. On a page with the pair selector, the settings form is
    submitted exactly when at least one pair is selected, every buy
    percentage parses to a number, and every sell percentage and every amount
    parses to a number above zero; in every other case the user is alerted
    and the submission is prevented. *)
Theorem submission_goes_through_iff (n : nat) (buy sell amount : list string) :
  on_submit (Some n) buy sell amount = inr None <->
  n ≠ 0 /\
  Forall (fun s => parseFloat_full s ≠ NaN) buy /\
  Forall (fun s => positive (parseFloat_full s)) sell /\
  Forall (fun s => positive (parseFloat_full s)) amount.
Proof.
  unfold on_submit.
  rewrite <- (existsb_false_Forall (fun s => isNaN (parseFloat_full s)) _ buy)
    by (intros s; apply isNaN_false).
  rewrite <- (existsb_false_Forall (fun s => not_positive (parseFloat_full s)) _ sell)
    by (intros s; apply not_positive_false).
  rewrite <- (existsb_false_Forall (fun s => not_positive (parseFloat_full s)) _ amount)
    by (intros s; apply not_positive_false).
  destruct (Nat.eqb_spec n 0) as [->|Hn]; [split; [done|by intros [? _]]|].
  destruct (existsb _ buy); [split; [done|by intros (_ & ? & _)]|].
  destruct (existsb _ sell); [split; [done|by intros (_ & _ & ? & _)]|].
  destruct (existsb _ amount); [split; [done|by intros (_ & _ & _ & ?)]|].
  done.
Qed.

(** What the validation lets through and what it stops. *)
Example validation_samples :
  on_submit (Some 1) ["-5"] ["1.5"] ["10"] = inr None /\
  on_submit (Some 1) ["0"] ["2%"] ["1e1 USDC"] = inr None /\
  on_submit (Some 1) ["5"] ["Infinity"] ["10"] = inr None /\
  on_submit (Some 1) ["abc"] ["0"] ["10"]
  = inr (Some "Buy percentage must be a valid number for all pairs.") /\
  on_submit (Some 1) ["5"] ["0"] [""]
  = inr (Some "Sell percentage must be positive for all pairs.") /\
  on_submit (Some 1) ["5"] ["1"] [""]
  = inr (Some "Amount must be positive for all pairs.") /\
  on_submit (Some 0) ["abc"] ["0"] [""]
  = inr (Some "Please select at least one trading pair.").
Proof. repeat split; vm_compute; reflexivity. Qed.

End Validation.

(** ** The refresh and the edit control *)

Section Refresh.
Import Js Dom Async Dashboard Overview.

Lemma rows_refresh_status (p : page) e : rows (refresh_status p e) = rows p.
Proof.
  unfold refresh_status. destruct (query_row e.1 (rows p)) as [row|]; [|done].
  by destruct (getElementById _ p).
Qed.

Lemma refresh_status_consistent (p : page) e id :
  edit_consistent p id -> edit_consistent (refresh_status p e) id.
Proof.
  intros Hinv. unfold refresh_status.
  destruct (query_row e.1 (rows p)) as [row|]; [|done].
  destruct (getElementById _ p); [|done].
  by apply update_pair_consistent.
Qed.

Lemma refresh_status_establishes (p : page) e row id :
  query_row e.1 (rows p) = Some row -> data_id row = Some id ->
  edit_consistent (refresh_status p e) id.
Proof.
  intros Hrow Hid. unfold refresh_status. rewrite Hrow, Hid. simpl.
  destruct (getElementById ("action-" +:+ id) p) as [b|] eqn:Hb.
  - apply update_pair_establishes.
  - intros btn edit Hbtn. congruence.
Qed.

Lemma foldl_refresh_status_rows (l : object) (p : page) :
  rows (foldl refresh_status p l) = rows p.
Proof.
  revert p. induction l as [|e l IH]; intros p; simpl; [done|].
  by rewrite IH, rows_refresh_status.
Qed.

Lemma foldl_refresh_status_consistent (l : object) (p : page) id :
  edit_consistent p id -> edit_consistent (foldl refresh_status p l) id.
Proof.
  revert p. induction l as [|e l IH]; intros p Hinv; simpl; [done|].
  by apply IH, refresh_status_consistent.
Qed.

(** X21. A refresh of the trade status puts the button and the edit
    control of every listed pair it reports in agreement: the edit control is
    disabled exactly when the button shows the pair running. Pairs that were
    in agreement stay so. *)
Theorem refresh_restores_edit_control (trade_status : object) (p : page)
    (symbol : string) (row : tr) (id : string) :
  symbol ∈ keys trade_status ->
  query_row symbol (rows p) = Some row ->
  data_id row = Some id ->
  edit_consistent (refresh_trade_status (Some trade_status) p) id /\
  forall id', edit_consistent p id' ->
              edit_consistent (refresh_trade_status (Some trade_status) p) id'.
Proof.
  intros Hin Hrow Hid. split; [|intros id'; apply foldl_refresh_status_consistent].
  simpl. revert p Hrow.
  induction trade_status as [|[s v] l IH]; intros p Hrow; simpl.
  - by apply elem_of_nil in Hin.
  - destruct (decide (s = symbol)) as [->|Hne].
    + apply foldl_refresh_status_consistent.
      by apply (refresh_status_establishes p (symbol, v) row).
    + simpl in Hin. apply elem_of_cons in Hin as [Heq|Hin]; [congruence|].
      apply IH; [done|]. by rewrite rows_refresh_status.
Qed.

End Refresh.

(** ** Searching and refreshing on the sample pages *)

Section SearchScenarios.
Import Js JsMore Dom Dashboard PairSearch Overview Fixtures Samples.

Lemma search_shows_matching_rows_witness :
  (forall r, r ∈ pair_rows -> is_Some (first_cell r)) /\
  searchPair (Some (toLowerCase "BTC")) pair_rows = searchPair (Some "BTC") pair_rows.
Proof.
  assert (H : forall r, r ∈ pair_rows -> is_Some (first_cell r)).
  { intros r Hr. apply elem_of_cons in Hr as [->|Hr]; [by eexists|].
    apply list_elem_of_singleton in Hr. subst r. by eexists. }
  split; [exact H|].
  destruct (search_shows_matching_rows "BTC" pair_rows H) as (_ & _ & _ & _ & Hl & _).
  exact Hl.
Defined.

Lemma refresh_restores_edit_control_witness :
  edit_consistent (refresh_trade_status (Some [("BTCUSDC", Bool true)]) stopped_page) "7".
Proof.
  refine (proj1 (refresh_restores_edit_control [("BTCUSDC", Bool true)] stopped_page
                   "BTCUSDC" {| data_symbol := "BTCUSDC"; data_id := Some "7" |} "7"
                   _ eq_refl eq_refl)).
  apply list_elem_of_singleton. reflexivity.
Defined.

End SearchScenarios.

(** ** The page links and their look *)

Section PageLinks.
Import Js JsMore Async Ledger Paging.

Lemma Qle_bool_inject_Z (a b : Z) : Qle_bool (inject_Z a) (inject_Z b) = bool_decide (a <= b)%Z.
Proof.
  case_bool_decide as H.
  - apply Qle_bool_iff. by rewrite <- Zle_Qle.
  - destruct (Qle_bool _ _) eqn:Hle; [|done].
    apply Qle_bool_iff in Hle. by rewrite <- Zle_Qle in Hle.
Qed.

Lemma Qeq_bool_inject_Z (a b : Z) : Qeq_bool (inject_Z a) (inject_Z b) = bool_decide (a = b).
Proof.
  case_bool_decide as H.
  - subst. apply Qeq_bool_iff. reflexivity.
  - destruct (Qeq_bool _ _) eqn:Heq; [|done].
    apply Qeq_bool_iff in Heq. unfold Qeq in Heq. simpl in Heq. lia.
Qed.

(** X22. On a page of a ledger with more than one page, the Previous
    and Next links behave as they look: a link is drawn disabled exactly when
    a click on it loads nothing; a click on an enabled Previous loads the page
    before, which is at least 1, and a click on an enabled Next loads the page
    after, which is at most the last page. *)
Theorem page_links_match_their_look (t c : Z) (old : list control) :
  (1 <= c <= t)%Z -> (1 < t)%Z ->
  let tp := Num (inject_Z t) in
  let cp := Num (inject_Z c) in
  exists prev cur next,
    updatePaginationControls tp cp (Some old) = Some [prev; cur; next] /\
    (is_disabled prev <-> previous_target cp = None) /\
    (is_disabled next <-> next_target tp cp = None) /\
    (forall q, previous_target cp = Some q ->
               (q == inject_Z (c - 1))%Q /\ (1 <= c - 1)%Z) /\
    (forall v, next_target tp cp = Some v ->
               exists q, v = Num q /\ (q == inject_Z (c + 1))%Q /\ (c + 1 <= t)%Z).
Proof.
  intros Hc Ht tp cp.
  pose proof (updatePaginationControls_spec tp cp old) as Hspec.
  assert (Hle : le_num tp 1 = false).
  { unfold tp, le_num. simpl. change 1%Q with (inject_Z 1).
    rewrite Qle_bool_inject_Z. case_bool_decide; [lia|done]. }
  rewrite Hle in Hspec.
  destruct Hspec as (prev & cur & next & Heq & _ & _ & _ & Hprev & Hnext).
  exists prev, cur, next. split; [exact Heq|].
  assert (Htruthy : truthy cp = true).
  { unfold cp. simpl. change 0%Q with (inject_Z 0).
    rewrite Qeq_bool_inject_Z. case_bool_decide; [lia|done]. }
  assert (Hprev_target : previous_target cp
                         = if bool_decide (c <= 1)%Z then None
                           else Some (inject_Z c - 1)%Q).
  { unfold previous_target, cp. cbn [to_number]. change 1%Q with (inject_Z 1) at 1.
    rewrite Qle_bool_inject_Z. by destruct (bool_decide (c <= 1)%Z). }
  assert (Hnext_target : next_target tp cp
                         = if bool_decide (t <= c)%Z then None
                           else Some (Num (inject_Z c + 1))).
  { unfold next_target, lt, tp, cp. cbn [to_number fmap option_fmap option_map].
    rewrite Qle_bool_inject_Z. by destruct (bool_decide (t <= c)%Z). }
  rewrite Hprev, Hnext, Hprev_target, Hnext_target, Htruthy.
  unfold cp, tp, is_int, strict_eq. rewrite !Qeq_bool_inject_Z.
  split; [|split; [|split]].
  - repeat case_bool_decide; intuition (discriminate || lia).
  - repeat case_bool_decide; intuition (discriminate || lia).
  - intros q. destruct (bool_decide_reflect (c <= 1)%Z) as [Hd|Hd]; [done|].
    intros [= <-]. split; [|lia].
    unfold Z.sub. rewrite inject_Z_plus, inject_Z_opp. reflexivity.
  - intros v. destruct (bool_decide_reflect (t <= c)%Z) as [Hd|Hd]; [done|].
    intros [= <-].
    eexists. split; [reflexivity|]. split; [|lia].
    rewrite inject_Z_plus. reflexivity.
Qed.

(** Outside that range the look and the listener can differ: on a page
    reported as 0 of 3 the Next link looks disabled and still loads page
    1. *)
Example page_zero_next :
  (map classes <$> updatePaginationControls (Num 3) (Num 0) (Some []))
  = Some [["page-item"; "disabled"]; ["page-item"; "active"]; ["page-item"; "disabled"]] /\
  next_target (Num 3) (Num 0) = Some (Num (0 + 1)) /\
  next_target (Num 3) (Str "2") = Some (Str "21") /\
  previous_target (Str "2") = Some (2 - 1)%Q.
Proof. repeat split; vm_compute; reflexivity. Qed.

End PageLinks.

(** ** The theme switch *)

Section ThemeSwitch.
Import Js Async Theme.

(** X23. When the server reports a theme, the classes of the page other
    than "light", "dark" and the reported theme are kept. For a theme that is
    a class name the page ends with that theme among its classes, and with
    "dark" or "light" only when that is the theme; the label of the toggle,
    when the page has one, names the other theme and carries the icon. For a
    theme that is empty or contains white space the page ends with neither
    "light" nor "dark", the icon and the toggle stay as they were and the
    failure is logged. *)
Theorem theme_switch_outcome (srv : server request) (c : chrome)
    (ok : bool) (text t : string) :
  srv theme_body ToggleTheme = Responded ok text (Some {| theme := t |}) ->
  let c' := final srv toggleTheme c in
  (forall x, x ≠ "light" -> x ≠ "dark" -> x ≠ t -> x ∈ html c' <-> x ∈ html c) /\
  if is_token t
  then (t ∈ html c') /\
       ("dark" ∈ html c' <-> t = "dark") /\
       ("light" ∈ html c' <-> t = "light") /\
       (forall cls label, toggle c' = Some (cls, label) ->
          label = (if String.eqb t "dark" then "Light" else "Dark") /\
          icon c' = Some cls) /\
       console c' = console c
  else ("dark" ∉ html c') /\ ("light" ∉ html c') /\
       icon c' = icon c /\ toggle c' = toggle c /\
       console c' = (console c ++ ["Theme toggle failed"])%list.
Proof.
  intros Hsrv c'. unfold c', toggleTheme. rewrite final_Await, Hsrv.
  unfold final. simpl. destruct (is_token t) eqn:Htok; simpl.
  - split; [|split; [|split; [|split; [|split]]]]; try done.
    + intros x Hl Hd Ht.
      rewrite elem_of_union, !elem_of_difference, !elem_of_singleton. tauto.
    + apply elem_of_union. left. by apply elem_of_singleton.
    + rewrite elem_of_union, !elem_of_difference, !elem_of_singleton.
      split; [|by left]. intros [?|[_ ?]]; done.
    + rewrite elem_of_union, !elem_of_difference, !elem_of_singleton.
      split; [|by left]. intros [?|[[_ ?] _]]; done.
    + intros cls label. destruct (toggle c) as [[c0 l0]|]; simpl; [|done].
      by intros [= <- <-].
  - split; [|split; [|split]]; try done.
    + intros x Hl Hd Ht. rewrite !elem_of_difference, !elem_of_singleton. tauto.
    + rewrite !elem_of_difference, !elem_of_singleton. tauto.
    + rewrite !elem_of_difference, !elem_of_singleton. tauto.
Qed.

End ThemeSwitch.

(** ** The links of the last page and the switch to the dark theme *)

Section LinkScenarios.
Import Js JsMore Async Ledger Paging Theme Samples.

Lemma page_links_match_their_look_witness :
  (1 <= 2 <= 2)%Z /\ (1 < 2)%Z /\
  exists prev cur next,
    updatePaginationControls (Num (inject_Z 2)) (Num (inject_Z 2)) (Some [])
    = Some [prev; cur; next] /\
    (is_disabled next <-> next_target (Num (inject_Z 2)) (Num (inject_Z 2)) = None).
Proof.
  assert (H1 : (1 <= 2 <= 2)%Z) by lia.
  assert (H2 : (1 < 2)%Z) by lia.
  split; [exact H1|]. split; [exact H2|].
  destruct (page_links_match_their_look 2 2 [] H1 H2)
    as (prev & cur & next & Hc & _ & Hn & _).
  exists prev, cur, next. split; [exact Hc|exact Hn].
Defined.

Lemma theme_switch_outcome_witness :
  theme_server "dark" theme_body ToggleTheme
  = Responded true "OK" (Some {| theme := "dark" |}) /\
  "dark" ∈ html (final (theme_server "dark") toggleTheme light_chrome).
Proof.
  split; [reflexivity|].
  pose proof (theme_switch_outcome (theme_server "dark") light_chrome true "OK" "dark"
                eq_refl) as H.
  destruct H as (_ & Hin & _). exact Hin.
Defined.

End LinkScenarios.

(** ** Reset All *)

Section ResetAll.
Import Js JsMore Async Profit ExchangeReset.

Lemma pretty_go_head_pos (n : N) (s : string) :
  (0 < n)%N ->
  exists d s', (0 < d < 10)%N /\ pretty_N_go n s = String (pretty_N_char d) s'.
Proof.
  revert s. induction (N.lt_wf_0 n) as [n _ IH]; intros s Hn.
  rewrite pretty_N_go_step by done.
  destruct (decide (n / 10 = 0)%N) as [Hz|Hz].
  - rewrite Hz, pretty_N_go_0. eexists _, _. split; [|reflexivity].
    pose proof (N.div_mod n 10 ltac:(lia)). pose proof (N.mod_lt n 10 ltac:(lia)). lia.
  - apply IH; [apply N.div_lt; lia|]. by apply N.neq_0_lt_0.
Qed.

(** A positive number as [pretty] writes it, read by [parseInt]. *)
Lemma parseInt_digits (negative : bool) (x : positive) :
  parseInt ((if negative then "-" else "") +:+ pretty (N.pos x))
  = Some (if negative then Z.neg x else Z.pos x).
Proof.
  assert (Hpretty : pretty (N.pos x) = pretty_N_go (N.pos x) "").
  { unfold pretty, pretty_N. by rewrite decide_False. }
  destruct (pretty_go_head_pos (N.pos x) "" ltac:(lia)) as (d & s' & Hd & Hhead).
  destruct (read_digits_pretty (N.pos x) "" 0 0) as (k & Hk & Hread).
  rewrite append_empty_r in Hread.
  assert (Hdigits : forall neg : bool,
    match read_sign (trim_start ((if neg then "-" else "") +:+ pretty (N.pos x))) with
    | (negative, s1) => negative = neg /\ s1 = pretty (N.pos x)
    end).
  { intros neg. rewrite Hpretty, Hhead.
    assert (d = 1 \/ d = 2 \/ d = 3 \/ d = 4 \/ d = 5 \/ d = 6 \/ d = 7 \/ d = 8 \/ d = 9)%N
      as Hcases by lia.
    destruct neg; repeat (destruct Hcases as [->|Hcases]; [done|]); by subst. }
  unfold parseInt. specialize (Hdigits negative).
  destruct (read_sign _) as [neg s1]. destruct Hdigits as [-> ->].
  assert (Hbranch :
    match pretty (N.pos x) with
    | String "0" (String c s2) =>
        if Ascii.eqb c "x" || Ascii.eqb c "X" then read_hex s2 0 0
        else (read_digits (pretty (N.pos x)) 0 0).1
    | _ => (read_digits (pretty (N.pos x)) 0 0).1
    end = (read_digits (pretty (N.pos x)) 0 0).1).
  { rewrite Hpretty at 1. rewrite Hhead.
    assert (d = 1 \/ d = 2 \/ d = 3 \/ d = 4 \/ d = 5 \/ d = 6 \/ d = 7 \/ d = 8 \/ d = 9)%N
      as Hcases by lia.
    repeat (destruct Hcases as [->|Hcases]; [done|]). by subst. }
  rewrite Hbranch, Hread. simpl. destruct k as [|k]; [lia|].
  by destruct negative.
Qed.

Lemma parseInt_pretty (z : Z) : parseInt (pretty z) = Some z.
Proof.
  destruct z as [|x|x]; [done| |].
  - exact (parseInt_digits false x).
  - exact (parseInt_digits true x).
Qed.

(** The rows [ids] names, reset. *)
Local Abbreviation zero_ids ids :=
  (fmap (M := list)
     (fun a : account =>
        with_rows ((fun r : row => if bool_decide (pair_id r ∈ ids) then zeroed r else r)
                     <$> rows a) a)).

Lemma with_rows_same (a : account) : with_rows (rows a) a = a.
Proof. by destruct a. Qed.

Lemma fmap_fixed {A : Type} (f : A -> A) (l : list A) :
  (forall x, x ∈ l -> f x = x) -> f <$> l = l.
Proof.
  intros Hf. induction l as [|x l IH]; [done|]. rewrite fmap_cons. f_equal.
  - apply Hf. by apply elem_of_cons; left.
  - apply IH. intros y Hy. apply Hf. by apply elem_of_cons; right.
Qed.

Lemma alter_first_unique pid (rs : list row) :
  NoDup (pair_id <$> rs) ->
  default rs (alter_first pid zeroed rs)
  = (fun r : row => if bool_decide (pair_id r ∈ [pid]) then zeroed r else r) <$> rs.
Proof.
  induction rs as [|r rs IH]; intros Hnd; simpl; [done|].
  simpl in Hnd. apply NoDup_cons in Hnd as [Hr Hnd]. specialize (IH Hnd).
  unfold is_pair. destruct (String.eqb_spec (pair_id r) pid) as [Heq|Hne].
  - simpl. rewrite bool_decide_true by (by apply list_elem_of_singleton). f_equal.
    symmetry. apply fmap_fixed. intros r' Hr'.
    rewrite bool_decide_false; [done|].
    intros Hin%list_elem_of_singleton. apply Hr. rewrite Heq, <- Hin.
    by apply list_elem_of_fmap_2.
  - rewrite bool_decide_false by (by intros ?%list_elem_of_singleton).
    destruct (alter_first pid zeroed rs) as [rs'|]; simpl in *; by f_equal.
Qed.

Lemma alter_first_not_in pid (f : row -> row) (rs : list row) :
  pid ∉ pair_id <$> rs -> alter_first pid f rs = None.
Proof.
  induction rs as [|r rs IH]; simpl; [done|]. intros Hn.
  apply not_elem_of_cons in Hn as [Hne Hn].
  unfold is_pair. destruct (String.eqb_spec (pair_id r) pid) as [Heq|_]; [congruence|].
  by rewrite IH.
Qed.

(** With unique ids, the reset of a pair changes the rows with its id
    wherever they are. *)
Lemma zero_cells_unique pid (doc : list account) :
  NoDup (pair_id <$> all_rows doc) ->
  zero_cells pid doc = zero_ids [pid] doc.
Proof.
  rewrite zero_cells_zeroed.
  induction doc as [|a doc IH]; intros Hnd; [done|].
  change (all_rows (a :: doc)) with (rows a ++ all_rows doc)%list in Hnd.
  rewrite fmap_app in Hnd. apply NoDup_app in Hnd as (Ha & Hdisj & Hdoc).
  rewrite fmap_cons. simpl.
  rewrite <- (alter_first_unique pid (rows a) Ha).
  destruct (alter_first pid zeroed (rows a)) as [rs|] eqn:Hrs; simpl.
  - f_equal. symmetry. apply fmap_fixed. intros b Hb.
    rewrite fmap_fixed; [apply with_rows_same|]. intros r Hr.
    rewrite bool_decide_false; [done|].
    intros Hin%list_elem_of_singleton.
    assert (Hida : pid ∈ pair_id <$> rows a).
    { destruct (decide (pid ∈ pair_id <$> rows a)) as [?|Hn]; [done|].
      by rewrite (alter_first_not_in _ _ _ Hn) in Hrs. }
    apply (Hdisj pid Hida). rewrite <- Hin. apply list_elem_of_fmap_2.
    unfold all_rows. apply list_elem_of_In, in_concat. exists (rows b).
    split; apply list_elem_of_In; [by apply list_elem_of_fmap_2|done].
  - rewrite with_rows_same. f_equal. by apply IH.
Qed.

Lemma all_rows_zero_ids (ids : list string) (doc : list account) :
  pair_id <$> all_rows (zero_ids ids doc) = pair_id <$> all_rows doc.
Proof.
  induction doc as [|a doc IH]; [done|].
  rewrite fmap_cons.
  change (all_rows (?b :: ?d)) with (rows b ++ all_rows d)%list.
  rewrite !fmap_app, IH. f_equal. simpl.
  apply list_eq. intros i. rewrite !list_lookup_fmap.
  destruct (rows a !! i) as [r|]; simpl; [|done]. by case_bool_decide.
Qed.

Lemma zero_ids_compose (ids1 ids2 : list string) (doc : list account) :
  zero_ids ids2 (zero_ids ids1 doc) = zero_ids (ids1 ++ ids2)%list doc.
Proof.
  apply list_eq. intros i. rewrite !list_lookup_fmap.
  destruct (doc !! i) as [a|]; simpl; [|done]. f_equal.
  unfold with_rows. simpl. f_equal.
  apply list_eq. intros j. rewrite !list_lookup_fmap.
  destruct (rows a !! j) as [r|]; simpl; [|done]. f_equal.
  destruct (bool_decide_reflect (pair_id r ∈ (ids1 ++ ids2)%list)) as [H|H];
    destruct (bool_decide_reflect (pair_id r ∈ ids1)) as [H1|H1]; simpl;
    destruct (bool_decide_reflect (pair_id r ∈ ids2)) as [H2|H2]; simpl; try done;
    exfalso.
  - apply elem_of_app in H as [?|?]; done.
  - apply H, elem_of_app. by left.
  - apply H, elem_of_app. by left.
  - apply H, elem_of_app. by right.
Qed.

Lemma zero_ids_nil (doc : list account) : zero_ids [] doc = doc.
Proof.
  apply fmap_fixed. intros a _.
  rewrite fmap_fixed; [apply with_rows_same|]. intros r _.
  rewrite bool_decide_false; [done|]. by intros ?%elem_of_nil.
Qed.

Lemma foldl_zero_cells (rs : list row) (ids : list string) (doc : list account) :
  NoDup (pair_id <$> all_rows doc) ->
  foldl (fun d r => zero_cells (pair_id r) d) (zero_ids ids doc) rs
  = zero_ids (ids ++ (pair_id <$> rs))%list doc.
Proof.
  intros Hnd. revert ids. induction rs as [|r rs IH]; intros ids; simpl.
  - by rewrite app_nil_r.
  - rewrite zero_cells_unique by (by rewrite all_rows_zero_ids).
    rewrite zero_ids_compose, IH. by rewrite <- app_assoc.
Qed.

Lemma body_rows_cons k (a : account) (doc : list account) :
  body_rows k (a :: doc)
  = ((if String.eqb (key a) k then rows a else []) ++ body_rows k doc)%list.
Proof.
  unfold body_rows. rewrite filter_cons.
  destruct (String.eqb_spec (key a) k) as [Heq|Hne].
  - by rewrite decide_True.
  - by rewrite decide_False.
Qed.

Lemma body_rows_all_rows k (doc : list account) r :
  r ∈ body_rows k doc -> r ∈ all_rows doc.
Proof.
  induction doc as [|a doc IH]; [done|].
  rewrite body_rows_cons. change (all_rows (a :: doc)) with (rows a ++ all_rows doc)%list.
  intros [Hr|Hr]%elem_of_app; apply elem_of_app.
  - left. by destruct (String.eqb (key a) k); [|apply elem_of_nil in Hr].
  - right. by apply IH.
Qed.

(** With unique ids, the rows named by the ids of the account [k] are the
    rows of that account. *)
Lemma zero_ids_account k (ids : list string) (doc : list account) :
  NoDup (pair_id <$> all_rows doc) ->
  (forall r, r ∈ all_rows doc ->
             pair_id r ∈ ids <-> pair_id r ∈ pair_id <$> body_rows k doc) ->
  zero_ids ids doc = zero_account k doc.
Proof.
  induction doc as [|a doc IH]; intros Hnd Hids; [done|].
  change (all_rows (a :: doc)) with (rows a ++ all_rows doc)%list in *.
  rewrite fmap_app in Hnd. apply NoDup_app in Hnd as (Ha & Hdisj & Hdoc).
  unfold zero_account. rewrite !fmap_cons. f_equal.
  - destruct (String.eqb_spec (key a) k) as [Heq|Hne].
    + f_equal. apply list_fmap_ext. intros i r Hr.
      apply list_elem_of_lookup_2 in Hr.
      rewrite bool_decide_true; [done|]. apply Hids; [apply elem_of_app; by left|].
      apply list_elem_of_fmap_2. rewrite body_rows_cons, Heq, String.eqb_refl.
      apply elem_of_app. by left.
    + rewrite fmap_fixed; [apply with_rows_same|]. intros r Hr.
      rewrite bool_decide_false; [done|]. intros Hin.
      apply Hids in Hin; [|apply elem_of_app; by left].
      rewrite body_rows_cons in Hin.
      destruct (String.eqb_spec (key a) k) as [?|_]; [done|]. simpl in Hin.
      apply (Hdisj (pair_id r)); [by apply list_elem_of_fmap_2|].
      apply list_elem_of_fmap in Hin as (r' & -> & Hr').
      apply list_elem_of_fmap_2. by eapply body_rows_all_rows.
  - apply IH; [done|]. intros r Hr.
    rewrite (Hids r) by (apply elem_of_app; by right).
    rewrite body_rows_cons, fmap_app, elem_of_app. split; [|by right].
    intros [Hin|Hin]; [|done]. exfalso.
    apply (Hdisj (pair_id r)); [|by apply list_elem_of_fmap_2].
    destruct (String.eqb (key a) k); [done|]. by apply elem_of_nil in Hin.
Qed.

(** The calls for rows whose ids are integers as [renderPairProfits] writes
    them, every dialog confirmed. *)
Lemma reset_calls_confirmed (answers : list bool) (rs : list row) :
  (forall r, r ∈ rs -> exists z : Z, pair_id r = pretty z) ->
  Forall (eq true) answers ->
  length rs <= length answers ->
  reset_calls answers rs
  = Some ((fun r => resetProfit true (default 0%Z (parseInt (pair_id r)))) <$> rs).
Proof.
  revert answers. induction rs as [|r rs IH]; intros answers Hids Hall Hlen; simpl; [done|].
  destruct (Hids r) as [z Hz]; [by apply elem_of_cons; left|].
  rewrite Hz, parseInt_pretty. simpl.
  destruct (String.eqb_spec (pretty z) "") as [He|_].
  { pose proof (parseInt_pretty z) as Hp. rewrite He in Hp. discriminate Hp. }
  destruct answers as [|a answers]; simpl in *; [lia|].
  apply Forall_cons in Hall as [<- Hall].
  rewrite IH; [done| |done|lia].
  intros r' Hr'. apply Hids. by apply elem_of_cons; right.
Qed.

Lemma settle_confirmed (srv : server request) (rs : list row) (p : page) :
  (forall r, r ∈ rs -> exists z : Z, pair_id r = pretty z) ->
  (forall z, exists ok text resp,
     srv object (ResetProfit z) = Responded ok text (Some resp) /\
     is_str "success" (get resp "status") = true) ->
  settle_all srv ((fun r => resetProfit true (default 0%Z (parseInt (pair_id r)))) <$> rs) p
  = with_accordion (foldl (fun d r => zero_cells (pair_id r) d) (accordion p) rs) p.
Proof.
  intros Hids Hsrv. unfold settle_all. revert p Hids.
  induction rs as [|r rs IH]; intros p Hids; simpl; [by destruct p|].
  destruct (Hids r) as [z Hz]; [by apply elem_of_cons; left|].
  rewrite Hz, parseInt_pretty. simpl. rewrite final_Await.
  destruct (Hsrv z) as (ok & text & resp & -> & Hok). simpl.
  unfold final. simpl. rewrite Hok, IH; [done|].
  intros r' Hr'. apply Hids. by apply elem_of_cons; right.
Qed.

(** X24. On a page with unique ids, resetting the profits of an account
    whose rows carry numeric pair ids, with every confirmation accepted,
    starts one reset per row of the account; once the server has confirmed
    them all, in whatever order the answers arrive, both profit cells of every
    row of the account show "0.0" and every other account is as it was. *)
Theorem reset_all_in_any_order (k : string) (answers : list bool)
    (srv : server request) (p : page) :
  well_formed (accordion p) ->
  (forall r, r ∈ body_rows k (accordion p) -> exists z : Z, pair_id r = pretty z) ->
  Forall (eq true) answers ->
  length (body_rows k (accordion p)) <= length answers ->
  (forall z, exists ok text resp,
     srv object (ResetProfit z) = Responded ok text (Some resp) /\
     is_str "success" (get resp "status") = true) ->
  exists calls,
    resetExchangeProfit k answers (accordion p) = Some calls /\
    length calls = length (body_rows k (accordion p)) /\
    forall order, order ≡ₚ calls ->
      settle_all srv order p = with_accordion (zero_account k (accordion p)) p.
Proof.
  intros [Hnd _] Hids Hall Hlen Hsrv.
  eexists. split; [by apply reset_calls_confirmed|]. split; [by rewrite length_fmap|].
  intros order Hperm.
  apply Permutation_map_inv in Hperm as (rs' & -> & Hrs').
  assert (Hids' : forall r, r ∈ rs' -> exists z : Z, pair_id r = pretty z).
  { intros r Hr. apply Hids. by rewrite Hrs'. }
  change (map ?f rs') with (f <$> rs').
  rewrite settle_confirmed by done. f_equal.
  rewrite <- (zero_ids_nil (accordion p)) at 1.
  rewrite foldl_zero_cells by done. simpl.
  apply zero_ids_account; [done|]. intros r _. by rewrite Hrs'.
Qed.

End ResetAll.

Section ResetAllScenario.
Import Js JsMore Async Profit ExchangeReset Fixtures.

Lemma reset_all_in_any_order_witness :
  well_formed (accordion accounts_page) /\
  exists calls,
    resetExchangeProfit "binance_real" [true; true] (accordion accounts_page) = Some calls /\
    length calls = 2 /\
    settle_all confirming (reverse calls) accounts_page
    = with_accordion (zero_account "binance_real" (accordion accounts_page)) accounts_page.
Proof.
  split; [exact accounts_page_well_formed|].
  destruct (reset_all_in_any_order "binance_real" [true; true] confirming accounts_page
              accounts_page_well_formed) as (calls & Hc & Hl & Ho).
  - intros r Hr. apply elem_of_cons in Hr as [->|Hr]; [by exists 7%Z|].
    apply list_elem_of_singleton in Hr. subst r. by exists 8%Z.
  - repeat constructor.
  - apply le_n.
  - intros z. by eexists _, _, _.
  - exists calls. split; [exact Hc|]. split; [exact Hl|].
    apply Ho, reverse_Permutation.
Defined.

End ResetAllScenario.

(** ** The groups of the open positions *)

Section Grouping.
Import Js Positions.

Lemma push_group_keys k pos (g : list (string * list position)) :
  (push_group k pos g).*1 = if bool_decide (k ∈ g.*1) then g.*1 else (g.*1 ++ [k])%list.
Proof.
  induction g as [|[k' ps] g IH]; [done|]. cbn [push_group].
  destruct (String.eqb_spec k' k) as [->|Hne]; rewrite !fmap_cons; cbn [fst].
  - rewrite bool_decide_true; [done|]. by apply elem_of_cons; left.
  - rewrite IH. destruct (bool_decide_reflect (k ∈ g.*1)) as [Hin|Hnin].
    + rewrite bool_decide_true; [done|]. by apply elem_of_cons; right.
    + rewrite bool_decide_false; [done|].
      intros [?|?]%elem_of_cons; congruence.
Qed.

Lemma push_group_other k pos (g : list (string * list position)) k' ps' :
  k' ≠ k -> (k', ps') ∈ push_group k pos g <-> (k', ps') ∈ g.
Proof.
  intros Hne. induction g as [|[k0 ps] g IH]; simpl.
  - rewrite list_elem_of_singleton. split; [intros [= ? ?]; congruence|by intros ?%elem_of_nil].
  - destruct (String.eqb_spec k0 k) as [->|Hne0].
    + rewrite !elem_of_cons. split; (intros [[= ? ?]|?]; [congruence|by right]).
    + rewrite !elem_of_cons, IH. done.
Qed.

Lemma push_group_same k pos (g : list (string * list position)) ps' :
  NoDup g.*1 ->
  (k, ps') ∈ push_group k pos g <->
  (exists ps, (k, ps) ∈ g /\ ps' = (ps ++ [pos])%list) \/ ((k ∉ g.*1) /\ ps' = [pos]).
Proof.
  induction g as [|[k0 ps] g IH]; simpl; intros Hnd.
  - rewrite list_elem_of_singleton. split.
    + intros [= ->]. right. split; [by intros ?%elem_of_nil|done].
    + intros [(ps & ?%elem_of_nil & _)|[_ ->]]; done.
  - apply NoDup_cons in Hnd as [Hk0 Hnd].
    destruct (String.eqb_spec k0 k) as [->|Hne0].
    + rewrite elem_of_cons. split.
      * intros [[= ->]|Hin].
        -- left. exists ps. split; [by apply elem_of_cons; left|done].
        -- exfalso. apply Hk0. apply list_elem_of_fmap. by exists (k, ps').
      * intros [(ps0 & Hin & ->)|[Hnin _]].
        -- apply elem_of_cons in Hin as [[= ->]|Hin]; [by left|].
           exfalso. apply Hk0. apply list_elem_of_fmap. by exists (k, ps0).
        -- exfalso. apply Hnin. by apply elem_of_cons; left.
    + rewrite elem_of_cons, (IH Hnd). split.
      * intros [[= ? ?]|[(ps0 & Hin & ->)|[Hnin ->]]]; [congruence| |].
        -- left. exists ps0. split; [by apply elem_of_cons; right|done].
        -- right. split; [|done].
           intros [?|?]%elem_of_cons; simpl in *; [congruence|by apply Hnin].
      * intros [(ps0 & Hin & ->)|[Hnin ->]].
        -- apply elem_of_cons in Hin as [[= ? ?]|Hin]; [congruence|].
           right. left. by exists ps0.
        -- right. right. split; [|done]. intros Hin. apply Hnin. by apply elem_of_cons; right.
Qed.

Lemma group_snoc (l : list position) pos :
  group (l ++ [pos])%list = push_group (position_key pos) pos (group l).
Proof. unfold group. by rewrite foldl_app. Qed.

Lemma filter_snoc_key k (l : list position) pos :
  filter (fun p => position_key p = k) (l ++ [pos])%list
  = (filter (fun p => position_key p = k) l
     ++ if bool_decide (position_key pos = k) then [pos] else [])%list.
Proof.
  rewrite filter_app. f_equal.
  case_bool_decide.
  - by rewrite filter_cons_True.
  - by rewrite filter_cons_False.
Qed.

Lemma filter_none k (l : list position) :
  (forall p, p ∈ l -> position_key p <> k) ->
  filter (fun p => position_key p = k) l = [].
Proof.
  induction l as [|p l IH]; intros Hl; [done|].
  rewrite filter_cons_False by (apply Hl; by apply elem_of_cons; left).
  apply IH. intros p' Hp'. apply Hl. by apply elem_of_cons; right.
Qed.

Lemma group_keys_nodup (l : list position) : NoDup (group l).*1.
Proof.
  induction l as [|pos l IH] using rev_ind; [by constructor|].
  rewrite group_snoc, push_group_keys. case_bool_decide as Hin; [done|].
  apply NoDup_app. split; [done|]. split; [|apply NoDup_singleton].
  intros k Hk ->%list_elem_of_singleton. done.
Qed.

Lemma group_keys (l : list position) k :
  k ∈ (group l).*1 <-> exists p, p ∈ l /\ position_key p = k.
Proof.
  induction l as [|pos l IH] using rev_ind.
  - split; [by intros ?%elem_of_nil|by intros (p & ?%elem_of_nil & _)].
  - rewrite group_snoc, push_group_keys.
    assert (Hsnoc : (exists p, p ∈ (l ++ [pos])%list /\ position_key p = k)
                    <-> k ∈ (group l).*1 \/ k = position_key pos).
    { rewrite IH. split.
      - intros (p & [Hin| ->%list_elem_of_singleton]%elem_of_app & Hk); [left; eauto|by right].
      - intros [(p & Hin & Hk)| ->].
        + exists p. split; [apply elem_of_app; by left|done].
        + exists pos. split; [apply elem_of_app; right; by apply list_elem_of_singleton|done]. }
    rewrite Hsnoc. case_bool_decide as Hin.
    + split; [by left|]. by intros [?| ->].
    + rewrite elem_of_app, list_elem_of_singleton. done.
Qed.

Lemma group_members (l : list position) k ps :
  (k, ps) ∈ group l -> ps = filter (fun p => position_key p = k) l.
Proof.
  revert k ps. induction l as [|pos l IH] using rev_ind; intros k ps Hin.
  - by apply elem_of_nil in Hin.
  - rewrite group_snoc in Hin. rewrite filter_snoc_key.
    destruct (decide (k = position_key pos)) as [->|Hne].
    + rewrite bool_decide_true by done.
      apply push_group_same in Hin as [(ps0 & Hin & ->)|[Hnin ->]]; [| |apply group_keys_nodup].
      * by rewrite <- (IH _ _ Hin).
      * replace (filter (fun p => position_key p = position_key pos) l) with (@nil position);
          [done|].
        symmetry. apply filter_none. intros p Hp Hk.
        apply Hnin, group_keys. eauto.
    + rewrite bool_decide_false by done. rewrite app_nil_r.
      apply IH. by apply push_group_other in Hin.
Qed.

Lemma groups_nonempty (l : list position) k :
  (k, []) ∈ group l -> False.
Proof.
  intros Hin. pose proof (group_members l k [] Hin) as Hps.
  assert (Hk : k ∈ (group l).*1) by (apply list_elem_of_fmap; by exists (k, [])).
  apply group_keys in Hk as (p & Hp & Hkp). symmetry in Hps.
  by apply (filter_nil_not_elem_of _ _ p Hps).
Qed.

(** X25. The open positions are split into one group per pair of symbol
    and exchange: the keys of the groups are distinct, every position falls
    under the key of one group, and the group of a key holds the positions
    with that key, all of them, in the order of the list; no group is
    empty. *)
Theorem groups_partition_positions (l : list position) :
  NoDup (group l).*1 /\
  (forall p, p ∈ l -> position_key p ∈ (group l).*1) /\
  (forall k ps, (k, ps) ∈ group l ->
     ps = filter (fun p => position_key p = k) l /\ ps <> []).
Proof.
  split; [apply group_keys_nodup|]. split.
  - intros p Hp. apply group_keys. eauto.
  - intros k ps Hin. split; [by apply group_members|].
    intros ->. by apply groups_nonempty in Hin.
Qed.

End Grouping.

(** ** The profit and the loss of a group *)

Section GroupTotals.
Import Js Positions.

Lemma gain_nonneg (p : position) : (0 <= gain p)%Q.
Proof.
  unfold gain. destruct (current_pnl p) as [q|]; [|apply Qle_refl].
  destruct (Qle_bool q 0) eqn:Hq; simpl; [apply Qle_refl|].
  apply Qnot_lt_le. intros Hlt. apply Qlt_le_weak, Qle_bool_iff in Hlt. congruence.
Qed.

Lemma loss_nonneg (p : position) : (0 <= loss p)%Q.
Proof.
  unfold loss. destruct (current_pnl p) as [q|]; [|apply Qle_refl].
  destruct (Qle_bool 0 q); simpl; [apply Qle_refl|apply Qabs_nonneg].
Qed.

Lemma gain_or_loss (p : position) : gain p = 0%Q \/ loss p = 0%Q.
Proof.
  unfold gain, loss. destruct (current_pnl p) as [q|]; [|by left].
  destruct (Qle_bool q 0) eqn:Hq; simpl; [by left|].
  destruct (Qle_bool 0 q) eqn:Hq'; simpl; [by right|].
  exfalso. destruct (Qlt_le_dec 0 q) as [H|H]; [apply Qlt_le_weak in H|];
    apply Qle_bool_iff in H; congruence.
Qed.

Lemma sum_nonneg (l : list Q) :
  Forall (fun q => 0 <= q)%Q l -> (0 <= foldr Qplus 0 l)%Q.
Proof.
  induction 1 as [|q l Hq _ IH]; simpl; [apply Qle_refl|].
  pose proof (Qplus_le_compat _ _ _ _ Hq IH) as H. by rewrite Qplus_0_l in H.
Qed.

Lemma total_profit_from (a : Q) (ps : list position) :
  (foldl (fun s p =>
            match current_pnl p with
            | Some q => if negb (Qle_bool q 0) then (s + q)%Q else (s + 0)%Q
            | None => (s + 0)%Q
            end) a ps
   == a + foldr Qplus 0 (gain <$> ps))%Q.
Proof.
  revert a. induction ps as [|p ps IH]; intros a; [cbn; ring|].
  rewrite fmap_cons. cbn [foldl foldr]. rewrite IH. unfold gain.
  destruct (current_pnl p) as [q|]; [destruct (Qle_bool q 0)|]; cbn [negb]; ring.
Qed.

Lemma total_loss_from (a : Q) (ps : list position) :
  (foldl (fun s p =>
            match current_pnl p with
            | Some q => if negb (Qle_bool 0 q) then (s + q)%Q else (s + 0)%Q
            | None => (s + 0)%Q
            end) a ps
   == a - foldr Qplus 0 (loss <$> ps))%Q.
Proof.
  revert a. induction ps as [|p ps IH]; intros a; [cbn; ring|].
  rewrite fmap_cons. cbn [foldl foldr]. rewrite IH. unfold loss.
  destruct (current_pnl p) as [q|]; [destruct (Qle_bool 0 q) eqn:Hq|]; cbn [negb]; try ring.
  assert (Hneg : (q <= 0)%Q).
  { destruct (Qlt_le_dec 0 q) as [H|H]; [|done].
    apply Qlt_le_weak, Qle_bool_iff in H. congruence. }
  rewrite (Qabs_neg q Hneg). ring.
Qed.

Lemma toFixed_zero_2 : toFixed 0 2 = "0.00".
Proof. by vm_compute. Qed.

(** X26. The header of a group shows, with 2 decimals, the sum of what
    its positions gain and the sum of what they lose; the row of a position
    shows its own gain and loss with 2 decimals, and one of the two is
    zero. *)
Theorem header_sums_its_rows (expanded : gset string) (k : string) (ps : list position) :
  exists P L : Q,
    (P == foldr Qplus 0 (gain <$> ps))%Q /\ (L == foldr Qplus 0 (loss <$> ps))%Q /\
    row_cells (header_row expanded k ps) !! 6%nat = Some (toFixed P 2) /\
    row_cells (header_row expanded k ps) !! 7%nat = Some (toFixed L 2) /\
    forall p,
      row_cells (detail_row expanded k p) !! 6%nat = Some (toFixed (gain p) 2) /\
      row_cells (detail_row expanded k p) !! 7%nat = Some (toFixed (loss p) 2) /\
      (gain p = 0%Q \/ loss p = 0%Q).
Proof.
  exists (total_profit ps), (Qabs (total_loss ps)).
  split; [|split; [|split; [done|split; [done|]]]].
  - unfold total_profit. rewrite total_profit_from. ring.
  - unfold total_loss. rewrite total_loss_from.
    transitivity (Qabs (- foldr Qplus 0 (loss <$> ps))%Q); [apply Qabs_wd; ring|].
    rewrite Qabs_opp. apply Qabs_pos, sum_nonneg.
    apply Forall_forall. intros q (p & -> & _)%list_elem_of_fmap. apply loss_nonneg.
  - intros p. split; [|split; [|apply gain_or_loss]].
    + simpl. unfold gain. destruct (current_pnl p) as [q|]; [|by rewrite toFixed_zero_2].
      destruct (Qle_bool q 0); simpl; by rewrite ?toFixed_zero_2.
    + simpl. unfold loss. destruct (current_pnl p) as [q|]; [|by rewrite toFixed_zero_2].
      destruct (Qle_bool 0 q); simpl; by rewrite ?toFixed_zero_2.
Qed.

End GroupTotals.

(** ** Open groups *)

Section OpenGroups.
Import Js Positions.

Lemma group_class_prefix (k : string) : exists x, group_class k = "pos-group-" +:+ x.
Proof. unfold group_class. eauto. Qed.

Lemma header_row_drawn expanded k ps : drawn_row (header_row expanded k ps).
Proof. apply group_class_prefix. Qed.

Lemma detail_row_drawn expanded k p : drawn_row (detail_row expanded k p).
Proof.
  unfold detail_row, drawn_row. destruct (group_class_prefix k) as [x ->].
  exists x. case_bool_decide; [by right|by left].
Qed.

Lemma elem_of_concat {A} (x : A) (ls : list (list A)) :
  x ∈ concat ls <-> exists l, x ∈ l /\ l ∈ ls.
Proof.
  induction ls as [|l0 ls IH]; cbn [concat].
  - split; [by intros ?%elem_of_nil|by intros (l & _ & ?%elem_of_nil)].
  - rewrite elem_of_app, IH. split.
    + intros [?|(l & ? & ?)]; [exists l0|exists l]; (split; [done|]);
        apply elem_of_cons; auto.
    + intros (l & Hx & [->|?]%elem_of_cons); [by left|]. right. by exists l.
Qed.

Lemma rendered_rows (expanded : gset string) (g : list (string * list position)) (r : prow) :
  r ∈ concat (group_rows expanded <$> g) <->
  exists k ps, (k, ps) ∈ g /\
    (r = header_row expanded k ps \/ exists p, p ∈ ps /\ r = detail_row expanded k p).
Proof.
  rewrite elem_of_concat. split.
  - intros (rows & Hr & ([k ps] & -> & Hin)%list_elem_of_fmap).
    exists k, ps. split; [done|].
    apply elem_of_cons in Hr as [->|(p & -> & Hp)%list_elem_of_fmap]; [by left|].
    right. by exists p.
  - intros (k & ps & Hin & Hr). exists (group_rows expanded (k, ps)). split.
    + destruct Hr as [->|(p & Hp & ->)]; [by apply elem_of_cons; left|].
      apply elem_of_cons; right. apply list_elem_of_fmap. by exists p.
    + apply list_elem_of_fmap. by exists (k, ps).
Qed.

Lemma rendered_rows_drawn expanded (g : list (string * list position)) :
  Forall drawn_row (concat (group_rows expanded <$> g)).
Proof.
  apply Forall_forall. intros r (k & ps & _ & [->|(p & _ & ->)])%rendered_rows.
  - apply header_row_drawn.
  - apply detail_row_drawn.
Qed.

(** Which rows have the class of a group, and which of those are open. *)
Lemma has_group_class expanded k ps c :
  has_class ("pos-group-" +:+ c) (header_row expanded k ps) = false.
Proof. unfold header_row, has_class. apply bool_decide_false. set_unfold. intros [?|[?|[]]]; discriminate. Qed.

Lemma detail_has_class expanded k p c :
  has_class ("pos-group-" +:+ c) (detail_row expanded k p) = true <->
  group_class k = "pos-group-" +:+ c.
Proof.
  unfold detail_row, has_class. rewrite bool_decide_eq_true.
  destruct (group_class_prefix k) as [x Hx]. rewrite Hx.
  rewrite elem_of_app, !elem_of_cons. split.
  - intros [[?|[?|?%elem_of_nil]]|Hs]; [discriminate|congruence|done|].
    case_bool_decide; [|by apply elem_of_nil in Hs].
    apply list_elem_of_singleton in Hs. discriminate.
  - intros ->. left. right. by left.
Qed.

Lemma detail_open expanded k p :
  has_class "show" (detail_row expanded k p) = bool_decide (group_class k ∈ expanded).
Proof.
  unfold detail_row, has_class. destruct (group_class_prefix k) as [x Hx]. rewrite Hx.
  destruct (bool_decide_reflect ("pos-group-" +:+ x ∈ expanded)) as [Hin|Hnin].
  - apply bool_decide_true. apply elem_of_app. right. by apply list_elem_of_singleton.
  - apply bool_decide_false. rewrite app_nil_r.
    intros [?|[?|[]%elem_of_nil]%elem_of_cons]%elem_of_cons; discriminate.
Qed.

(** The groups found open in a table. *)
Lemma expanded_from (tbody rows : list prow) (acc : gset string) (c : string) :
  c ∈ foldl (fun expanded tr =>
               match tr with
               | Header k _ _ =>
                   match find (has_class k) tbody with
                   | Some row => if has_class "show" row then {[k]} ∪ expanded else expanded
                   | None => expanded
                   end
               | Detail _ _ => expanded
               end) acc rows
  <-> c ∈ acc \/
      exists cells up row,
        Header c cells up ∈ rows /\ find (has_class c) tbody = Some row /\
        has_class "show" row = true.
Proof.
  revert acc. induction rows as [|tr rows IH]; intros acc; cbn [foldl].
  - split; [by left|]. by intros [?|(? & ? & ? & ?%elem_of_nil & _)].
  - rewrite IH. clear IH.
    assert (Htl : forall P : Prop,
      (P \/ exists cells up row, Header c cells up ∈ rows /\
         find (has_class c) tbody = Some row /\ has_class "show" row = true)
      -> P \/ exists cells up row, Header c cells up ∈ tr :: rows /\
         find (has_class c) tbody = Some row /\ has_class "show" row = true).
    { intros P [?|(cells & up & row & Hin & ?)]; [by left|].
      right. exists cells, up, row. split; [by apply elem_of_cons; right|done]. }
    destruct tr as [k cells0 up0|cls cells0].
    + destruct (find (has_class k) tbody) as [row0|] eqn:Hfind;
        [destruct (has_class "show" row0) eqn:Hshow|].
      * rewrite elem_of_union, elem_of_singleton. split.
        -- intros [[->|?]|H]; [|by left|by apply Htl; right].
           right. exists cells0, up0, row0. split; [by apply elem_of_cons; left|done].
        -- intros [?|(cells & up & row & [[= <- <- <-]|Hin]%elem_of_cons & Hf & Hs)];
             [by left; right|by left; left|].
           right. by exists cells, up, row.
      * split; [apply Htl|].
        intros [?|(cells & up & row & [[= <- <- <-]|Hin]%elem_of_cons & Hf & Hs)];
          [by left|congruence|].
        right. by exists cells, up, row.
      * split; [apply Htl|].
        intros [?|(cells & up & row & [[= <- <- <-]|Hin]%elem_of_cons & Hf & Hs)];
          [by left|congruence|].
        right. by exists cells, up, row.
    + split; [apply Htl|].
      intros [?|(cells & up & row & [?|Hin]%elem_of_cons & Hf & Hs)];
        [by left|discriminate|].
      right. by exists cells, up, row.
Qed.

Lemma expanded_groups_spec (tbody : list prow) (c : string) :
  c ∈ expanded_groups tbody <->
  exists cells up row,
    Header c cells up ∈ tbody /\ find (has_class c) tbody = Some row /\
    has_class "show" row = true.
Proof.
  unfold expanded_groups. rewrite expanded_from. split; [|by right].
  by intros [?%elem_of_empty|?].
Qed.

Lemma find_elem {A} (f : A -> bool) (l : list A) x :
  find f l = Some x -> x ∈ l /\ f x = true.
Proof.
  induction l as [|y l IH]; simpl; [done|].
  destruct (f y) eqn:Hy.
  - intros [= ->]. split; [by apply elem_of_cons; left|done].
  - intros [Hin ?]%IH. split; [by apply elem_of_cons; right|done].
Qed.

Lemma find_some {A} (f : A -> bool) (l : list A) x :
  x ∈ l -> f x = true -> exists y, find f l = Some y.
Proof.
  induction l as [|z l IH]; simpl; [by intros ?%elem_of_nil|].
  intros [->|Hin]%elem_of_cons Hx.
  - rewrite Hx. eauto.
  - destruct (f z); eauto.
Qed.

(** X27. Drawing the table again keeps the groups open that were open:
    a group is found open in the new table exactly when it was found open in
    the old one and the new list still has positions of it. Every row of the
    new table has the shape the toggles rely on. *)
Theorem redraw_keeps_open_groups (l : list position) (old tbody : list prow) :
  renderOpenPositions l (Some old) = Some tbody ->
  Forall drawn_row tbody /\
  forall c, c ∈ expanded_groups tbody <->
            c ∈ expanded_groups old /\ exists k ps, (k, ps) ∈ group l /\ group_class k = c.
Proof.
  intros [= <-]. split; [apply rendered_rows_drawn|]. intros c.
  rewrite (expanded_groups_spec (concat _)). split.
  - intros (cells & up & row & Hh & Hfind & Hshow).
    apply rendered_rows in Hh as (k & ps & Hin & [Hh|(p & _ & Hh)]); [|discriminate].
    injection Hh as -> _ _.
    apply find_elem in Hfind as [Hrow Hc].
    destruct (group_class_prefix k) as [x Hx]. rewrite Hx in Hc.
    apply rendered_rows in Hrow as (k' & ps' & Hin' & [->|(p & _ & ->)]).
    + by rewrite has_group_class in Hc.
    + apply detail_has_class in Hc. rewrite detail_open, Hc, <- Hx in Hshow.
      apply bool_decide_eq_true in Hshow. split; [done|]. by exists k, ps.
  - intros [Hopen (k & ps & Hin & <-)].
    destruct ps as [|p ps].
    { apply groups_nonempty in Hin. done. }
    destruct (group_class_prefix k) as [x Hx].
    destruct (find_some (has_class (group_class k))
                (concat (group_rows (expanded_groups old) <$> group l))
                (detail_row (expanded_groups old) k p)) as [row Hfind].
    { apply rendered_rows. exists k, (p :: ps). split; [done|]. right.
      exists p. split; [by apply elem_of_cons; left|done]. }
    { rewrite Hx. apply detail_has_class. done. }
    eexists _, _, row. split; [|split; [exact Hfind|]].
    + apply rendered_rows. exists k, (p :: ps). split; [done|]. by left.
    + apply find_elem in Hfind as [Hrow Hc]. rewrite Hx in Hc.
      apply rendered_rows in Hrow as (k' & ps' & Hin' & [->|(p' & _ & ->)]).
      * by rewrite has_group_class in Hc.
      * apply detail_has_class in Hc. rewrite detail_open, Hc, <- Hx.
        by apply bool_decide_true.
Qed.

End OpenGroups.

(** ** The toggle of a group *)

Section ToggleGroup.
Import Js Positions.

Lemma show_not_in_closed (x : string) : "show" ∉ ["collapse"; "pos-group-" +:+ x].
Proof. intros [?|[?|[]%elem_of_nil]%elem_of_cons]%elem_of_cons; discriminate. Qed.

Lemma show_in_open (x : string) : "show" ∈ ["collapse"; "pos-group-" +:+ x; "show"].
Proof. do 2 (apply elem_of_cons; right). by apply elem_of_cons; left. Qed.

Lemma remove_show_closed x cells :
  remove_show (Detail ["collapse"; "pos-group-" +:+ x] cells)
  = Detail ["collapse"; "pos-group-" +:+ x] cells.
Proof.
  unfold remove_show. rewrite (bool_decide_false (_ ∈ _) (show_not_in_closed x)).
  by rewrite andb_false_r.
Qed.

Lemma remove_show_open x cells :
  remove_show (Detail ["collapse"; "pos-group-" +:+ x; "show"] cells)
  = Detail ["collapse"; "pos-group-" +:+ x] cells.
Proof.
  unfold remove_show. rewrite (bool_decide_true (_ ∈ _) (show_in_open x)).
  rewrite bool_decide_true by (by apply elem_of_cons; left). cbn [andb].
  rewrite filter_cons_True by discriminate.
  rewrite filter_cons_True by discriminate.
  by rewrite filter_cons_False by (intros H; by apply H).
Qed.

Lemma class_of_closed c x :
  bool_decide ("pos-group-" +:+ c ∈ ["collapse"; "pos-group-" +:+ x])
  = bool_decide (c = x).
Proof.
  apply bool_decide_ext. rewrite !elem_of_cons. split.
  - intros [?|[?|[]%elem_of_nil]]; [discriminate|by simplify_eq/=].
  - intros ->. right. by left.
Qed.

Lemma class_of_open c x :
  bool_decide ("pos-group-" +:+ c ∈ ["collapse"; "pos-group-" +:+ x; "show"])
  = bool_decide (c = x).
Proof.
  apply bool_decide_ext. rewrite !elem_of_cons. split.
  - intros [?|[?|[?|[]%elem_of_nil]]]; [discriminate|by simplify_eq/=|discriminate].
  - intros ->. right. by left.
Qed.

Lemma header_class c k cells up :
  has_class ("pos-group-" +:+ c) (Header k cells up) = false.
Proof.
  unfold has_class. apply bool_decide_false.
  intros [?|[?|[]%elem_of_nil]%elem_of_cons]%elem_of_cons; discriminate.
Qed.

(** Collapsing a row. *)
Lemma remove_show_drawn c (r : prow) :
  drawn_row r ->
  drawn_row (remove_show r) /\
  open_row (remove_show r) = false /\
  has_class ("pos-group-" +:+ c) (remove_show r) = has_class ("pos-group-" +:+ c) r /\
  (forall k cs u, remove_show r = Header k cs u -> u = false).
Proof.
  destruct r as [k cells up|cls cells]; cbn [drawn_row].
  - intros Hk. cbn [remove_show]. split; [done|]. split; [done|].
    split; [by rewrite !header_class|]. by intros k' cs u [= _ _ <-].
  - intros (x & [-> | ->]); rewrite ?remove_show_closed, ?remove_show_open;
      (split; [exists x; by left|]); (split; [apply bool_decide_false, show_not_in_closed|]);
      (split; [|done]); cbn [has_class]; by rewrite ?class_of_closed, ?class_of_open.
Qed.

(** Opening the rows of a class among collapsed rows. *)
Lemma add_show_drawn c (r : prow) :
  drawn_row r -> open_row r = false ->
  drawn_row (add_show ("pos-group-" +:+ c) r) /\
  open_row (add_show ("pos-group-" +:+ c) r) = has_class ("pos-group-" +:+ c) r /\
  has_class ("pos-group-" +:+ c) (add_show ("pos-group-" +:+ c) r)
  = has_class ("pos-group-" +:+ c) r /\
  (forall k cs u, add_show ("pos-group-" +:+ c) r = Header k cs u -> r = Header k cs u).
Proof.
  destruct r as [k cells up|cls cells]; cbn [drawn_row].
  - intros Hk _. cbn [add_show]. split; [done|]. split; [by rewrite header_class|done].
  - intros (x & [-> | ->]) Hopen.
    + unfold add_show. rewrite (bool_decide_false (_ ∈ _) (show_not_in_closed x)).
      rewrite class_of_closed. cbn [has_class open_row negb]. rewrite class_of_closed.
      rewrite andb_true_r. case_bool_decide as Hc.
      * subst x. split; [exists c; by right|]. cbn [open_row has_class app].
        rewrite (bool_decide_true (_ ∈ _) (show_in_open c)).
        rewrite class_of_open, bool_decide_true by done. done.
      * split; [exists x; by left|]. cbn [open_row has_class].
        rewrite (bool_decide_false (_ ∈ _) (show_not_in_closed x)).
        rewrite class_of_closed, bool_decide_false by done. done.
    + cbn [open_row] in Hopen. by rewrite (bool_decide_true (_ ∈ _) (show_in_open x)) in Hopen.
Qed.

Lemma find_head_filter {A} (f : A -> bool) (l : list A) :
  find f l = head (filter (fun r => f r = true) l).
Proof.
  induction l as [|x l IH]; [done|]. cbn [find].
  destruct (f x) eqn:Hx.
  - by rewrite filter_cons_True.
  - rewrite filter_cons_False by congruence. done.
Qed.

Lemma open_row_show (r : prow) : has_class "show" r = open_row r.
Proof.
  destruct r as [k cells up|cls cells]; [|done].
  cbn. apply bool_decide_false.
  intros [?|[?|[]%elem_of_nil]%elem_of_cons]%elem_of_cons; discriminate.
Qed.

(** X28. A click on the toggle of a group leaves at most that group open:
    when the first row of the group was open, every row of the table is
    collapsed and every chevron points down; otherwise the rows of the group,
    and only they, are open and the chevron of the clicked header alone points
    up. The table keeps its length and the shape of its rows. *)
Theorem toggle_opens_only_clicked_group (tbody : list prow) (i : nat)
    (c : string) (cells : list string) (up : bool) :
  Forall drawn_row tbody ->
  tbody !! i = Some (Header c cells up) ->
  let t' := toggle_group i tbody in
  let was_open := exists r, find (has_class c) tbody = Some r /\ open_row r = true in
  Forall drawn_row t' /\ length t' = length tbody /\
  (forall r, r ∈ t' -> open_row r = true -> has_class c r = true /\ ~ was_open) /\
  (~ was_open -> forall r, r ∈ t' -> has_class c r = true -> open_row r = true) /\
  (forall j k cs u, t' !! j = Some (Header k cs u) -> (u = true <-> j = i /\ ~ was_open)).
Proof.
  intros Hdrawn Hi t' was_open.
  assert (Hc : exists x, c = "pos-group-" +:+ x).
  { rewrite Forall_forall in Hdrawn. apply (Hdrawn (Header c cells up)).
    by apply list_elem_of_lookup_2 in Hi. }
  destruct Hc as [x ->].
  set (k := "pos-group-" +:+ x) in *.
  assert (Hcollapsed : forall j r, (remove_show <$> tbody) !! j = Some r ->
            drawn_row r /\ open_row r = false /\
            (forall k' cs u, r = Header k' cs u -> u = false) /\
            exists r0, tbody !! j = Some r0 /\ has_class k r = has_class k r0).
  { intros j r Hj. rewrite list_lookup_fmap in Hj.
    destruct (tbody !! j) as [r0|] eqn:Hr0; [|done]. injection Hj as <-.
    rewrite Forall_forall in Hdrawn.
    destruct (remove_show_drawn x r0) as (? & ? & ? & ?);
      [by apply Hdrawn; apply list_elem_of_lookup_2 in Hr0|].
    repeat split; try done. by exists r0. }
  unfold t', toggle_group. rewrite Hi. fold k.
  assert (Hexp : match filter (fun r => has_class k r = true) tbody with
                 | r :: _ => has_class "show" r
                 | [] => false
                 end = true <-> was_open).
  { unfold was_open. rewrite find_head_filter.
    destruct (filter (fun r => has_class k r = true) tbody) as [|r rest]; cbn [head].
    - split; [done|]. by intros (r & ? & _).
    - rewrite open_row_show. split; [eauto|]. by intros (r' & [= <-] & ?). }
  destruct (match filter (fun r => has_class k r = true) tbody with
            | r :: _ => has_class "show" r
            | [] => false
            end) eqn:He.
  - assert (Hopen : was_open) by by apply Hexp.
    split; [|split; [by rewrite length_fmap|split; [|split]]].
    + apply Forall_forall. intros r [j Hj]%list_elem_of_lookup_1.
      by apply Hcollapsed in Hj as (? & _).
    + intros r [j Hj]%list_elem_of_lookup_1 Hr.
      apply Hcollapsed in Hj as (_ & ? & _). congruence.
    + done.
    + intros j k' cs u Hj. apply Hcollapsed in Hj as (_ & _ & Hu & _).
      rewrite (Hu k' cs u eq_refl). split; [done|]. by intros [_ ?].
  - assert (Hclosed : ~ was_open) by (intros ?%Hexp; done).
    assert (Hlen : i < length (add_show k <$> (remove_show <$> tbody))).
    { rewrite !length_fmap. by apply lookup_lt_Some in Hi. }
    assert (Hrows : forall j r,
              <[i := Header k cells true]> (add_show k <$> (remove_show <$> tbody)) !! j = Some r ->
              (j = i /\ r = Header k cells true) \/
              (j <> i /\ exists r1, (remove_show <$> tbody) !! j = Some r1 /\ r = add_show k r1)).
    { intros j r Hj. destruct (decide (j = i)) as [->|Hne].
      - left. rewrite list_lookup_insert_eq in Hj by done. by injection Hj as <-.
      - right. split; [done|]. rewrite list_lookup_insert_ne in Hj by done.
        rewrite list_lookup_fmap in Hj.
        destruct ((remove_show <$> tbody) !! j) as [r1|]; [|done].
        injection Hj as <-. by exists r1. }
    split; [|split; [by rewrite length_insert, !length_fmap|split; [|split]]].
    + apply Forall_forall. intros r [j Hj]%list_elem_of_lookup_1.
      apply Hrows in Hj as [[_ ->]|(_ & r1 & Hr1 & ->)]; [by exists x|].
      apply Hcollapsed in Hr1 as (Hd & Ho & _).
      by destruct (add_show_drawn x r1 Hd Ho) as (? & _).
    + intros r [j Hj]%list_elem_of_lookup_1 Hr.
      apply Hrows in Hj as [[_ ->]|(_ & r1 & Hr1 & ->)]; [done|].
      apply Hcollapsed in Hr1 as (Hd & Ho & _).
      destruct (add_show_drawn x r1 Hd Ho) as (_ & Hopen' & Hclass & _).
      split; [|done]. fold k in Hopen', Hclass. congruence.
    + intros _ r [j Hj]%list_elem_of_lookup_1 Hr.
      apply Hrows in Hj as [[_ ->]|(_ & r1 & Hr1 & ->)].
      { unfold k in Hr. by rewrite header_class in Hr. }
      apply Hcollapsed in Hr1 as (Hd & Ho & _).
      destruct (add_show_drawn x r1 Hd Ho) as (_ & Hopen' & Hclass & _).
      fold k in Hopen', Hclass. congruence.
    + intros j k' cs u Hj.
      apply Hrows in Hj as [[-> [= _ _ <-]]|(Hne & r1 & Hr1 & Heq)]; [done|].
      apply Hcollapsed in Hr1 as (Hd & Ho & Hu & _).
      destruct (add_show_drawn x r1 Hd Ho) as (_ & _ & _ & Hh).
      symmetry in Heq. apply Hh in Heq. rewrite (Hu k' cs u Heq).
      split; [done|]. by intros [? _].
Qed.

End ToggleGroup.

(** ** The sample table of open positions *)

Section PositionScenarios.
Import Js Positions Samples.

Lemma positions_table_drawn : Forall drawn_row positions_table.
Proof.
  repeat constructor; cbn;
    first [by eexists; left | by eexists; right | by eexists].
Qed.

Lemma redraw_keeps_open_groups_witness :
  renderOpenPositions open_positions (Some positions_table) = Some positions_table /\
  Forall drawn_row positions_table.
Proof.
  assert (H : renderOpenPositions open_positions (Some positions_table)
              = Some positions_table) by (vm_compute; reflexivity).
  split; [exact H|].
  exact (proj1 (redraw_keeps_open_groups open_positions positions_table positions_table H)).
Defined.

Lemma toggle_opens_only_clicked_group_witness :
  Forall drawn_row positions_table /\
  length (toggle_group 0 positions_table) = 5 /\
  forall r, r ∈ toggle_group 0 positions_table -> open_row r = true ->
            has_class "pos-group-BTCUSDC-binance" r = true.
Proof.
  split; [exact positions_table_drawn|].
  destruct (toggle_opens_only_clicked_group positions_table 0 _ _ _
              positions_table_drawn eq_refl) as (_ & Hl & Ho & _).
  split; [exact Hl|]. intros r Hr Hopen. exact (proj1 (Ho r Hr Hopen)).
Defined.

Example toggle_on_sample_table :
  open_row <$> toggle_group 0 positions_table = [false; true; true; false; false] /\
  open_row <$> toggle_group 3 positions_table = [false; false; false; false; false] /\
  toggle_group 1 positions_table = positions_table.
Proof. repeat split; vm_compute; reflexivity. Qed.

End PositionScenarios.
